(** * Threat-detection engine and security-event rules: a shallow embedding

    The development follows [MLThreatDetection.ts] (decision tree, random
    forest, isolation tree, isolation forest, ensemble engine) and the
    request rules of [services/SecurityMonitor.ts].

    Conventions of the embedding.
    - A JavaScript number is idealised as an exact rational ([Q]), or as a
      real ([R]) where the code calls [Math.log] or [Math.pow].  The special
      values that the code can produce by dividing by zero or by reading past
      the end of an array are kept explicit (see [ext] and the [option Q]
      readings below).
    - TypeScript types are erased when the program runs, so a value is
      modelled by what the expression evaluates to, not by its annotation
      (see [jsval]).
    - [Math.random] is an explicit stream of draws, threaded through the code
      that consumes it.
    - A thrown exception is the [Throw] case of [result]. *)

From Stdlib Require Import List ZArith QArith Qround Qabs Reals Psatz Lia Bool String.
From stdpp Require Import gmap strings.
From Stdlib Require Import Sorted Permutation.
Import ListNotations.

Set Warnings "-register-all".

(** ** Runtime values, errors and randomness *)

(** The exceptions the modelled code can raise: [Array.prototype.reduce] on an
    empty array without an initial value, a method call on [null], and a
    property read on [undefined].  [Unreachable] marks a case of the model
    that no run of the code reaches. *)
Inductive exn : Type :=
| ReduceOfEmptyArray
| NullDereference
| UndefinedProperty
| Unreachable.

Inductive result (A : Type) : Type :=
| Ok (a : A)
| Throw (e : exn).
Arguments Ok {A} a.
Arguments Throw {A} e.

(** A number that may have left the finite range: [x / 0] is [PosInf] for a
    positive [x] and [NaN] for [0 / 0]. *)
Inductive ext (A : Type) : Type :=
| Fin (a : A)
| PosInf
| NaN.
Arguments Fin {A} a.
Arguments PosInf {A}.
Arguments NaN {A}.

(** What [DecisionTree.prediction] holds when the program runs.  The field is
    declared [number], and starts as the number [0]; [majorityClass] however
    returns what its [reduce] over [Object.entries(counts)] evaluates to:
    either an element of that array (the pair [[key, count]]) or a key
    (a string).  [VKey k] is the string that spells the label [k]. *)
Inductive jsval : Type :=
| VNum (n : nat)
| VKey (k : nat)
| VEntry (k : nat) (count : nat).

(** [v === 1] *)
Definition strictEqualsOne (v : jsval) : bool :=
  match v with
  | VNum 1 => true
  | _ => false
  end.

(** [parseInt(v)]: an array is first joined with commas, so the leading
    integer of a pair [[key, count]] is its key. *)
Definition parseInt (v : jsval) : nat :=
  match v with
  | VNum n => n
  | VKey k => k
  | VEntry k _ => k
  end.

(** The stream of [Math.random()] draws.  A draw is the fractional part of
    the stream's head, hence always in [0, 1). *)
Definition rng : Type := nat -> Q.

Definition frac (q : Q) : Q := (q - inject_Z (Qfloor q))%Q.

Definition random (g : rng) : Q * rng := (frac (g 0%nat), fun n => g (S n)).

(** [Math.floor(Math.random() * n)] *)
Definition randomIndex (n : nat) (g : rng) : nat * rng :=
  let (r, g') := random g in
  (Z.to_nat (Qfloor (r * inject_Z (Z.of_nat n))%Q), g').

(** ** Decision tree *)

(** A labelled sample.  The engine labels with 0 (normal) and 1 (threat);
    labels are taken to be non-negative integers.  As the key of the
    [counts] object a label below 2^32 - 1 is an array index; what depends
    on the order or on the spelling of the keys is stated for such labels
    (see [arrayIndexLabel]). *)
Record TrainingData : Type := mkTrainingData {
  features : list Q;
  label : nat
}.

Module DecisionTree.

(** The object: its six private fields.  A child is [null] ([None]) until
    [train] assigns it.  [threshold] is [None] when it holds NaN. *)
Inductive tree : Type := mkTree {
  threshold : option Q;
  featureIndex : nat;
  leftChild : option tree;
  rightChild : option tree;
  prediction : jsval;
  isLeaf : bool
}.

(** [new DecisionTree()] *)
Definition new : tree :=
  mkTree (Some 0%Q) 0 None None (VNum 0) false.

(** [a <= b] on numbers; [a] is [None] when it was read past the end of a
    feature array ([undefined]), [b] when it is NaN: the comparison is then
    false. *)
Definition le_num (a b : option Q) : bool :=
  match a, b with
  | Some x, Some y => Qle_bool x y
  | _, _ => false
  end.

Definition isPure (data : list TrainingData) : bool :=
  match data with
  | [] => true
  | d0 :: _ => forallb (fun d => label d =? label d0) data
  end.

(** [acc[k] = (acc[k] || 0) + 1] on the [counts] object.  The object is kept
    as its list of entries in the order [Object.entries] enumerates them:
    integer keys ascending.  That is the order of the keys that are array
    indices (below 2^32 - 1); larger keys come after them in insertion
    order, which is not modelled. *)
Fixpoint bump (k : nat) (counts : list (nat * nat)) : list (nat * nat) :=
  match counts with
  | [] => [(k, 1)]
  | (k', c) :: rest =>
      if k =? k' then (k', S c) :: rest
      else if k <? k' then (k, 1) :: counts
      else (k', c) :: bump k rest
  end.

Definition countLabels (data : list TrainingData) : list (nat * nat) :=
  fold_left (fun acc d => bump (label d) acc) data [].

(** [counts[k]]; [None] is [undefined]. *)
Fixpoint getCount (counts : list (nat * nat)) (k : nat) : option nat :=
  match counts with
  | [] => None
  | (k', c) :: rest => if k =? k' then Some c else getCount rest k
  end.

(** [a > b] where either side may be [undefined] (then false). *)
Definition gt_count (a b : option nat) : bool :=
  match a, b with
  | Some x, Some y => y <? x
  | _, _ => false
  end.

(** [Object.entries(counts).reduce((a, b) => counts[parseInt(a)] >
    counts[parseInt(b[0])] ? a : b[0])].  No initial value is given, so the
    accumulator starts as the first entry itself and the callback is not
    run on it; the empty array throws. *)
Definition majorityClass (data : list TrainingData) : result jsval :=
  let counts := countLabels data in
  match counts with
  | [] => Throw ReduceOfEmptyArray
  | (k0, c0) :: rest =>
      Ok (fold_left
            (fun a b =>
               if gt_count (getCount counts (parseInt a)) (getCount counts (fst b))
               then a else VKey (fst b))
            rest (VEntry k0 c0))
  end.

Definition splitData (data : list TrainingData) (fi : nat) (th : option Q)
  : list TrainingData * list TrainingData :=
  (List.filter (fun s => le_num (features s !! fi) th) data,
   List.filter (fun s => negb (le_num (features s !! fi) th)) data).

Definition ratio (a b : nat) : Q := (inject_Z (Z.of_nat a) / inject_Z (Z.of_nat b))%Q.

Definition giniImpurity (data : list TrainingData) : Q :=
  if length data =? 0 then 0%Q
  else
    fold_left
      (fun gini kc =>
         let probability := ratio (snd kc) (length data) in
         (gini - probability * probability)%Q)
      (countLabels data) 1%Q.

Definition calculateGini (data : list TrainingData) (fi : nat) (th : option Q) : ext Q :=
  let (left_, right_) := splitData data fi th in
  if (length left_ =? 0) || (length right_ =? 0) then PosInf
  else
    Fin (ratio (length left_) (length data) * giniImpurity left_
         + ratio (length right_) (length data) * giniImpurity right_)%Q.

(** [g < best] *)
Definition lt_ext (g best : ext Q) : bool :=
  match g, best with
  | Fin x, Fin y => negb (Qle_bool y x)
  | Fin _, PosInf => true
  | _, _ => false
  end.

(** [values.sort((a, b) => a - b)]: the numbers in ascending order (the
    sort is stable), the [undefined] elements after them. *)
Fixpoint insertSorted (x : Q) (l : list Q) : list Q :=
  match l with
  | [] => [x]
  | y :: rest => if Qle_bool y x then y :: insertSorted x rest else x :: l
  end.

Definition sortNumbers (l : list Q) : list Q :=
  fold_left (fun acc x => insertSorted x acc) l [].

Definition sortValues (values : list (option Q)) : list (option Q) :=
  map Some (sortNumbers (omap (fun v => v) values))
  ++ List.filter (fun v => match v with None => true | Some _ => false end) values.

(** [(values[i] + values[i + 1]) / 2] for [i] from [0] to [length - 2] *)
Fixpoint midpoints (values : list (option Q)) : list (option Q) :=
  match values with
  | a :: (b :: _) as rest =>
      match a, b with
      | Some x, Some y => Some ((x + y) / 2)%Q
      | _, _ => None
      end :: midpoints rest
  | _ => []
  end.

Record split : Type := mkSplit {
  s_featureIndex : nat;
  s_threshold : option Q;
  s_gini : ext Q
}.

(** The body of the inner loop of [findBestSplit]. *)
Definition consider (data : list TrainingData) (fi : nat)
    (best : ext Q * option split) (th : option Q) : ext Q * option split :=
  let gini := calculateGini data fi th in
  if lt_ext gini (fst best) then (gini, Some (mkSplit fi th gini)) else best.

Definition findBestSplit (data : list TrainingData) : option split :=
  let numFeatures := match data with [] => 0 | d :: _ => length (features d) end in
  snd (fold_left
         (fun best fi =>
            fold_left (consider data fi)
              (midpoints (sortValues (map (fun d => features d !! fi) data)))
              best)
         (seq 0 numFeatures)
         (PosInf, None)).

(** The leaf branch of [train]: [isLeaf = true; prediction =
    majorityClass(data)]. *)
Definition makeLeaf (this : tree) (data : list TrainingData) : result tree :=
  match majorityClass data with
  | Ok p => Ok (mkTree (threshold this) (featureIndex this)
                  (leftChild this) (rightChild this) p true)
  | Throw e => Throw e
  end.

(** [train] recurses on strictly smaller sample lists (see
    [findBestSplit_sides] below); [fuel] bounds the recursion depth and
    [None] reports that it ran out. *)
Fixpoint train_fuel (fuel : nat) (this : tree) (data : list TrainingData)
    (maxDepth minSamples : Z) : option (result tree) :=
  if (maxDepth =? 0)%Z || (Z.of_nat (length data) <? minSamples)%Z || isPure data
  then Some (makeLeaf this data)
  else
    match findBestSplit data with
    | None => Some (makeLeaf this data)
    | Some bestSplit =>
        match fuel with
        | O => None
        | S fuel' =>
            let (left_, right_) :=
              splitData data (s_featureIndex bestSplit) (s_threshold bestSplit) in
            match train_fuel fuel' new left_ (maxDepth - 1) minSamples with
            | None => None
            | Some (Throw e) => Some (Throw e)
            | Some (Ok l) =>
                match train_fuel fuel' new right_ (maxDepth - 1) minSamples with
                | None => None
                | Some (Throw e) => Some (Throw e)
                | Some (Ok r) =>
                    Some (Ok (mkTree (s_threshold bestSplit) (s_featureIndex bestSplit)
                                (Some l) (Some r) (prediction this) (isLeaf this)))
                end
            end
        end
    end.

(** [this.train(data, maxDepth, minSamples)].  The sample count is enough
    fuel ([train_fuel_enough]), so the [Unreachable] case never arises. *)
Definition train (this : tree) (data : list TrainingData) (maxDepth minSamples : Z)
  : result tree :=
  match train_fuel (length data) this data maxDepth minSamples with
  | Some r => r
  | None => Throw Unreachable
  end.

(** [this.predict(features)]; [child!.predict] on a [null] child throws. *)
Fixpoint predict (this : tree) (fs : list Q) : result jsval :=
  if isLeaf this then Ok (prediction this)
  else if le_num (fs !! featureIndex this) (threshold this) then
    match leftChild this with
    | Some l => predict l fs
    | None => Throw NullDereference
    end
  else
    match rightChild this with
    | Some r => predict r fs
    | None => Throw NullDereference
    end.

End DecisionTree.

(** ** Random forest *)

(** [threatCount / numTrees] on two counts. *)
Definition divCounts (a b : nat) : ext Q :=
  if b =? 0 then (if a =? 0 then NaN else PosInf)
  else Fin (inject_Z (Z.of_nat a) / inject_Z (Z.of_nat b))%Q.

Definition mapExt {A B : Type} (f : A -> B) (x : ext A) : ext B :=
  match x with
  | Fin a => Fin (f a)
  | PosInf => PosInf
  | NaN => NaN
  end.

Fixpoint mapResult {A B : Type} (f : A -> result B) (l : list A) : result (list B) :=
  match l with
  | [] => Ok []
  | x :: rest =>
      match f x with
      | Throw e => Throw e
      | Ok y =>
          match mapResult f rest with
          | Throw e => Throw e
          | Ok ys => Ok (y :: ys)
          end
      end
  end.

Module RandomForest.

Record forest : Type := mkForest {
  trees : list DecisionTree.tree;
  numTrees : nat
}.

(** [new RandomForest(numTrees)] *)
Definition new (numTrees : nat) : forest := mkForest [] numTrees.

(** [bootstrap]: [data.length] draws with replacement.  An element is [None]
    if its index fell outside the array ([undefined]). *)
Fixpoint bootstrapLoop (n : nat) (data : list TrainingData)
    (acc : list (option TrainingData)) (g : rng) : list (option TrainingData) * rng :=
  match n with
  | O => (acc, g)
  | S n' =>
      let (i, g') := randomIndex (length data) g in
      bootstrapLoop n' data (acc ++ [data !! i]) g'
  end.

Definition bootstrap (data : list TrainingData) (g : rng)
  : list (option TrainingData) * rng :=
  bootstrapLoop (length data) data [] g.

(** [tree.train(bootstrapData)] with the default [maxDepth = 10] and
    [minSamples = 2].  Every path of [train] reads a property of each sample
    it is given, so an [undefined] sample throws. *)
Definition trainTree (bootstrapData : list (option TrainingData))
  : result DecisionTree.tree :=
  match mapM (fun x => x) bootstrapData with
  | Some data => DecisionTree.train DecisionTree.new data 10 2
  | None => Throw UndefinedProperty
  end.

(** The loop of [train]; it stops at the first tree whose training throws,
    leaving the trees pushed so far. *)
Fixpoint trainLoop (n : nat) (data : list TrainingData)
    (acc : list DecisionTree.tree) (g : rng)
  : list DecisionTree.tree * result unit * rng :=
  match n with
  | O => (acc, Ok tt, g)
  | S n' =>
      let (bootstrapData, g') := bootstrap data g in
      match trainTree bootstrapData with
      | Ok t => trainLoop n' data (acc ++ [t]) g'
      | Throw e => (acc, Throw e, g')
      end
  end.

Definition train (this : forest) (data : list TrainingData) (g : rng)
  : forest * result unit * rng :=
  let '(ts, r, g') := trainLoop (numTrees this) data [] g in
  (mkForest ts (numTrees this), r, g').

(** What [predict] returns: [{ prediction, confidence }]. *)
Record outcome : Type := mkPrediction {
  prediction : nat;
  confidence : ext Q
}.

Definition threatCount (predictions : list jsval) : nat :=
  length (List.filter strictEqualsOne predictions).

(** [Math.abs(threatCount / numTrees - 0.5) * 2] *)
Definition confidenceOf (threatCount numTrees : nat) : ext Q :=
  mapExt (fun x => Qabs (x - (1 # 2)) * 2)%Q (divCounts threatCount numTrees).

(** [threatCount > numTrees / 2 ? 1 : 0] *)
Definition voteOf (threatCount numTrees : nat) : nat :=
  if Qle_bool (inject_Z (Z.of_nat threatCount)) (inject_Z (Z.of_nat numTrees) / 2)%Q
  then 0 else 1.

Definition predict (this : forest) (fs : list Q) : result outcome :=
  match mapResult (fun t => DecisionTree.predict t fs) (trees this) with
  | Throw e => Throw e
  | Ok predictions =>
      Ok (mkPrediction (voteOf (threatCount predictions) (numTrees this))
            (confidenceOf (threatCount predictions) (numTrees this)))
  end.

End RandomForest.

(** ** Isolation tree *)

Module IsolationTree.

(** An external node keeps only its [size]; an internal node has both
    children, which the constructor assigns together. *)
Inductive tree : Type :=
| External (size : nat)
| Internal (size : nat) (splitFeature : nat) (splitValue : option Q) (left_ right_ : tree).

(** [Math.min(...values)] and [Math.max(...values)]: NaN ([None]) as soon as
    one value is [undefined]. *)
Fixpoint minOf (values : list (option Q)) (acc : Q) : option Q :=
  match values with
  | [] => Some acc
  | Some v :: rest => minOf rest (if Qle_bool v acc then v else acc)
  | None :: _ => None
  end.

Fixpoint maxOf (values : list (option Q)) (acc : Q) : option Q :=
  match values with
  | [] => Some acc
  | Some v :: rest => maxOf rest (if Qle_bool acc v then v else acc)
  | None :: _ => None
  end.

Definition mathMin (values : list (option Q)) : option Q :=
  match values with
  | Some v :: rest => minOf rest v
  | _ => None
  end.

Definition mathMax (values : list (option Q)) : option Q :=
  match values with
  | Some v :: rest => maxOf rest v
  | _ => None
  end.

(** [a === b] on two numbers: false when either is NaN. *)
Definition eq_num (a b : option Q) : bool :=
  match a, b with
  | Some x, Some y => Qeq_bool x y
  | _, _ => false
  end.

(** [a < b]; false when [a] is [undefined] or [b] is NaN. *)
Definition lt_num (a b : option Q) : bool :=
  match a, b with
  | Some x, Some y => negb (Qle_bool y x)
  | _, _ => false
  end.

(** The constructor, with [remaining = maxDepth - currentDepth]: the test
    [currentDepth >= maxDepth] is [remaining = 0], and the recursive calls
    pass [currentDepth + 1]. *)
Fixpoint build (remaining : nat) (data : list (list Q)) (g : rng) : tree * rng :=
  match remaining with
  | O => (External (length data), g)
  | S remaining' =>
      if length data <=? 1 then (External (length data), g)
      else
        let numFeatures := match data with [] => 0 | row :: _ => length row end in
        let (splitFeature, g1) := randomIndex numFeatures g in
        let featureValues := map (fun row : list Q => row !! splitFeature) data in
        let minVal := mathMin featureValues in
        let maxVal := mathMax featureValues in
        if eq_num minVal maxVal then (External (length data), g1)
        else
          let (r, g2) := random g1 in
          let splitValue :=
            match minVal, maxVal with
            | Some lo, Some hi => Some (r * (hi - lo) + lo)%Q
            | _, _ => None
            end in
          let leftData :=
            List.filter (fun row : list Q => lt_num (row !! splitFeature) splitValue) data in
          let rightData :=
            List.filter (fun row : list Q => negb (lt_num (row !! splitFeature) splitValue)) data in
          if (length leftData =? 0) || (length rightData =? 0)
          then (External (length data), g2)
          else
            let (l, g3) := build remaining' leftData g2 in
            let (r', g4) := build remaining' rightData g3 in
            (Internal (length data) splitFeature splitValue l r', g4)
  end.

(** [new IsolationTree(data, maxDepth, currentDepth)] *)
Definition new (data : list (list Q)) (maxDepth currentDepth : nat) (g : rng) : tree * rng :=
  build (maxDepth - currentDepth) data g.

Open Scope R_scope.

Definition averagePathLength (n : nat) : R :=
  if (n <=? 1)%nat then 0
  else 2 * (ln (INR n - 1) + 0.5772156649) - (2 * (INR n - 1) / INR n).

Fixpoint pathLength (this : tree) (point : list Q) (currentDepth : nat) : R :=
  match this with
  | External size => INR currentDepth + averagePathLength size
  | Internal _ splitFeature splitValue left_ right_ =>
      if lt_num (point !! splitFeature) splitValue
      then pathLength left_ point (currentDepth + 1)
      else pathLength right_ point (currentDepth + 1)
  end.

Close Scope R_scope.

End IsolationTree.

(** ** Isolation forest *)

Module IsolationForest.

Record forest : Type := mkForest {
  trees : list IsolationTree.tree;
  numTrees : nat;
  sampleSize : nat
}.

(** [new IsolationForest(numTrees, sampleSize)] *)
Definition new (numTrees sampleSize : nat) : forest := mkForest [] numTrees sampleSize.

(** What [predict] returns: [{ anomalyScore, isAnomaly }]. *)
Record outcome : Type := mkPrediction {
  anomalyScore : ext R;
  isAnomaly : bool
}.

Open Scope R_scope.

Definition averagePathLength (n : nat) : R :=
  if (n <=? 1)%nat then 0
  else 2 * (ln (INR n - 1) + 0.5772156649) - (2 * (INR n - 1) / INR n).

(** [pathLengths.reduce((sum, length) => sum + length, 0) /
    pathLengths.length]; [0 / 0] is NaN. *)
Definition mean (pathLengths : list R) : ext R :=
  match pathLengths with
  | [] => NaN
  | _ => Fin (fold_left Rplus pathLengths 0 / INR (length pathLengths))
  end.

(** [Math.pow(2, -averagePathLength / c)].  With [c = 0] the quotient is NaN
    for a zero mean, minus infinity for a positive one (the power is then
    [0]) and plus infinity for a negative one. *)
Definition scoreOf (averagePathLength : ext R) (c : R) : ext R :=
  match averagePathLength with
  | Fin a =>
      if Req_dec_T c 0 then
        if Req_dec_T a 0 then NaN
        else if Rlt_dec 0 a then Fin 0 else PosInf
      else Fin (Rpower 2 (- a / c))
  | PosInf => if Rlt_dec c 0 then PosInf else Fin 0
  | NaN => NaN
  end.

(** [x > c]; false on NaN. *)
Definition gt_ext (x : ext R) (c : R) : bool :=
  match x with
  | Fin a => if Rlt_dec c a then true else false
  | PosInf => true
  | NaN => false
  end.

Definition predict (this : forest) (point : list Q) : outcome :=
  let pathLengths := map (fun t => IsolationTree.pathLength t point 0) (trees this) in
  let c := averagePathLength (sampleSize this) in
  let anomalyScore := scoreOf (mean pathLengths) c in
  mkPrediction anomalyScore (gt_ext anomalyScore 0.6).

Close Scope R_scope.

Section Training.

(** [[...data].sort(() => 0.5 - Math.random())]: the comparator is not
    consistent, so the resulting order is left to the engine that runs the
    code; it is a parameter here. *)
Variable shuffle : list (list Q) -> rng -> list (list Q) * rng.

Definition sample (data : list (list Q)) (size : nat) (g : rng) : list (list Q) * rng :=
  let (shuffled, g') := shuffle data g in
  (firstn (Nat.min size (length data)) shuffled, g').

Fixpoint trainLoop (n : nat) (this : forest) (data : list (list Q)) (maxDepth : nat)
    (acc : list IsolationTree.tree) (g : rng) : list IsolationTree.tree * rng :=
  match n with
  | O => (acc, g)
  | S n' =>
      let (sampleData, g1) := sample data (sampleSize this) g in
      let (t, g2) := IsolationTree.new sampleData maxDepth 0 g1 in
      trainLoop n' this data maxDepth (acc ++ [t]) g2
  end.

(** [maxDepth = Math.ceil(Math.log2(sampleSize))].  For [sampleSize = 0] the
    code gets minus infinity, which like [0] makes every root external. *)
Definition train (this : forest) (data : list (list Q)) (g : rng) : forest * rng :=
  let maxDepth := Nat.log2_up (sampleSize this) in
  let (ts, g') := trainLoop (numTrees this) this data maxDepth [] g in
  (mkForest ts (numTrees this) (sampleSize this), g').

End Training.

End IsolationForest.

(** ** The ensemble engine *)

Inductive level : Type := low | medium | high | critical.

Inductive algorithmTag : Type := random_forest | isolation_forest | ensemble.

Inductive consoleMsg : Type :=
| ModelsTrained
| TrainingError (e : exn).

Module MLThreatDetection.

Record NetworkFeature : Type := mkNetworkFeature {
  timestamp : Z;
  requestCount : Q;
  failedRequests : Q;
  responseTime : Q;
  dataTransferred : Q;
  uniqueDomains : Q;
  httpErrors : Q;
  suspiciousPatterns : Q;
  memoryUsage : Q;
  cpuUsage : Q;
  clickRate : Q;
  navigationRate : Q
}.

(** The [networkData: any] argument: each counter is a number, or [None] when
    it is absent (or otherwise falsy, which [|| 0] treats alike). *)
Record RawMetrics : Type := mkRawMetrics {
  raw_requestCount : option Q;
  raw_failedRequests : option Q;
  raw_averageResponseTime : option Q;
  raw_totalDataTransferred : option Q;
  raw_uniqueDomains : option Q;
  raw_httpErrors : option Q;
  raw_suspiciousPatterns : option Q;
  raw_memoryUsage : option Q;
  raw_cpuUsage : option Q;
  raw_clickRate : option Q;
  raw_navigationRate : option Q
}.

Record ThreatPrediction : Type := mkThreatPrediction {
  isAnomaly : bool;
  threatScore : ext R;
  confidence : ext R;
  riskLevel : level;
  tp_features : list string;
  algorithm : algorithmTag
}.

Record engine : Type := mkEngine {
  randomForest : RandomForest.forest;
  isolationForest : IsolationForest.forest;
  trainingData : list TrainingData;
  featureHistory : list NetworkFeature;
  isTraining : bool;
  modelTrained : bool
}.

Record ModelStats : Type := mkModelStats {
  trainingDataSize : nat;
  stats_modelTrained : bool;
  featureHistorySize : nat;
  lastTrainingTime : option Z
}.

(** [Math.random() * scale + offset], over exact rationals.  The floating
    point result is this number rounded, so it lies between [offset] and
    [offset + scale] and can be equal to either; ranges of drawn values are
    therefore stated with both bounds included. *)
Definition draw (scale offset : Q) (g : rng) : Q * rng :=
  let (r, g') := random g in ((r * scale + offset)%Q, g').

Definition normalPattern (g : rng) : list Q * rng :=
  let (requestCount, g1) := draw 50 10 g in
  let (failedRequests, g2) := draw 5 0 g1 in
  let (responseTime, g3) := draw 200 50 g2 in
  let (dataTransferred, g4) := draw 1000 100 g3 in
  let (uniqueDomains, g5) := draw 10 1 g4 in
  let (httpErrors, g6) := draw 3 0 g5 in
  let (memoryUsage, g7) := draw 50 20 g6 in
  let (cpuUsage, g8) := draw 30 10 g7 in
  let (clickRate, g9) := draw 5 1 g8 in
  let (navigationRate, g10) := draw 3 (1 # 2) g9 in
  ([requestCount; failedRequests; responseTime; dataTransferred; uniqueDomains;
    httpErrors; 0%Q; memoryUsage; cpuUsage; clickRate; navigationRate], g10).

Definition threatPattern (g : rng) : list Q * rng :=
  let (requestCount, g1) := draw 200 100 g in
  let (failedRequests, g2) := draw 50 10 g1 in
  let (responseTime, g3) := draw 2000 500 g2 in
  let (dataTransferred, g4) := draw 5000 1000 g3 in
  let (uniqueDomains, g5) := draw 50 20 g4 in
  let (httpErrors, g6) := draw 20 5 g5 in
  let (suspiciousPatterns, g7) := draw 10 3 g6 in
  let (memoryUsage, g8) := draw 40 70 g7 in
  let (cpuUsage, g9) := draw 50 60 g8 in
  let (clickRate, g10) := draw 50 20 g9 in
  let (navigationRate, g11) := draw 20 10 g10 in
  ([requestCount; failedRequests; responseTime; dataTransferred; uniqueDomains;
    httpErrors; suspiciousPatterns; memoryUsage; cpuUsage; clickRate; navigationRate], g11).

Fixpoint generate (pattern : rng -> list Q * rng) (count : nat)
    (patterns : list (list Q)) (g : rng) : list (list Q) * rng :=
  match count with
  | O => (patterns, g)
  | S count' =>
      let (p, g') := pattern g in
      generate pattern count' (patterns ++ [p]) g'
  end.

Definition generateNormalTrafficPatterns (count : nat) (g : rng) : list (list Q) * rng :=
  generate normalPattern count [] g.

Definition generateThreatPatterns (count : nat) (g : rng) : list (list Q) * rng :=
  generate threatPattern count [] g.

(** [x || 0] *)
Definition orZero (x : option Q) : Q := default 0%Q x.

(** [extractFeatures]; the [recentHistory] it computes is not used. *)
Definition extractFeatures (this : engine) (networkData : RawMetrics) (now : Z)
  : NetworkFeature :=
  mkNetworkFeature now
    (orZero (raw_requestCount networkData))
    (orZero (raw_failedRequests networkData))
    (orZero (raw_averageResponseTime networkData))
    (orZero (raw_totalDataTransferred networkData))
    (orZero (raw_uniqueDomains networkData))
    (orZero (raw_httpErrors networkData))
    (orZero (raw_suspiciousPatterns networkData))
    (orZero (raw_memoryUsage networkData))
    (orZero (raw_cpuUsage networkData))
    (orZero (raw_clickRate networkData))
    (orZero (raw_navigationRate networkData)).

Definition featureVector (f : NetworkFeature) : list Q :=
  [requestCount f; failedRequests f; responseTime f; dataTransferred f;
   uniqueDomains f; httpErrors f; suspiciousPatterns f; memoryUsage f;
   cpuUsage f; clickRate f; navigationRate f].

(** [x > c] on two finite numbers *)
Definition gtQ (x c : Q) : bool := negb (Qle_bool x c).

Definition contributing (f : NetworkFeature) : list string :=
  (if gtQ (failedRequests f) 10 then ["High failed requests"%string] else [])
  ++ (if gtQ (requestCount f) 100 then ["Excessive request volume"%string] else [])
  ++ (if gtQ (responseTime f) 1000 then ["Slow response times"%string] else [])
  ++ (if gtQ (suspiciousPatterns f) 5 then ["Suspicious patterns detected"%string] else [])
  ++ (if gtQ (memoryUsage f) 80 then ["High memory usage"%string] else [])
  ++ (if gtQ (clickRate f) 20 then ["Abnormal click patterns"%string] else []).

Definition neutral : ThreatPrediction :=
  mkThreatPrediction false (Fin 0%R) (Fin 0%R) low [] ensemble.

(** [rfResult.prediction * 0.6 + ifResult.anomalyScore * 0.4] *)
Definition fuseScore (rfVote : nat) (score : ext R) : ext R :=
  mapExt (fun s => INR rfVote * 0.6 + s * 0.4)%R score.

(** [(rfResult.confidence + (ifResult.anomalyScore > 0.6 ? 1 : 0)) / 2] *)
Definition fuseConfidence (rfConfidence : ext Q) (score : ext R) : ext R :=
  mapExt (fun c => (Q2R c + (if IsolationForest.gt_ext score 0.6 then 1 else 0)) / 2)%R
    rfConfidence.

Definition riskOf (threatScore : ext R) : level :=
  if IsolationForest.gt_ext threatScore 0.8 then critical
  else if IsolationForest.gt_ext threatScore 0.6 then high
  else if IsolationForest.gt_ext threatScore 0.4 then medium
  else low.

(** [detectThreats]; [now] is what [Date.now()] reads during the call.  The
    engine is returned with its updated feature history. *)
Definition detectThreats (this : engine) (networkData : RawMetrics) (now : Z)
  : engine * result ThreatPrediction :=
  if negb (modelTrained this) then (this, Ok neutral)
  else
    let features := extractFeatures this networkData now in
    let history :=
      List.filter (fun f => (now - timestamp f <? 300000)%Z)
        (featureHistory this ++ [features]) in
    let this' :=
      mkEngine (randomForest this) (isolationForest this) (trainingData this)
        history (isTraining this) (modelTrained this) in
    let vector := featureVector features in
    match RandomForest.predict (randomForest this) vector with
    | Throw e => (this', Throw e)
    | Ok rfResult =>
        let ifResult := IsolationForest.predict (isolationForest this) vector in
        let threatScore :=
          fuseScore (RandomForest.prediction rfResult) (IsolationForest.anomalyScore ifResult) in
        let confidence :=
          fuseConfidence (RandomForest.confidence rfResult)
            (IsolationForest.anomalyScore ifResult) in
        let isAnomaly :=
          (RandomForest.prediction rfResult =? 1) || IsolationForest.isAnomaly ifResult in
        (this', Ok (mkThreatPrediction isAnomaly threatScore confidence
                      (riskOf threatScore) (contributing features) ensemble))
    end.

(** [getModelStats]; [now] is what [new Date()] reads. *)
Definition getModelStats (this : engine) (now : Z) : engine * ModelStats :=
  (this,
   mkModelStats (length (trainingData this)) (modelTrained this)
     (length (featureHistory this))
     (if modelTrained this then Some now else None)).

Section Training.

Variable shuffle : list (list Q) -> rng -> list (list Q) * rng.

(** [trainModels]: its body has no [await], so it runs to completion within
    the call; the messages are what it writes to the console. *)
Definition trainModels (this : engine) (g : rng) : engine * list consoleMsg * rng :=
  if isTraining this then (this, [], g)
  else
    let '(rf, r, g1) := RandomForest.train (randomForest this) (trainingData this) g in
    match r with
    | Throw e =>
        (mkEngine rf (isolationForest this) (trainingData this) (featureHistory this)
           false (modelTrained this),
         [TrainingError e], g1)
    | Ok _ =>
        let (iforest, g2) :=
          IsolationForest.train shuffle (isolationForest this)
            (map features (trainingData this)) g1 in
        (mkEngine rf iforest (trainingData this) (featureHistory this) false true,
         [ModelsTrained], g2)
    end.

(** [new MLThreatDetection()] *)
Definition new (g : rng) : engine * list consoleMsg * rng :=
  let (normalPatterns, g1) := generateNormalTrafficPatterns 200 g in
  let (threatPatterns, g2) := generateThreatPatterns 50 g1 in
  trainModels
    (mkEngine (RandomForest.new 50) (IsolationForest.new 50 128)
       (map (fun fs => mkTrainingData fs 0) normalPatterns
        ++ map (fun fs => mkTrainingData fs 1) threatPatterns)
       [] false false)
    g2.

(** [this.trainingData.slice(-800)] *)
Definition lastEntries (n : nat) (l : list TrainingData) : list TrainingData :=
  skipn (length l - n) l.

Definition retrainWithFeedback (this : engine) (f : NetworkFeature) (isThreat : bool)
    (g : rng) : engine * list consoleMsg * rng :=
  let pushed :=
    trainingData this ++ [mkTrainingData (featureVector f) (if isThreat then 1 else 0)] in
  let kept := if 1000 <? length pushed then lastEntries 800 pushed else pushed in
  let this' :=
    mkEngine (randomForest this) (isolationForest this) kept (featureHistory this)
      (isTraining this) (modelTrained this) in
  if length kept mod 50 =? 0 then trainModels this' g else (this', [], g).

End Training.

End MLThreatDetection.

(** ** Request rules of the security monitor *)

Inductive eventType : Type :=
| suspicious_request
| failed_auth
| unusual_activity
| resource_abuse.

Module SecurityMonitor.

(** What the rule that fired puts in [details], next to the [url]. *)
Inductive eventDetails : Type :=
| RequestVolume (requestCount : nat)
| FailedRequests (failedCount : nat) (status : Z)
| SlowResponse (responseTime : Q).

(** A [SecurityEvent] as the rules make it.  Its [id], [timestamp] and
    [mlPrediction] are added by [createSecurityEvent] and do not decide
    whether an event is made; they are left out. *)
Record SecurityEvent : Type := mkSecurityEvent {
  type : eventType;
  severity : level;
  source : string;
  url : string;
  details : eventDetails
}.

Record metrics : Type := mkMetrics {
  requestCount : nat;
  failedRequests : nat;
  totalResponseTime : Q;
  uniqueDomains : gset string;
  httpErrors : nat;
  suspiciousPatterns : nat
}.

Record monitor : Type := mkMonitor {
  events : list SecurityEvent;
  failedAttempts : gmap string nat;
  requestCounts : gmap string nat;
  networkMetrics : metrics
}.

(** [new SecurityMonitor()], as far as the request rules see it. *)
Definition new : monitor :=
  mkMonitor [] ∅ ∅ (mkMetrics 0 0 0%Q ∅ 0 0).

Definition bumpSuspicious (m : metrics) : metrics :=
  mkMetrics (requestCount m) (failedRequests m) (totalResponseTime m)
    (uniqueDomains m) (httpErrors m) (S (suspiciousPatterns m)).

(** [this.networkMetrics.suspiciousPatterns++; this.createSecurityEvent(e)]:
    the event is pushed, the buffer keeps its last 100 entries, and the event
    is handed to the listeners (the second component). *)
Definition createSecurityEvent (this : monitor) (e : SecurityEvent)
    (published : list SecurityEvent) : monitor * list SecurityEvent :=
  let pushed := events this ++ [e] in
  (mkMonitor (if 100 <? length pushed then tail pushed else pushed)
     (failedAttempts this) (requestCounts this) (bumpSuspicious (networkMetrics this)),
   published ++ [e]).

Section Requests.

(** [new URL(url, window.location.origin).hostname] *)
Variable hostname : string -> string.

Definition analyzeRequest (this : monitor) (url : string) (status : Z) (responseTime : Q)
  : monitor * list SecurityEvent :=
  let domain := hostname url in
  let m := networkMetrics this in
  let failed := (400 <=? status)%Z in
  let m1 :=
    mkMetrics (S (requestCount m))
      (if failed then S (failedRequests m) else failedRequests m)
      (totalResponseTime m + responseTime)%Q
      ({[domain]} ∪ uniqueDomains m)
      (if failed then S (httpErrors m) else httpErrors m)
      (suspiciousPatterns m) in
  let currentCount := default 0 (requestCounts this !! domain) in
  let s1 :=
    mkMonitor (events this) (failedAttempts this)
      (<[domain := currentCount + 1]> (requestCounts this)) m1 in
  let (s2, out2) :=
    if 100 <? currentCount
    then createSecurityEvent s1
           (mkSecurityEvent resource_abuse medium domain url (RequestVolume currentCount)) []
    else (s1, []) in
  let (s3, out3) :=
    if (400 <=? status)%Z && (status <? 500)%Z then
      let failedCount := default 0 (failedAttempts s2 !! domain) in
      let s2' :=
        mkMonitor (events s2) (<[domain := failedCount + 1]> (failedAttempts s2))
          (requestCounts s2) (networkMetrics s2) in
      if 5 <? failedCount
      then createSecurityEvent s2'
             (mkSecurityEvent failed_auth high domain url (FailedRequests failedCount status))
             out2
      else (s2', out2)
    else (s2, out2) in
  if Qle_bool responseTime 10000 then (s3, out3)
  else createSecurityEvent s3
         (mkSecurityEvent unusual_activity low domain url (SlowResponse responseTime)) out3.

(** A run of requests, in order, collecting what is published. *)
Fixpoint analyzeRequests (this : monitor) (requests : list (string * Z * Q))
  : monitor * list SecurityEvent :=
  match requests with
  | [] => (this, [])
  | (url, status, responseTime) :: rest =>
      let (s1, out1) := analyzeRequest this url status responseTime in
      let (s2, out2) := analyzeRequests s1 rest in
      (s2, out1 ++ out2)
  end.

End Requests.

(** [getSecurityEvents]: a reversed copy of the buffer, most recent first. *)
Definition getSecurityEvents (this : monitor) : list SecurityEvent :=
  rev (events this).

(** [resetMetrics]: [networkMetrics] is replaced by a fresh object; nothing
    else is assigned. *)
Definition resetMetrics (this : monitor) : monitor :=
  mkMonitor (events this) (failedAttempts this) (requestCounts this)
    (mkMetrics 0 0 0%Q ∅ 0 0).

End SecurityMonitor.

(** ** Connection quality *)

Module NetworkMonitor.

Record NetworkStats : Type := mkNetworkStats {
  rtt : Q;
  downlink : Q;
  effectiveType : string;
  saveData : bool
}.

(** [navigator.connection] as the code reads it: each property is a value
    or absent ([None]; a NaN number counts as absent, [||] treats both
    alike). *)
Record Connection : Type := mkConnection {
  conn_rtt : option Q;
  conn_downlink : option Q;
  conn_effectiveType : option string;
  conn_saveData : option bool
}.

(** [getConnectionInfo]; the empty string is falsy, so it too becomes
    ['unknown']. *)
Definition getConnectionInfo (connection : option Connection) : NetworkStats :=
  match connection with
  | Some c =>
      mkNetworkStats (default 0%Q (conn_rtt c)) (default 0%Q (conn_downlink c))
        (match conn_effectiveType c with
         | Some t => if String.eqb t "" then "unknown"%string else t
         | None => "unknown"%string
         end)
        (default false (conn_saveData c))
  | None => mkNetworkStats 0 0 "unknown" false
  end.

Record Quality : Type := mkQuality {
  score : Z;
  issues : list string
}.

(** [a > b] and [a < b] on two finite numbers *)
Definition gt_num (a b : Q) : bool := negb (Qle_bool a b).

Definition lt_num (a b : Q) : bool := negb (Qle_bool b a).

Definition isTwoG (t : string) : bool := String.eqb t "2g" || String.eqb t "slow-2g".

(** [getNetworkQuality]: [issues] and [score] are updated by one test after
    the other. *)
Definition getNetworkQuality (connection : option Connection) : Quality :=
  let stats := getConnectionInfo connection in
  let '(issues0, score0) := ([] : list string, 100%Z) in
  let '(issues1, score1) :=
    if gt_num (rtt stats) 100
    then (issues0 ++ ["High latency"%string], (score0 - 20)%Z) else (issues0, score0) in
  let '(issues2, score2) :=
    if lt_num (downlink stats) 5
    then (issues1 ++ ["Low bandwidth"%string], (score1 - 30)%Z) else (issues1, score1) in
  let '(issues3, score3) :=
    if isTwoG (effectiveType stats)
    then (issues2 ++ ["Poor connection quality"%string], (score2 - 40)%Z)
    else (issues2, score2) in
  mkQuality (Z.max 0 score3) issues3.

(** [detectNetworkIssues] *)
Definition detectNetworkIssues (connection : option Connection) : list string :=
  let stats := getConnectionInfo connection in
  (if gt_num (rtt stats) 200 then ["High latency detected (>200ms)"%string] else [])
  ++ (if lt_num (downlink stats) 1
      then ["Slow connection detected (<1 Mbps)"%string] else [])
  ++ (if isTwoG (effectiveType stats)
      then ["Very slow connection type detected"%string] else [])
  ++ (if saveData stats then ["Data saver mode is enabled"%string] else []).

Record PingResult : Type := mkPingResult {
  host : string;
  success : bool;
  responseTime : Z;
  timestamp : Z;
  error : option string
}.

(** How the [fetch] of [pingHost] ended: it resolved, or it threw (also on
    the abort at the timeout) a value with the given message; a thrown value
    that is no [Error] has none. *)
Inductive fetchOutcome : Type :=
| Resolved
| Rejected (message : option string).

(** [pingHost(host)], given how the fetch ended, the rounded time it took and
    what [new Date()] reads; [pingResults] is the map of histories.  Only the
    branch of a successful ping shortens a history of more than 50 results,
    and by one result. *)
Definition pingHost (pingResults : gmap string (list PingResult)) (host : string)
    (outcome : fetchOutcome) (responseTime now : Z)
  : gmap string (list PingResult) * PingResult :=
  let hostResults := default [] (pingResults !! host) in
  match outcome with
  | Resolved =>
      let result := mkPingResult host true responseTime now None in
      let pushed := hostResults ++ [result] in
      (<[host := if 50 <? length pushed then tail pushed else pushed]> pingResults,
       result)
  | Rejected message =>
      let result :=
        mkPingResult host false responseTime now
          (Some (default "Unknown error"%string message)) in
      (<[host := hostResults ++ [result]]> pingResults, result)
  end.

(** [getPingHistory(host)] *)
Definition getPingHistory (pingResults : gmap string (list PingResult)) (host : string)
  : list PingResult :=
  default [] (pingResults !! host).

End NetworkMonitor.

(** ** The real-time monitor's readings *)

Module RealTimeMonitor.

Definition isCritical (l : level) : bool :=
  match l with critical => true | _ => false end.

Definition isHigh (l : level) : bool :=
  match l with high => true | _ => false end.

(** The threat level of [collectAndBroadcastData].  An event comes with the
    time of its [timestamp], in milliseconds; [now] is what [Date.now()]
    reads. *)
Definition threatLevel (securityEvents : list (SecurityMonitor.SecurityEvent * Z))
    (now : Z) : level :=
  let recentEvents :=
    List.filter (fun e => (now - snd e <? 300000)%Z) securityEvents in
  let criticalEvents :=
    length (List.filter (fun e => isCritical (SecurityMonitor.severity (fst e)))
              recentEvents) in
  let highEvents :=
    length (List.filter (fun e => isHigh (SecurityMonitor.severity (fst e)))
              recentEvents) in
  if 0 <? criticalEvents then critical
  else if 2 <? highEvents then high
  else if 5 <? length recentEvents then medium
  else low.

Inductive networkStatus : Type := connected | disconnected.

Inductive securityStatus : Type := secure | at_risk.

Inductive performanceStatus : Type := good | fair | poor.

Record SystemStatus : Type := mkSystemStatus {
  network_status : networkStatus;
  network_quality : Z;
  network_issues : list string;
  security_status : securityStatus;
  security_criticalEvents : nat;
  security_totalEvents : nat;
  performance_status : performanceStatus
}.

(** [getSystemStatus], from what [getConnectionInfo], [getSecurityEvents] and
    [getNetworkQuality] return. *)
Definition getSystemStatus (connection : option NetworkMonitor.Connection)
    (securityEvents : list (SecurityMonitor.SecurityEvent * Z)) (now : Z)
  : SystemStatus :=
  let networkStats := NetworkMonitor.getConnectionInfo connection in
  let networkQuality := NetworkMonitor.getNetworkQuality connection in
  let recentCriticalEvents :=
    length
      (List.filter
         (fun e => isCritical (SecurityMonitor.severity (fst e))
                   && (now - snd e <? 3600000)%Z)
         securityEvents) in
  mkSystemStatus
    (if NetworkMonitor.gt_num (NetworkMonitor.downlink networkStats) 0
     then connected else disconnected)
    (NetworkMonitor.score networkQuality)
    (NetworkMonitor.issues networkQuality)
    (if recentCriticalEvents =? 0 then secure else at_risk)
    recentCriticalEvents
    (length securityEvents)
    (if (70 <? NetworkMonitor.score networkQuality)%Z then good
     else if (40 <? NetworkMonitor.score networkQuality)%Z then fair
     else poor).

End RealTimeMonitor.

(** * Predicates of the statements *)

(** [v] is a JavaScript number. *)
Definition isNumber (v : jsval) : bool :=
  match v with
  | VNum _ => true
  | _ => false
  end.

(** What the loops of [findBestSplit] maintain: a recorded split has a finite
    cost. *)
Definition finiteCost (data : list TrainingData) (best : ext Q * option DecisionTree.split) : Prop :=
  forall s, best.2 = Some s ->
    exists q, DecisionTree.calculateGini data (DecisionTree.s_featureIndex s) (DecisionTree.s_threshold s) = Fin q.

(** [grown t data]: [t] is a tree as [train] makes it from the samples [data].
    A leaf holds the majority value of a non-empty sample list; an internal
    node has both children, each grown from a non-empty side of the split the
    node records. *)
Inductive grown : DecisionTree.tree -> list TrainingData -> Prop :=
| grown_leaf t data :
    data <> [] ->
    DecisionTree.isLeaf t = true ->
    DecisionTree.majorityClass data = Ok (DecisionTree.prediction t) ->
    grown t data
| grown_node t data l r :
    DecisionTree.isLeaf t = false ->
    DecisionTree.leftChild t = Some l ->
    DecisionTree.rightChild t = Some r ->
    (DecisionTree.splitData data (DecisionTree.featureIndex t) (DecisionTree.threshold t)).1 <> [] ->
    (DecisionTree.splitData data (DecisionTree.featureIndex t) (DecisionTree.threshold t)).2 <> [] ->
    grown l (DecisionTree.splitData data (DecisionTree.featureIndex t) (DecisionTree.threshold t)).1 ->
    grown r (DecisionTree.splitData data (DecisionTree.featureIndex t) (DecisionTree.threshold t)).2 ->
    grown t data.

(** [complete t]: following [predict] down [t] never meets a [null] child. *)
Fixpoint complete (t : DecisionTree.tree) : bool :=
  DecisionTree.isLeaf t
  || match DecisionTree.leftChild t, DecisionTree.rightChild t with
     | Some l, Some r => complete l && complete r
     | _, _ => false
     end.

(** A tree that [train] made from some non-empty sample list. *)
Definition trainedTree (t : DecisionTree.tree) : Prop :=
  exists data, grown t data.

(** A finite number of the interval (0, 1]. *)
Definition inHalfOpenUnit (x : ext R) : Prop :=
  match x with
  | Fin r => (0 < r <= 1)%R
  | _ => False
  end.

(** A finite number of the interval [0, 1]. *)
Definition inUnit (x : ext R) : Prop :=
  match x with
  | Fin r => (0 <= r <= 1)%R
  | _ => False
  end.

(** The mean of the path lengths of [point] over the trees, as a real. *)
Definition meanPathLength (ts : list IsolationTree.tree) (point : list Q) : R :=
  (fold_left Rplus (map (fun t => IsolationTree.pathLength t point 0) ts) 0
   / INR (length ts))%R.

(** The forests of an engine can answer: the random forest has as many trees
    as it was built for, at least one, none with a missing child; the
    isolation forest has a tree and samples more than one point. *)
Definition forestsReady (s : MLThreatDetection.engine) : bool :=
  let rf := MLThreatDetection.randomForest s in
  let iforest := MLThreatDetection.isolationForest s in
  (0 <? RandomForest.numTrees rf)
  && (length (RandomForest.trees rf) =? RandomForest.numTrees rf)
  && forallb complete (RandomForest.trees rf)
  && (0 <? length (IsolationForest.trees iforest))
  && (1 <? IsolationForest.sampleSize iforest).

(** What holds of the engine between two calls, from its construction on. *)
Record consistent (s : MLThreatDetection.engine) : Prop := mkConsistent {
  cons_idle : MLThreatDetection.isTraining s = false;
  cons_trained : MLThreatDetection.modelTrained s = true;
  cons_data : MLThreatDetection.trainingData s <> [];
  cons_rf_size : RandomForest.numTrees (MLThreatDetection.randomForest s) = 50;
  cons_rf_trees : length (RandomForest.trees (MLThreatDetection.randomForest s)) = 50;
  cons_rf_trained : Forall trainedTree (RandomForest.trees (MLThreatDetection.randomForest s));
  cons_if_size : IsolationForest.numTrees (MLThreatDetection.isolationForest s) = 50;
  cons_if_sample : IsolationForest.sampleSize (MLThreatDetection.isolationForest s) = 128;
  cons_if_trees : length (IsolationForest.trees (MLThreatDetection.isolationForest s)) = 50
}.

(** A run of feedback calls, in order, collecting the console messages. *)
Fixpoint feedbackRun (shuffle : list (list Q) -> rng -> list (list Q) * rng)
    (s : MLThreatDetection.engine)
    (calls : list (MLThreatDetection.NetworkFeature * bool)) (g : rng)
  : MLThreatDetection.engine * list consoleMsg * rng :=
  match calls with
  | [] => (s, [], g)
  | (f, isThreat) :: rest =>
      let '(s1, msgs1, g1) := MLThreatDetection.retrainWithFeedback shuffle s f isThreat g in
      let '(s2, msgs2, g2) := feedbackRun shuffle s1 rest g1 in
      (s2, msgs1 ++ msgs2, g2)
  end.

(** The states the engine passes through: built by the constructor, then
    changed only by its public methods. *)
Inductive reachable (shuffle : list (list Q) -> rng -> list (list Q) * rng)
  : MLThreatDetection.engine -> Prop :=
| reach_new g :
    reachable shuffle (MLThreatDetection.new shuffle g).1.1
| reach_detectThreats s networkData now :
    reachable shuffle s ->
    reachable shuffle (MLThreatDetection.detectThreats s networkData now).1
| reach_retrainWithFeedback s f isThreat g :
    reachable shuffle s ->
    reachable shuffle (MLThreatDetection.retrainWithFeedback shuffle s f isThreat g).1.1
| reach_getModelStats s now :
    reachable shuffle s ->
    reachable shuffle (MLThreatDetection.getModelStats s now).1.

(** The event of the request-volume rule, as the code fills it. *)
Definition volumeEvent (hostname : string -> string) (url : string) (currentCount : nat)
  : SecurityMonitor.SecurityEvent :=
  SecurityMonitor.mkSecurityEvent resource_abuse medium (hostname url) url
    (SecurityMonitor.RequestVolume currentCount).

(** ** Sample inputs *)

Definition sampleRaw : MLThreatDetection.RawMetrics :=
  MLThreatDetection.mkRawMetrics (Some 250%Q) (Some 40%Q) (Some 1800%Q) (Some 4000%Q)
    (Some 45%Q) (Some 15%Q) (Some 8%Q) (Some 85%Q) (Some 90%Q) (Some 35%Q) None.

Definition sampleFeature : MLThreatDetection.NetworkFeature :=
  MLThreatDetection.mkNetworkFeature 0 250 40 1800 4000 45 15 8 85 90 35 18.

(** An engine that has not been trained. *)
Definition untrainedEngine : MLThreatDetection.engine :=
  MLThreatDetection.mkEngine (RandomForest.new 50) (IsolationForest.new 50 128)
    [mkTrainingData [1%Q] 0] [] false false.

(** A trained engine whose decision tree is a leaf that votes with the number
    1 and whose isolation tree is a single external node. *)
Definition votingEngine : MLThreatDetection.engine :=
  MLThreatDetection.mkEngine
    (RandomForest.mkForest
       [DecisionTree.mkTree (Some 0%Q) 0 None None (VNum 1) true] 1)
    (IsolationForest.mkForest [IsolationTree.External 1] 1 2)
    [mkTrainingData [1%Q] 1] [] false true.

(** The engine sort taken as the identity, and a constant stream of draws. *)
Definition noShuffle (data : list (list Q)) (g : rng) : list (list Q) * rng := (data, g).

Definition zeroDraws : rng := fun _ => 0%Q.

(** Two draws of 0, then draws of 1/2. *)
Definition halfDraws : rng := fun n => if n <? 2 then 0%Q else (1 # 2)%Q.

(** ** Measures used in the further properties *)

(** How many samples of [data] carry the label [l]. *)
Definition occurrences (l : nat) (data : list TrainingData) : nat :=
  length (List.filter (fun s => label s =? l) data).

(** The keys of [counts] stay in strictly ascending order. *)
Definition ascending (counts : list (nat * nat)) : Prop :=
  StronglySorted lt (map fst counts).

Fixpoint sumQ (l : list Q) : Q :=
  match l with
  | [] => 0%Q
  | x :: rest => (x + sumQ rest)%Q
  end.

(** The number of splits on the longest path from the root of a decision
    tree to a leaf, and the number of its leaves. *)
Fixpoint treeDepth (t : DecisionTree.tree) : nat :=
  if DecisionTree.isLeaf t then 0
  else
    S (Nat.max
         (match DecisionTree.leftChild t with Some l => treeDepth l | None => 0 end)
         (match DecisionTree.rightChild t with Some r => treeDepth r | None => 0 end)).

Fixpoint leafCount (t : DecisionTree.tree) : nat :=
  if DecisionTree.isLeaf t then 1
  else
    (match DecisionTree.leftChild t with Some l => leafCount l | None => 0 end)
    + (match DecisionTree.rightChild t with Some r => leafCount r | None => 0 end).

(** The [size] field of an isolation-tree node. *)
Definition sizeOf (t : IsolationTree.tree) : nat :=
  match t with
  | IsolationTree.External size => size
  | IsolationTree.Internal size _ _ _ _ => size
  end.

(** The longest chain of internal nodes below the root. *)
Fixpoint heightOf (t : IsolationTree.tree) : nat :=
  match t with
  | IsolationTree.External _ => 0
  | IsolationTree.Internal _ _ _ l r => S (Nat.max (heightOf l) (heightOf r))
  end.

(** Every internal node passes each of its rows to exactly one child, and at
    least one row to each. *)
Fixpoint wellSplit (t : IsolationTree.tree) : Prop :=
  match t with
  | IsolationTree.External _ => True
  | IsolationTree.Internal size _ _ l r =>
      size = sizeOf l + sizeOf r
      /\ 0 < sizeOf l /\ 0 < sizeOf r
      /\ wellSplit l /\ wellSplit r
  end.

(** [lo <= x <= hi] *)
Definition between (lo hi x : Q) : Prop := (lo <= x /\ x <= hi)%Q.

(** The label of [d] is an array index when used as an object key. *)
Definition arrayIndexLabel (d : TrainingData) : Prop :=
  (Z.of_nat (label d) < 4294967295)%Z.

(** The ranges of the eleven features of a synthetic normal pattern. *)
Definition normalRow (p : list Q) : Prop :=
  match p with
  | [requestCount; failedRequests; responseTime; dataTransferred; uniqueDomains;
     httpErrors; suspiciousPatterns; memoryUsage; cpuUsage; clickRate; navigationRate] =>
      between 10 60 requestCount
      /\ between 0 5 failedRequests
      /\ between 50 250 responseTime
      /\ between 100 1100 dataTransferred
      /\ between 1 11 uniqueDomains
      /\ between 0 3 httpErrors
      /\ suspiciousPatterns = 0%Q
      /\ between 20 70 memoryUsage
      /\ between 10 40 cpuUsage
      /\ between 1 6 clickRate
      /\ between (1 # 2) (7 # 2) navigationRate
  | _ => False
  end.

(** The ranges of the eleven features of a synthetic threat pattern. *)
Definition threatRow (p : list Q) : Prop :=
  match p with
  | [requestCount; failedRequests; responseTime; dataTransferred; uniqueDomains;
     httpErrors; suspiciousPatterns; memoryUsage; cpuUsage; clickRate; navigationRate] =>
      between 100 300 requestCount
      /\ between 10 60 failedRequests
      /\ between 500 2500 responseTime
      /\ between 1000 6000 dataTransferred
      /\ between 20 70 uniqueDomains
      /\ between 5 25 httpErrors
      /\ between 3 13 suspiciousPatterns
      /\ between 70 110 memoryUsage
      /\ between 60 110 cpuUsage
      /\ between 20 70 clickRate
      /\ between 10 30 navigationRate
  | _ => False
  end.

(** A training sample as the engine stores it: eleven features and the label
    0 or 1. *)
Definition engineSample (d : TrainingData) : Prop :=
  length (features d) = 11 /\ (label d = 0 \/ label d = 1).

(** The last [n] entries of a list. *)
Definition lastN {A : Type} (n : nat) (l : list A) : list A :=
  skipn (length l - n) l.

(** The events of the failed-request rule and of the slow-response rule, as
    the code fills them. *)
Definition failedEvent (hostname : string -> string) (url : string) (status : Z)
    (failedCount : nat) : SecurityMonitor.SecurityEvent :=
  SecurityMonitor.mkSecurityEvent failed_auth high (hostname url) url
    (SecurityMonitor.FailedRequests failedCount status).

Definition slowEvent (hostname : string -> string) (url : string) (responseTime : Q)
  : SecurityMonitor.SecurityEvent :=
  SecurityMonitor.mkSecurityEvent unusual_activity low (hostname url) url
    (SecurityMonitor.SlowResponse responseTime).

(** What one call of [analyzeRequest] publishes, given the two counts it
    reads for the domain: the events of the rules that fire, in the order of
    the code. *)
Definition ruleEvents (hostname : string -> string) (url : string) (status : Z)
    (responseTime : Q) (currentCount failedCount : nat)
  : list SecurityMonitor.SecurityEvent :=
  (if 100 <? currentCount then [volumeEvent hostname url currentCount] else [])
  ++ (if (400 <=? status)%Z && (status <? 500)%Z && (5 <? failedCount)
      then [failedEvent hostname url status failedCount] else [])
  ++ (if Qle_bool responseTime 10000 then [] else [slowEvent hostname url responseTime]).

(** [events.push(e)] followed by the [shift] above 100 entries. *)
Definition pushCapped (events : list SecurityMonitor.SecurityEvent)
    (e : SecurityMonitor.SecurityEvent) : list SecurityMonitor.SecurityEvent :=
  if 100 <? length (events ++ [e]) then tail (events ++ [e]) else events ++ [e].

(** The requests of a run that were answered with a status of 400 or more. *)
Definition failing (requests : list (string * Z * Q)) : list (string * Z * Q) :=
  List.filter (fun r => (400 <=? snd (fst r))%Z) requests.

(** A run of pings of one host, in order, from the given histories; each
    ping is given by its outcome, the time it took and the time it ended. *)
Fixpoint pingRun (pingResults : gmap string (list NetworkMonitor.PingResult))
    (host : string) (pings : list (NetworkMonitor.fetchOutcome * Z * Z))
  : gmap string (list NetworkMonitor.PingResult) :=
  match pings with
  | [] => pingResults
  | (outcome, responseTime, now) :: rest =>
      pingRun (NetworkMonitor.pingHost pingResults host outcome responseTime now).1
        host rest
  end.

Definition resolved (ping : NetworkMonitor.fetchOutcome * Z * Z) : bool :=
  match fst (fst ping) with
  | NetworkMonitor.Resolved => true
  | NetworkMonitor.Rejected _ => false
  end.

(** * Properties *)

(** ** Decision tree: label counts and the majority value *)

Section DecisionTreeFacts.

Import DecisionTree.

Lemma bump_nonempty k counts : bump k counts <> [].
Proof.
  destruct counts as [|[k' c] rest]; simpl; [discriminate|].
  destruct (k =? k'); [discriminate|].
  destruct (k <? k'); discriminate.
Qed.

Lemma countLabels_from_nonempty data acc :
  acc <> [] \/ data <> [] ->
  fold_left (fun a s => bump (label s) a) data acc <> [].
Proof.
  revert acc. induction data as [|s rest IH]; intros acc [H|H]; simpl; try done.
  - apply IH. left. apply bump_nonempty.
  - apply IH. left. apply bump_nonempty.
Qed.

Lemma countLabels_nonempty data : data <> [] -> countLabels data <> [].
Proof. intros H. apply countLabels_from_nonempty. by right. Qed.

Lemma countLabels_single_label L data c :
  Forall (fun s => label s = L) data ->
  fold_left (fun a s => bump (label s) a) data [(L, c)] = [(L, c + length data)].
Proof.
  revert c. induction data as [|s rest IH]; intros c Hall; simpl.
  - by rewrite Nat.add_0_r.
  - inversion Hall as [|? ? Hs Hrest]; subst.
    rewrite Nat.eqb_refl. rewrite IH by done. f_equal. f_equal. lia.
Qed.

Lemma countLabels_pure L s rest :
  Forall (fun x => label x = L) (s :: rest) ->
  countLabels (s :: rest) = [(L, length (s :: rest))].
Proof.
  intros Hall. inversion Hall as [|? ? Hs Hrest]; subst.
  unfold countLabels. simpl. by rewrite countLabels_single_label.
Qed.

Lemma isPure_single_label L data :
  Forall (fun x => label x = L) data -> isPure data = true.
Proof.
  intros Hall. destruct data as [|s rest]; [done|].
  simpl. inversion Hall as [|? ? Hs Hrest]; subst.
  rewrite Nat.eqb_refl. simpl.
  apply forallb_forall. intros x Hx.
  rewrite Forall_forall in Hrest.
  apply Nat.eqb_eq. apply Hrest. by apply list_elem_of_In.
Qed.

Lemma majority_fold_not_number (counts rest : list (nat * nat)) (a : jsval) :
  isNumber a = false ->
  isNumber
    (fold_left
       (fun a b =>
          if gt_count (getCount counts (parseInt a)) (getCount counts (fst b))
          then a else VKey (fst b))
       rest a) = false.
Proof.
  revert a. induction rest as [|b rest IH]; intros a Ha; simpl; [done|].
  apply IH. by destruct (gt_count _ _).
Qed.

Lemma majorityClass_not_number data v :
  majorityClass data = Ok v -> isNumber v = false.
Proof.
  unfold majorityClass. destruct (countLabels data) as [|[k0 c0] rest] eqn:E; [done|].
  intros H. injection H as H. rewrite <- H.
  by apply (majority_fold_not_number ((k0, c0) :: rest)).
Qed.

Lemma majorityClass_nonempty data :
  data <> [] -> exists v, majorityClass data = Ok v.
Proof.
  intros H. unfold majorityClass.
  destruct (countLabels data) as [|[k0 c0] rest] eqn:E.
  - by apply countLabels_nonempty in H.
  - eauto.
Qed.

Lemma majorityClass_empty : majorityClass [] = Throw ReduceOfEmptyArray.
Proof. reflexivity. Qed.

Lemma majorityClass_pure L s rest :
  Forall (fun x => label x = L) (s :: rest) ->
  majorityClass (s :: rest) = Ok (VEntry L (length (s :: rest))).
Proof.
  intros Hall. unfold majorityClass. by rewrite (countLabels_pure L).
Qed.

(** ** Decision tree: the chosen split leaves no side empty *)

Lemma splitData_length data fi th :
  length (splitData data fi th).1 + length (splitData data fi th).2 = length data.
Proof.
  unfold splitData. simpl. induction data as [|s rest IH]; simpl; [done|].
  destruct (le_num (features s !! fi) th); simpl; lia.
Qed.

Lemma length_zero_false {A : Type} (l : list A) : (length l =? 0) = false -> l <> [].
Proof. destruct l; [done|]. discriminate. Qed.

Lemma calculateGini_finite data fi th q :
  calculateGini data fi th = Fin q ->
  (splitData data fi th).1 <> [] /\ (splitData data fi th).2 <> [].
Proof.
  unfold calculateGini. destruct (splitData data fi th) as [l r]. simpl.
  destruct (length l =? 0) eqn:El; simpl; [done|].
  destruct (length r =? 0) eqn:Er; simpl; [done|].
  intros _. split; by apply length_zero_false.
Qed.

Lemma lt_ext_finite g best : lt_ext g best = true -> exists q, g = Fin q.
Proof. destruct g; [eauto|done|done]. Qed.

Lemma consider_finiteCost data fi best th :
  finiteCost data best -> finiteCost data (consider data fi best th).
Proof.
  intros Hbest. unfold consider.
  destruct (lt_ext (calculateGini data fi th) best.1) eqn:E; [|done].
  intros s [= <-]. simpl. by apply lt_ext_finite in E.
Qed.

Lemma inner_loop_finiteCost data fi ths best :
  finiteCost data best -> finiteCost data (fold_left (consider data fi) ths best).
Proof.
  revert best. induction ths as [|th ths IH]; intros best Hbest; simpl; [done|].
  apply IH. by apply consider_finiteCost.
Qed.

Lemma outer_loop_finiteCost data (ths : nat -> list (option Q)) fis best :
  finiteCost data best ->
  finiteCost data
    (fold_left (fun b fi => fold_left (consider data fi) (ths fi) b) fis best).
Proof.
  revert best. induction fis as [|fi fis IH]; intros best Hbest; simpl; [done|].
  apply IH. by apply inner_loop_finiteCost.
Qed.

Lemma findBestSplit_sides data bestSplit :
  findBestSplit data = Some bestSplit ->
  (splitData data (s_featureIndex bestSplit) (s_threshold bestSplit)).1 <> []
  /\ (splitData data (s_featureIndex bestSplit) (s_threshold bestSplit)).2 <> [].
Proof.
  unfold findBestSplit. intros H.
  pose proof (outer_loop_finiteCost data
    (fun fi => midpoints (sortValues (map (fun s => features s !! fi) data)))
    (seq 0 (match data with [] => 0 | s :: _ => length (features s) end))
    (PosInf, None)) as Hinv.
  destruct (Hinv ltac:(intros s; discriminate) bestSplit H) as [q Hq].
  by apply calculateGini_finite in Hq.
Qed.

(** ** Decision tree: training terminates and grows a full tree *)

Lemma train_fuel_eq fuel this data maxDepth minSamples :
  train_fuel fuel this data maxDepth minSamples =
  if (maxDepth =? 0)%Z || (Z.of_nat (length data) <? minSamples)%Z || isPure data
  then Some (makeLeaf this data)
  else
    match findBestSplit data with
    | None => Some (makeLeaf this data)
    | Some bestSplit =>
        match fuel with
        | O => None
        | S fuel' =>
            let (left_, right_) :=
              splitData data (s_featureIndex bestSplit) (s_threshold bestSplit) in
            match train_fuel fuel' new left_ (maxDepth - 1) minSamples with
            | None => None
            | Some (Throw e) => Some (Throw e)
            | Some (Ok l) =>
                match train_fuel fuel' new right_ (maxDepth - 1) minSamples with
                | None => None
                | Some (Throw e) => Some (Throw e)
                | Some (Ok r) =>
                    Some (Ok (mkTree (s_threshold bestSplit) (s_featureIndex bestSplit)
                                (Some l) (Some r) (prediction this) (isLeaf this)))
                end
            end
        end
    end.
Proof. destruct fuel; reflexivity. Qed.

Lemma makeLeaf_grown this data :
  data <> [] -> exists t, makeLeaf this data = Ok t /\ grown t data.
Proof.
  intros Hne. unfold makeLeaf.
  destruct (majorityClass_nonempty data Hne) as [v Hv]. rewrite Hv.
  eexists. split; [reflexivity|]. by apply grown_leaf.
Qed.

Lemma train_fuel_grown fuel :
  forall this data maxDepth minSamples,
    isLeaf this = false ->
    length data <= fuel ->
    data <> [] ->
    exists t, train_fuel fuel this data maxDepth minSamples = Some (Ok t) /\ grown t data.
Proof.
  induction fuel as [|fuel IH]; intros this data maxDepth minSamples Hthis Hlen Hne.
  - destruct data; [done|]. simpl in Hlen. lia.
  - rewrite train_fuel_eq.
    destruct ((maxDepth =? 0)%Z || (Z.of_nat (length data) <? minSamples)%Z || isPure data).
    { destruct (makeLeaf_grown this data Hne) as (t & -> & Ht). eauto. }
    destruct (findBestSplit data) as [bestSplit|] eqn:Hsplit.
    2: { destruct (makeLeaf_grown this data Hne) as (t & -> & Ht). eauto. }
    destruct (findBestSplit_sides data bestSplit Hsplit) as [Hl Hr].
    pose proof (splitData_length data (s_featureIndex bestSplit) (s_threshold bestSplit)) as Hsum.
    destruct (splitData data (s_featureIndex bestSplit) (s_threshold bestSplit))
      as [left_ right_] eqn:Hsd.
    simpl in Hl, Hr, Hsum.
    assert (0 < length left_) by (destruct left_; [done|simpl; lia]).
    assert (0 < length right_) by (destruct right_; [done|simpl; lia]).
    destruct (IH new left_ (maxDepth - 1)%Z minSamples) as (l & -> & Hgl); [done|lia|done|].
    destruct (IH new right_ (maxDepth - 1)%Z minSamples) as (r & -> & Hgr); [done|lia|done|].
    eexists. split; [reflexivity|].
    eapply (grown_node _ data l r);
      cbn [featureIndex threshold leftChild rightChild isLeaf];
      try rewrite Hsd; done.
Qed.

(** [predict] on a grown tree returns a value: no [null] child is reached. *)
Lemma grown_predict t data :
  grown t data -> forall fs, exists v, predict t fs = Ok v.
Proof.
  induction 1 as [t data Hne Hleaf Hmaj|t data l r Hleaf Hl Hr Hnl Hnr Hgl IHl Hgr IHr];
    intros fs.
  - destruct t; simpl in *. rewrite Hleaf. eauto.
  - destruct t; simpl in *. rewrite Hleaf, Hl, Hr.
    destruct (le_num _ _); [apply IHl|apply IHr].
Qed.

(** The value a grown tree predicts is never a number. *)
Lemma grown_predict_not_number t data :
  grown t data -> forall fs v, predict t fs = Ok v -> isNumber v = false.
Proof.
  induction 1 as [t data Hne Hleaf Hmaj|t data l r Hleaf Hl Hr Hnl Hnr Hgl IHl Hgr IHr];
    intros fs v.
  - destruct t; simpl in *. rewrite Hleaf. intros [= <-].
    by apply majorityClass_not_number in Hmaj.
  - destruct t; simpl in *. rewrite Hleaf, Hl, Hr.
    destruct (le_num _ _); [apply IHl|apply IHr].
Qed.

Lemma train_grown this data maxDepth minSamples :
  isLeaf this = false ->
  data <> [] ->
  exists t, train this data maxDepth minSamples = Ok t /\ grown t data.
Proof.
  intros Hthis Hne. unfold train.
  destruct (train_fuel_grown (length data) this data maxDepth minSamples)
    as (t & -> & Ht); eauto.
Qed.

Lemma train_empty this maxDepth minSamples :
  train this [] maxDepth minSamples = Throw ReduceOfEmptyArray.
Proof.
  unfold train. rewrite train_fuel_eq. simpl. by rewrite orb_true_r.
Qed.

(** More fuel than the sample count changes nothing, and the sample count
    is enough. *)
Lemma train_fuel_stable fuel1 :
  forall fuel2 this data maxDepth minSamples,
    length data <= fuel1 ->
    length data <= fuel2 ->
    train_fuel fuel1 this data maxDepth minSamples
    = train_fuel fuel2 this data maxDepth minSamples.
Proof.
  induction fuel1 as [|fuel1 IH]; intros fuel2 this data maxDepth minSamples Hlen1 Hlen2.
  - destruct data; [|simpl in Hlen1; lia].
    rewrite !train_fuel_eq. simpl. by rewrite orb_true_r.
  - rewrite (train_fuel_eq (S fuel1)), (train_fuel_eq fuel2).
    destruct ((maxDepth =? 0)%Z || (Z.of_nat (length data) <? minSamples)%Z || isPure data);
      [done|].
    destruct (findBestSplit data) as [bestSplit|] eqn:Hsplit; [|done].
    destruct (findBestSplit_sides data bestSplit Hsplit) as [Hl Hr].
    pose proof (splitData_length data (s_featureIndex bestSplit) (s_threshold bestSplit)) as Hsum.
    destruct (splitData data (s_featureIndex bestSplit) (s_threshold bestSplit))
      as [left_ right_] eqn:Hsd.
    simpl in Hl, Hr, Hsum.
    assert (0 < length left_) by (destruct left_; [done|simpl; lia]).
    assert (0 < length right_) by (destruct right_; [done|simpl; lia]).
    destruct fuel2 as [|fuel2]; [lia|].
    rewrite (IH fuel2 new left_) by lia.
    rewrite (IH fuel2 new right_) by lia.
    done.
Qed.

Lemma train_fuel_enough fuel this data maxDepth minSamples :
  length data <= fuel ->
  data <> [] ->
  isLeaf this = false ->
  train_fuel fuel this data maxDepth minSamples
  = Some (train this data maxDepth minSamples).
Proof.
  intros Hlen Hne Hthis. unfold train.
  rewrite (train_fuel_stable fuel (length data)) by lia.
  by destruct (train_fuel_grown (length data) this data maxDepth minSamples)
    as (t & -> & _).
Qed.

End DecisionTreeFacts.

(** ** Random forest: training *)

Section RandomForestFacts.

Import RandomForest.

Lemma frac_bounds q : (0 <= frac q < 1)%Q.
Proof.
  unfold frac. pose proof (Qfloor_le q) as Hlo. pose proof (Qlt_floor q) as Hhi.
  rewrite inject_Z_plus in Hhi. change (inject_Z 1) with 1%Q in Hhi.
  split; lra.
Qed.

Lemma randomIndex_lt n g : 0 < n -> (randomIndex n g).1 < n.
Proof.
  intros Hn. unfold randomIndex, random. cbn -[frac Qfloor Qmult inject_Z].
  pose proof (frac_bounds (g 0)) as [Hlo Hhi].
  set (r := frac (g 0)) in *.
  assert (0 < inject_Z (Z.of_nat n))%Q as Hpos.
  { change (inject_Z 0 < inject_Z (Z.of_nat n))%Q. rewrite <- Zlt_Qlt. lia. }
  assert (0 <= r * inject_Z (Z.of_nat n))%Q as Hx0 by nra.
  assert (r * inject_Z (Z.of_nat n) < inject_Z (Z.of_nat n))%Q as Hx1 by nra.
  pose proof (Qfloor_resp_le _ _ Hx0) as Hf0.
  change (Qfloor 0) with 0%Z in Hf0.
  pose proof (Qfloor_le (r * inject_Z (Z.of_nat n))) as Hf1.
  assert (inject_Z (Qfloor (r * inject_Z (Z.of_nat n))) < inject_Z (Z.of_nat n))%Q
    as Hf2 by lra.
  rewrite <- Zlt_Qlt in Hf2. lia.
Qed.

Lemma bootstrapLoop_defined data :
  data <> [] ->
  forall n acc g,
    exists l, (bootstrapLoop n data (map Some acc) g).1 = map Some l
              /\ length l = length acc + n.
Proof.
  intros Hne. induction n as [|n IH]; intros acc g; cbn [bootstrapLoop].
  - exists acc. split; [done|lia].
  - destruct (randomIndex (length data) g) as [i g'] eqn:Hi.
    assert (i < length data) as Hlt.
    { change i with (i, g').1. rewrite <- Hi. apply randomIndex_lt.
      destruct data; [done|simpl; lia]. }
    destruct (lookup_lt_is_Some_2 data i Hlt) as [x Hx]. rewrite Hx.
    replace (map Some acc ++ [Some x]) with (map Some (acc ++ [x]))
      by (by rewrite map_app).
    destruct (IH (acc ++ [x]) g') as (l & Hl & Hlen).
    exists l. split; [done|]. rewrite length_app in Hlen. simpl in Hlen. lia.
Qed.

Lemma bootstrap_defined data g :
  data <> [] ->
  exists l, (bootstrap data g).1 = map Some l /\ l <> [].
Proof.
  intros Hne. unfold bootstrap.
  destruct (bootstrapLoop_defined data Hne (length data) [] g) as (l & Hl & Hlen).
  exists l. split; [done|].
  destruct data; [done|]. destruct l; [simpl in Hlen; lia|done].
Qed.

Lemma trainTree_grown l :
  l <> [] -> exists t, trainTree (map Some l) = Ok t /\ grown t l.
Proof.
  intros Hne. unfold trainTree.
  change (map Some l) with (Some <$> l).
  rewrite (mapM_fmap_Some (fun x : option TrainingData => x) Some l) by done.
  by apply train_grown.
Qed.

Lemma forest_trainLoop_ok data :
  data <> [] ->
  forall n acc g,
    Forall trainedTree acc ->
    (trainLoop n data acc g).1.2 = Ok tt
    /\ length (trainLoop n data acc g).1.1 = length acc + n
    /\ Forall trainedTree (trainLoop n data acc g).1.1.
Proof.
  intros Hne. induction n as [|n IH]; intros acc g Hacc; simpl.
  - repeat split; [lia|done].
  - destruct (bootstrap_defined data g Hne) as (l & Hl & Hlne).
    destruct (bootstrap data g) as [bootstrapData g'] eqn:Hb. simpl in Hl. subst.
    destruct (trainTree_grown l Hlne) as (t & -> & Ht).
    destruct (IH (acc ++ [t]) g') as (Hr & Hlen & Hall).
    { apply Forall_app. split; [done|]. constructor; [by exists l|done]. }
    repeat split; [done| |done]. rewrite Hlen, length_app. simpl. lia.
Qed.

(** Training a forest on a non-empty sample list succeeds and leaves
    [numTrees] trained trees. *)
Lemma forest_train_ok this data g :
  data <> [] ->
  (train this data g).1.2 = Ok tt
  /\ numTrees (train this data g).1.1 = numTrees this
  /\ length (trees (train this data g).1.1) = numTrees this
  /\ Forall trainedTree (trees (train this data g).1.1).
Proof.
  intros Hne. unfold train.
  destruct (forest_trainLoop_ok data Hne (numTrees this) [] g) as (Hr & Hlen & Hall); [done|].
  destruct (trainLoop (numTrees this) data [] g) as [[ts r] g'].
  simpl in *. done.
Qed.

(** ** Random forest: the vote *)

Lemma inject_nat_le (a b : nat) :
  (inject_Z (Z.of_nat a) <= inject_Z (Z.of_nat b))%Q <-> a <= b.
Proof. rewrite <- Zle_Qle. lia. Qed.

Lemma inject_nat_eq (a b : nat) :
  (inject_Z (Z.of_nat a) == inject_Z (Z.of_nat b))%Q <-> a = b.
Proof. rewrite inject_Z_injective. lia. Qed.

Lemma voteOf_spec k n : voteOf k n = 1 <-> n < 2 * k.
Proof.
  unfold voteOf.
  destruct (Qle_bool (inject_Z (Z.of_nat k)) (inject_Z (Z.of_nat n) / 2)) eqn:E.
  - apply Qle_bool_iff in E.
    assert (inject_Z (Z.of_nat (2 * k)) <= inject_Z (Z.of_nat n))%Q as H.
    { rewrite Nat2Z.inj_mul, inject_Z_mult. change (inject_Z (Z.of_nat 2)) with 2%Q.
      unfold Qdiv in E. change (/ 2)%Q with (1 # 2)%Q in E. lra. }
    apply inject_nat_le in H. split; [done|lia].
  - split; [|done]. intros _.
    destruct (Nat.lt_ge_cases n (2 * k)) as [|H]; [done|]. exfalso.
    apply inject_nat_le in H.
    rewrite Nat2Z.inj_mul, inject_Z_mult in H. change (inject_Z (Z.of_nat 2)) with 2%Q in H.
    assert (Qle_bool (inject_Z (Z.of_nat k)) (inject_Z (Z.of_nat n) / 2) = true) as E'.
    { apply Qle_bool_iff. unfold Qdiv. change (/ 2)%Q with (1 # 2)%Q. lra. }
    congruence.
Qed.

Lemma voteOf_range k n : voteOf k n = 0 \/ voteOf k n = 1.
Proof. unfold voteOf. destruct (Qle_bool _ _); auto. Qed.

Lemma divCounts_unit k n :
  0 < n -> k <= n ->
  exists x, divCounts k n = Fin x /\ (0 <= x <= 1)%Q
            /\ ((x == 0)%Q <-> k = 0) /\ ((x == 1)%Q <-> k = n).
Proof.
  intros Hn Hk. unfold divCounts.
  destruct (n =? 0) eqn:E; [apply Nat.eqb_eq in E; lia|].
  eexists. split; [reflexivity|].
  assert (0 < inject_Z (Z.of_nat n))%Q as HN.
  { change (inject_Z 0 < inject_Z (Z.of_nat n))%Q. rewrite <- Zlt_Qlt. lia. }
  assert (0 <= inject_Z (Z.of_nat k))%Q as HK0.
  { change (inject_Z (Z.of_nat 0) <= inject_Z (Z.of_nat k))%Q. apply inject_nat_le. lia. }
  pose proof (proj2 (inject_nat_le k n) Hk) as HKN.
  pose proof (inject_nat_eq k 0) as Hz. pose proof (inject_nat_eq k n) as Ho.
  change (inject_Z (Z.of_nat 0)) with 0%Q in Hz.
  set (K := inject_Z (Z.of_nat k)) in *. set (N := inject_Z (Z.of_nat n)) in *.
  assert (K / N * N == K)%Q as Hx by (field; lra).
  set (x := (K / N)%Q) in *.
  repeat split.
  - apply Qle_shift_div_l; lra.
  - apply Qle_shift_div_r; lra.
  - intros H. apply Hz. rewrite <- Hx, H. lra.
  - intros H. apply Hz in H. nra.
  - intros H. apply Ho. rewrite <- Hx, H. lra.
  - intros H. apply Ho in H. nra.
Qed.

(** With at least one tree and no more votes than trees, the confidence is a
    number of [0, 1]; it is [1] exactly when no vote or every vote is a
    threat vote. *)
Lemma confidenceOf_unit k n :
  0 < n -> k <= n ->
  exists q, confidenceOf k n = Fin q /\ (0 <= q <= 1)%Q
            /\ ((q == 1)%Q <-> k = 0 \/ k = n).
Proof.
  intros Hn Hk. unfold confidenceOf.
  destruct (divCounts_unit k n Hn Hk) as (x & -> & [Hx0 Hx1] & Hz & Ho). simpl.
  eexists. split; [reflexivity|].
  destruct (Qlt_le_dec (x - (1 # 2)) 0) as [Hneg|Hpos].
  - rewrite (Qabs_neg (x - (1 # 2))) by lra.
    split; [split; lra|]. rewrite <- Hz, <- Ho. split.
    + intros H. left. lra.
    + intros [H|H]; lra.
  - rewrite (Qabs_pos (x - (1 # 2))) by lra.
    split; [split; lra|]. rewrite <- Hz, <- Ho. split.
    + intros H. right. lra.
    + intros [H|H]; lra.
Qed.

Lemma threatCount_le predictions : threatCount predictions <= length predictions.
Proof.
  unfold threatCount. pose proof (List.filter_length strictEqualsOne predictions). lia.
Qed.

Lemma threatCount_no_number predictions :
  Forall (fun v => isNumber v = false) predictions -> threatCount predictions = 0.
Proof.
  unfold threatCount. induction 1 as [|v vs Hv Hvs IH]; simpl; [done|].
  destruct v as [n| |]; try done.
Qed.

Lemma mapResult_length {A B : Type} (f : A -> result B) l ys :
  mapResult f l = Ok ys -> length ys = length l.
Proof.
  revert ys. induction l as [|x l IH]; intros ys; simpl.
  - by intros [= <-].
  - destruct (f x); [|done]. destruct (mapResult f l); [|done].
    intros [= <-]. simpl. f_equal. by apply IH.
Qed.

(** Every tree of a trained forest returns a value, and none is a number. *)
Lemma predictions_trained fs ts :
  Forall trainedTree ts ->
  exists predictions,
    mapResult (fun t => DecisionTree.predict t fs) ts = Ok predictions
    /\ Forall (fun v => isNumber v = false) predictions.
Proof.
  induction 1 as [|t ts [data Ht] Hts (ps & IH & Hps)]; simpl.
  - by exists [].
  - destruct (grown_predict t data Ht fs) as [v Hv]. rewrite Hv, IH.
    exists (v :: ps). split; [done|]. constructor; [|done].
    by apply (grown_predict_not_number t data Ht fs).
Qed.

(** Hence no vote of a trained forest is ever counted as a threat vote. *)
Lemma forest_predict_trained this fs :
  Forall trainedTree (trees this) ->
  predict this fs
  = Ok (mkPrediction (voteOf 0 (numTrees this)) (confidenceOf 0 (numTrees this))).
Proof.
  intros Hts. unfold predict.
  destruct (predictions_trained fs (trees this) Hts) as (ps & -> & Hps).
  by rewrite (threatCount_no_number ps Hps).
Qed.

Lemma voteOf_zero n : voteOf 0 n = 0.
Proof.
  destruct (voteOf_range 0 n) as [|H]; [done|]. apply voteOf_spec in H. lia.
Qed.

End RandomForestFacts.

(** ** Isolation forest: the anomaly score *)

Section IsolationForestFacts.

Open Scope R_scope.

Lemma ln_ge_half x : 2 <= x -> / 2 < ln x.
Proof.
  intros Hx. pose proof ln_lt_2 as H2.
  destruct (Rle_lt_or_eq_dec 2 x Hx) as [Hlt| <-]; [|done].
  pose proof (ln_increasing 2 x ltac:(lra) Hlt). lra.
Qed.

Lemma c_positive n :
  (1 < n)%nat ->
  0 < 2 * (ln (INR n - 1) + 0.5772156649) - (2 * (INR n - 1) / INR n).
Proof.
  intros Hn. destruct n as [|[|[|n]]]; [lia|lia| |].
  - simpl. replace (1 + 1 - 1) with 1 by lra. rewrite ln_1. lra.
  - assert (3 <= INR (S (S (S n)))) as H3.
    { pose proof (le_INR 3 (S (S (S n))) ltac:(lia)) as H. simpl (INR 3) in H. lra. }
    set (x := INR (S (S (S n)))) in *.
    pose proof (ln_ge_half (x - 1) ltac:(lra)) as Hln.
    assert (2 * (x - 1) / x = 2 - 2 / x) as -> by (field; lra).
    assert (0 < 2 / x) by (apply Rdiv_lt_0_compat; lra).
    lra.
Qed.

Lemma tree_averagePathLength_nonneg n : 0 <= IsolationTree.averagePathLength n.
Proof.
  unfold IsolationTree.averagePathLength. destruct (n <=? 1)%nat eqn:E; [lra|].
  apply Nat.leb_gt in E. left. by apply c_positive.
Qed.

Lemma averagePathLength_positive n :
  (1 < n)%nat -> 0 < IsolationForest.averagePathLength n.
Proof.
  intros Hn. unfold IsolationForest.averagePathLength.
  destruct (n <=? 1)%nat eqn:E; [apply Nat.leb_le in E; lia|]. by apply c_positive.
Qed.

Lemma pathLength_nonneg t point depth : 0 <= IsolationTree.pathLength t point depth.
Proof.
  revert depth. induction t as [size|size f v l IHl r IHr]; intros depth; simpl.
  - pose proof (pos_INR depth). pose proof (tree_averagePathLength_nonneg size). lra.
  - destruct (IsolationTree.lt_num _ _); [apply IHl|apply IHr].
Qed.

Lemma sum_nonneg l acc :
  Forall (fun x => 0 <= x) l -> 0 <= acc -> 0 <= fold_left Rplus l acc.
Proof.
  revert acc. induction l as [|x l IH]; intros acc Hall Hacc; simpl; [done|].
  inversion Hall; subst. apply IH; [done|lra].
Qed.

Lemma meanPathLength_nonneg ts point : ts <> [] -> 0 <= meanPathLength ts point.
Proof.
  intros Hne. unfold meanPathLength.
  assert (0 < INR (length ts)) as Hlen.
  { apply lt_0_INR. destruct ts; [done|simpl; lia]. }
  apply Rmult_le_pos; [|left; by apply Rinv_0_lt_compat].
  apply sum_nonneg; [|lra].
  apply List.Forall_forall. intros x Hx. apply in_map_iff in Hx.
  destruct Hx as (t & <- & _). apply pathLength_nonneg.
Qed.

Lemma mean_defined ts point :
  ts <> [] ->
  IsolationForest.mean (map (fun t => IsolationTree.pathLength t point 0) ts)
  = Fin (meanPathLength ts point).
Proof.
  intros Hne. unfold IsolationForest.mean, meanPathLength.
  destruct ts as [|t ts]; [done|]. simpl. by rewrite length_map.
Qed.

Lemma power_of_two_unit y : y <= 0 -> 0 < Rpower 2 y <= 1.
Proof.
  intros Hy. split.
  - unfold Rpower. apply exp_pos.
  - rewrite <- (Rpower_O 2) by lra. apply Rle_Rpower; lra.
Qed.

Lemma scoreOf_unit a c :
  0 <= a -> 0 < c ->
  IsolationForest.scoreOf (Fin a) c = Fin (Rpower 2 (- a / c))
  /\ 0 < Rpower 2 (- a / c) <= 1.
Proof.
  intros Ha Hc. unfold IsolationForest.scoreOf.
  destruct (Req_dec_T c 0) as [->|_]; [lra|]. split; [done|].
  apply power_of_two_unit.
  assert (0 <= a / c) by (apply Rmult_le_pos; [done|left; by apply Rinv_0_lt_compat]).
  replace (- a / c) with (- (a / c)) by (field; lra). lra.
Qed.

Lemma gt_ext_Fin c x : IsolationForest.gt_ext (Fin x) c = true <-> c < x.
Proof.
  unfold IsolationForest.gt_ext. destruct (Rlt_dec c x); split; try done.
Qed.

Close Scope R_scope.

End IsolationForestFacts.

(** ** Isolation forest: training *)

Section IsolationForestTraining.

Variable shuffle : list (list Q) -> rng -> list (list Q) * rng.

Lemma if_trainLoop_length n this data maxDepth acc g :
  length (IsolationForest.trainLoop shuffle n this data maxDepth acc g).1
  = length acc + n.
Proof.
  revert acc g. induction n as [|n IH]; intros acc g; simpl; [lia|].
  destruct (IsolationForest.sample shuffle data (IsolationForest.sampleSize this) g)
    as [sampleData g1].
  destruct (IsolationTree.new sampleData maxDepth 0 g1) as [t g2].
  rewrite IH, length_app. simpl. lia.
Qed.

Lemma if_train_shape this data g :
  IsolationForest.numTrees (IsolationForest.train shuffle this data g).1
  = IsolationForest.numTrees this
  /\ IsolationForest.sampleSize (IsolationForest.train shuffle this data g).1
     = IsolationForest.sampleSize this
  /\ length (IsolationForest.trees (IsolationForest.train shuffle this data g).1)
     = IsolationForest.numTrees this.
Proof.
  unfold IsolationForest.train.
  pose proof (if_trainLoop_length (IsolationForest.numTrees this) this data
                (Nat.log2_up (IsolationForest.sampleSize this)) [] g) as Hlen.
  destruct (IsolationForest.trainLoop shuffle _ _ _ _ _ _) as [ts g'].
  simpl in *. done.
Qed.

End IsolationForestTraining.

(** ** The engine: training and the states it passes through *)

Section EngineFacts.

Import MLThreatDetection.

Variable shuffle : list (list Q) -> rng -> list (list Q) * rng.

Lemma trainModels_trainingData s g :
  trainingData (trainModels shuffle s g).1.1 = trainingData s
  /\ featureHistory (trainModels shuffle s g).1.1 = featureHistory s.
Proof.
  unfold trainModels. destruct (isTraining s); [done|].
  destruct (RandomForest.train (randomForest s) (trainingData s) g) as [[rf r] g1].
  destruct r; [|done].
  by destruct (IsolationForest.train shuffle (isolationForest s) _ g1).
Qed.

(** With samples to train on, [trainModels] trains both forests and says so. *)
Lemma trainModels_ok s g :
  isTraining s = false ->
  trainingData s <> [] ->
  (trainModels shuffle s g).1.2 = [ModelsTrained]
  /\ (trainModels shuffle s g).1.1
     = mkEngine (RandomForest.train (randomForest s) (trainingData s) g).1.1
         (IsolationForest.train shuffle (isolationForest s)
            (map features (trainingData s))
            (RandomForest.train (randomForest s) (trainingData s) g).2).1
         (trainingData s) (featureHistory s) false true.
Proof.
  intros Hidle Hne. unfold trainModels. rewrite Hidle.
  destruct (forest_train_ok (randomForest s) (trainingData s) g Hne) as (Hr & _).
  destruct (RandomForest.train (randomForest s) (trainingData s) g) as [[rf r] g1].
  simpl in *. subst r.
  by destruct (IsolationForest.train shuffle (isolationForest s) _ g1).
Qed.

Lemma generate_length pattern count patterns g :
  length (generate pattern count patterns g).1 = length patterns + count.
Proof.
  revert patterns g. induction count as [|count IH]; intros patterns g; simpl; [lia|].
  destruct (pattern g) as [p g']. rewrite IH, length_app. simpl. lia.
Qed.

Lemma trainModels_consistent s g :
  isTraining s = false ->
  trainingData s <> [] ->
  RandomForest.numTrees (randomForest s) = 50 ->
  IsolationForest.numTrees (isolationForest s) = 50 ->
  IsolationForest.sampleSize (isolationForest s) = 128 ->
  consistent (trainModels shuffle s g).1.1.
Proof.
  intros Hidle Hne Hrf Hif Hss.
  destruct (trainModels_ok s g Hidle Hne) as [_ ->].
  destruct (forest_train_ok (randomForest s) (trainingData s) g Hne)
    as (_ & Hn & Hlen & Hall).
  destruct (if_train_shape shuffle (isolationForest s) (map features (trainingData s))
              (RandomForest.train (randomForest s) (trainingData s) g).2)
    as (Hn' & Hss' & Hlen').
  constructor; simpl; congruence.
Qed.

(** The constructor leaves a trained engine holding the 250 synthetic
    samples. *)
Lemma new_consistent g :
  consistent (new shuffle g).1.1
  /\ length (trainingData (new shuffle g).1.1) = 250
  /\ (new shuffle g).1.2 = [ModelsTrained].
Proof.
  unfold new.
  pose proof (generate_length normalPattern 200 [] g) as Hn.
  unfold generateNormalTrafficPatterns, generateThreatPatterns.
  destruct (generate normalPattern 200 [] g) as [normalPatterns g1].
  pose proof (generate_length threatPattern 50 [] g1) as Ht.
  destruct (generate threatPattern 50 [] g1) as [threatPatterns g2].
  simpl in Hn, Ht.
  set (s0 := mkEngine _ _ _ _ _ _).
  assert (length (trainingData s0) = 250) as Hlen.
  { simpl. rewrite length_app, !length_map. lia. }
  assert (trainingData s0 <> []) as Hne.
  { intros E. rewrite E in Hlen. done. }
  split; [by apply trainModels_consistent|].
  split.
  - by rewrite (proj1 (trainModels_trainingData s0 g2)).
  - by apply trainModels_ok.
Qed.

Lemma detectThreats_consistent s networkData now :
  consistent s -> consistent (detectThreats s networkData now).1.
Proof.
  intros [? ? ? ? ? ? ? ? ?]. unfold detectThreats.
  destruct (negb (modelTrained s)); [done|].
  destruct (RandomForest.predict _ _); by constructor.
Qed.

Lemma retrain_trainingData s f isThreat g :
  trainingData (retrainWithFeedback shuffle s f isThreat g).1.1
  = let pushed :=
      trainingData s ++ [mkTrainingData (featureVector f) (if isThreat then 1 else 0)] in
    if 1000 <? length pushed then lastEntries 800 pushed else pushed.
Proof.
  unfold retrainWithFeedback. cbv zeta.
  destruct (_ mod 50 =? 0); [|done].
  by rewrite (proj1 (trainModels_trainingData _ g)).
Qed.

Lemma lastEntries_length n l : n <= length l -> length (lastEntries n l) = n.
Proof. intros H. unfold lastEntries. rewrite length_skipn. lia. Qed.

Lemma kept_nonempty (data : list TrainingData) x :
  (if 1000 <? length (data ++ [x]) then lastEntries 800 (data ++ [x]) else data ++ [x])
  <> [].
Proof.
  destruct (1000 <? length (data ++ [x])) eqn:E.
  - apply Nat.ltb_lt in E. intros E'.
    pose proof (lastEntries_length 800 (data ++ [x]) ltac:(lia)) as Hl.
    rewrite E' in Hl. done.
  - by destruct data.
Qed.

Lemma retrain_consistent s f isThreat g :
  consistent s -> consistent (retrainWithFeedback shuffle s f isThreat g).1.1.
Proof.
  intros [? ? ? ? ? ? ? ? ?].
  pose proof (retrain_trainingData s f isThreat g) as Hdata. cbv zeta in Hdata.
  unfold retrainWithFeedback in *. cbv zeta in *.
  set (pushed := trainingData s ++ _) in *.
  set (kept := if 1000 <? length pushed then _ else _) in *.
  assert (kept <> []) as Hkept by apply kept_nonempty.
  destruct (length kept mod 50 =? 0).
  - by apply trainModels_consistent.
  - by constructor.
Qed.

Lemma grown_complete t data : grown t data -> complete t = true.
Proof.
  induction 1 as [t data Hne Hleaf Hmaj|t data l r Hleaf Hl Hr Hnl Hnr Hgl IHl Hgr IHr];
    destruct t; simpl in *; subst; simpl.
  - done.
  - by rewrite IHl, IHr.
Qed.

Lemma consistent_ready s : consistent s -> forestsReady s = true.
Proof.
  intros [? ? ? Hn Hlen Hall ? Hss Hlen']. unfold forestsReady.
  rewrite Hn, Hlen, Hss, Hlen'.
  repeat (apply andb_true_intro; split); try reflexivity.
  apply forallb_forall. intros t Ht.
  rewrite List.Forall_forall in Hall. destruct (Hall t Ht) as [data Hg].
  by apply (grown_complete t data).
Qed.

Lemma riskOf_low x : (x <= 0.4)%R -> riskOf (Fin x) = low.
Proof.
  intros Hx. unfold riskOf, IsolationForest.gt_ext.
  destruct (Rlt_dec 0.8 x); [lra|]. destruct (Rlt_dec 0.6 x); [lra|].
  destruct (Rlt_dec 0.4 x); [lra|]. done.
Qed.

Lemma complete_predict t :
  complete t = true -> forall fs, exists v, DecisionTree.predict t fs = Ok v.
Proof.
  revert t. fix IH 1. intros [th fi l r p leaf] H fs. simpl in *.
  destruct leaf; simpl in *; [eauto|].
  destruct l as [l|]; [|done]. destruct r as [r|]; [|done].
  apply andb_prop in H as [Hl Hr].
  destruct (DecisionTree.le_num _ _); [apply (IH l Hl)|apply (IH r Hr)].
Qed.

Lemma predictions_complete fs ts :
  forallb complete ts = true ->
  exists predictions, mapResult (fun t => DecisionTree.predict t fs) ts = Ok predictions.
Proof.
  induction ts as [|t ts IH]; simpl; [eauto|].
  intros H. apply andb_prop in H as [Ht Hts].
  destruct (complete_predict t Ht fs) as [v ->].
  destruct (IH Hts) as [ps ->]. eauto.
Qed.

(** A ready random forest answers with a vote of 0 or 1 and a confidence in
    [0, 1]. *)
Lemma forest_predict_ready (rf : RandomForest.forest) fs :
  0 < RandomForest.numTrees rf ->
  length (RandomForest.trees rf) = RandomForest.numTrees rf ->
  forallb complete (RandomForest.trees rf) = true ->
  exists r c,
    RandomForest.predict rf fs = Ok r
    /\ (RandomForest.prediction r = 0 \/ RandomForest.prediction r = 1)
    /\ RandomForest.confidence r = Fin c
    /\ (0 <= c <= 1)%Q.
Proof.
  intros Hn Hlen Hall. unfold RandomForest.predict.
  destruct (predictions_complete fs _ Hall) as [ps Hps]. rewrite Hps.
  pose proof (mapResult_length _ _ _ Hps) as Hl.
  pose proof (threatCount_le ps) as Hle.
  destruct (confidenceOf_unit (RandomForest.threatCount ps) (RandomForest.numTrees rf))
    as (c & Hc & Hb & _); [done|lia|].
  eexists _, c. split; [reflexivity|]. simpl.
  split; [apply voteOf_range|]. done.
Qed.

(** An isolation forest with a tree and a sample size above one scores every
    point in (0, 1]. *)
Lemma isolation_predict_ready (f : IsolationForest.forest) point :
  IsolationForest.trees f <> [] ->
  1 < IsolationForest.sampleSize f ->
  let score :=
    Rpower 2 (- meanPathLength (IsolationForest.trees f) point
              / IsolationForest.averagePathLength (IsolationForest.sampleSize f)) in
  IsolationForest.anomalyScore (IsolationForest.predict f point) = Fin score
  /\ (0 < score <= 1)%R
  /\ (IsolationForest.isAnomaly (IsolationForest.predict f point) = true
      <-> (0.6 < score)%R).
Proof.
  intros Hne Hss score. unfold IsolationForest.predict. simpl.
  rewrite (mean_defined _ point Hne).
  destruct (scoreOf_unit (meanPathLength (IsolationForest.trees f) point)
              (IsolationForest.averagePathLength (IsolationForest.sampleSize f)))
    as [-> Hb].
  { by apply meanPathLength_nonneg. }
  { by apply averagePathLength_positive. }
  split; [done|]. split; [done|]. apply gt_ext_Fin.
Qed.

Lemma forestsReady_parts s :
  forestsReady s = true ->
  0 < RandomForest.numTrees (randomForest s)
  /\ length (RandomForest.trees (randomForest s)) = RandomForest.numTrees (randomForest s)
  /\ forallb complete (RandomForest.trees (randomForest s)) = true
  /\ IsolationForest.trees (isolationForest s) <> []
  /\ 1 < IsolationForest.sampleSize (isolationForest s).
Proof.
  unfold forestsReady. intros H.
  repeat (apply andb_prop in H as [H ?]).
  repeat split; try done.
  - by apply Nat.ltb_lt.
  - by apply Nat.eqb_eq.
  - destruct (IsolationForest.trees (isolationForest s)); done.
  - by apply Nat.ltb_lt.
Qed.

(** Every state the engine passes through is trained, idle, and holds forests
    of 50 trained trees. *)
Lemma reachable_consistent s : reachable shuffle s -> consistent s.
Proof.
  induction 1 as [g|s networkData now _ IH|s f isThreat g _ IH|s now _ IH].
  - apply new_consistent.
  - by apply detectThreats_consistent.
  - by apply retrain_consistent.
  - done.
Qed.

Lemma reachable_ready s :
  reachable shuffle s -> modelTrained s = true /\ forestsReady s = true.
Proof.
  intros H. apply reachable_consistent in H.
  split; [by destruct H|by apply consistent_ready].
Qed.

(** In such a state the random forest never votes for a threat, so the threat
    score stays at or below 0.4 and the risk level is always low. *)
Lemma reachable_detectThreats_low s networkData now :
  reachable shuffle s ->
  exists p x,
    (detectThreats s networkData now).2 = Ok p
    /\ threatScore p = Fin x
    /\ (0 < x <= 0.4)%R
    /\ riskLevel p = low.
Proof.
  intros H. apply reachable_consistent in H.
  pose proof (consistent_ready s H) as Hready.
  destruct H as [_ Htrained _ Hn _ Hall _ _ _].
  destruct (forestsReady_parts s Hready) as (_ & _ & _ & Hne & Hss).
  set (vector := featureVector (extractFeatures s networkData now)).
  destruct (isolation_predict_ready (isolationForest s) vector Hne Hss)
    as (Hs & [Hs0 Hs1] & _).
  set (score := Rpower 2 _) in *.
  unfold detectThreats. rewrite Htrained. cbn [negb]. fold vector.
  rewrite (forest_predict_trained (randomForest s) vector Hall), voteOf_zero.
  cbn [snd RandomForest.prediction RandomForest.confidence]. rewrite Hs.
  cbn [fuseScore mapExt INR].
  eexists _, _. split; [reflexivity|]. cbn [threatScore riskLevel].
  split; [reflexivity|].
  split; [lra|]. apply riskOf_low. lra.
Qed.

End EngineFacts.

(** ** The engine: [detectThreats] *)

Section DetectThreats.

Import MLThreatDetection.

Open Scope R_scope.

Lemma riskOf_Fin x :
  (0.8 < x -> riskOf (Fin x) = critical)
  /\ (0.6 < x <= 0.8 -> riskOf (Fin x) = high)
  /\ (0.4 < x <= 0.6 -> riskOf (Fin x) = medium)
  /\ (x <= 0.4 -> riskOf (Fin x) = low).
Proof.
  unfold riskOf, IsolationForest.gt_ext.
  destruct (Rlt_dec 0.8 x), (Rlt_dec 0.6 x), (Rlt_dec 0.4 x);
    repeat split; intros; try done; lra.
Qed.

(** C1. In every trained state of the engine whose forests can answer (the
    random forest holds the trees it was built for, at least one and none
    with a missing child; the isolation forest holds a tree and samples more
    than one point: so it is in every state the engine passes through, see
    [reachable_ready]), [detectThreats] returns threatScore = 0.6 *
    rfPrediction + 0.4 * anomalyScore, confidence = (rfConfidence + (1 if
    anomalyScore > 0.6 else 0)) / 2, isAnomaly = (rfPrediction = 1 or the
    isolation forest's flag), and the risk level critical above 0.8, high
    above 0.6, medium above 0.4, low otherwise; the threat score and the
    confidence are numbers of [0, 1]. *)
Theorem detectThreats_fusion s networkData now :
  modelTrained s = true ->
  forestsReady s = true ->
  let vector := featureVector (extractFeatures s networkData now) in
  let ifResult := IsolationForest.predict (isolationForest s) vector in
  exists rfResult rfConfidence score p,
    RandomForest.predict (randomForest s) vector = Ok rfResult
    /\ RandomForest.confidence rfResult = Fin rfConfidence
    /\ IsolationForest.anomalyScore ifResult = Fin score
    /\ (detectThreats s networkData now).2 = Ok p
    /\ threatScore p = Fin (INR (RandomForest.prediction rfResult) * 0.6 + score * 0.4)
    /\ confidence p
       = Fin ((Q2R rfConfidence + (if Rlt_dec 0.6 score then 1 else 0)) / 2)
    /\ isAnomaly p
       = ((RandomForest.prediction rfResult =? 1)%nat || IsolationForest.isAnomaly ifResult)
    /\ (forall x, threatScore p = Fin x ->
          (0.8 < x -> riskLevel p = critical)
          /\ (0.6 < x <= 0.8 -> riskLevel p = high)
          /\ (0.4 < x <= 0.6 -> riskLevel p = medium)
          /\ (x <= 0.4 -> riskLevel p = low))
    /\ inUnit (threatScore p)
    /\ inUnit (confidence p).
Proof.
  intros Htrained Hready vector ifResult.
  destruct (forestsReady_parts s Hready) as (Hn & Hlen & Hall & Hne & Hss).
  destruct (forest_predict_ready (randomForest s) vector Hn Hlen Hall)
    as (r & c & Hr & Hv & Hc & Hc0 & Hc1).
  destruct (isolation_predict_ready (isolationForest s) vector Hne Hss)
    as (Hs & [Hs0 Hs1] & Hflag).
  fold ifResult in Hs, Hflag.
  set (score := Rpower 2 _) in *.
  exists r, c, score.
  unfold detectThreats. rewrite Htrained. cbn [negb].
  fold vector. rewrite Hr. fold ifResult. rewrite Hs, Hc. cbn [snd mapExt fuseScore fuseConfidence].
  eexists. split; [done|]. split; [done|]. split; [done|]. split; [reflexivity|].
  cbn [threatScore confidence isAnomaly riskLevel].
  split; [done|].
  split.
  { unfold IsolationForest.gt_ext. by destruct (Rlt_dec 0.6 score). }
  split; [done|].
  split.
  { intros x [= <-]. apply riskOf_Fin. }
  apply Qreals.Qle_Rle in Hc0, Hc1. rewrite RMicromega.Q2R_0 in Hc0.
  rewrite RMicromega.Q2R_1 in Hc1.
  split.
  - simpl. destruct Hv as [-> | ->]; simpl; lra.
  - simpl. unfold IsolationForest.gt_ext. destruct (Rlt_dec 0.6 score); lra.
Qed.

(** C6. While the models are not trained, [detectThreats] returns the neutral
    prediction (no anomaly, threat score 0, confidence 0, risk level low, no
    contributing feature) for every raw-metrics input; it returns normally
    and leaves the engine as it was. *)
Theorem detectThreats_untrained s networkData now :
  modelTrained s = false ->
  exists p,
    detectThreats s networkData now = (s, Ok p)
    /\ isAnomaly p = false
    /\ threatScore p = Fin 0
    /\ confidence p = Fin 0
    /\ riskLevel p = low
    /\ tp_features p = []
    /\ algorithm p = ensemble.
Proof.
  intros Hno. unfold detectThreats. rewrite Hno. simpl.
  exists neutral. repeat split.
Qed.

Close Scope R_scope.

Lemma detectThreats_fusion_witness :
  modelTrained votingEngine = true
  /\ forestsReady votingEngine = true
  /\ exists p,
       (detectThreats votingEngine sampleRaw 0).2 = Ok p
       /\ threatScore p = Fin 1%R
       /\ riskLevel p = critical
       /\ isAnomaly p = true.
Proof.
  assert (modelTrained votingEngine = true) as Htrained by reflexivity.
  assert (forestsReady votingEngine = true) as Hready by reflexivity.
  split; [exact Htrained|]. split; [exact Hready|].
  destruct (detectThreats_fusion votingEngine sampleRaw 0 Htrained Hready)
    as (r & c & score & p & Hr & _ & Hs & Hp & Hts & _ & Han & Hrisk & _ & _).
  assert (RandomForest.prediction r = 1) as Hvote.
  { vm_compute in Hr. by injection Hr as <-. }
  assert (score = 1%R) as Hscore.
  { destruct (isolation_predict_ready (isolationForest votingEngine)
                (featureVector (extractFeatures votingEngine sampleRaw 0)))
      as (Hs' & _ & _); [done|simpl; lia|].
    rewrite Hs' in Hs. injection Hs as <-.
    match goal with
    | |- Rpower 2 ?e = _ => assert (e = 0%R) as ->; [|apply Rpower_O; lra]
    end.
    unfold meanPathLength.
    cbn [votingEngine isolationForest IsolationForest.trees map fold_left length
         IsolationTree.pathLength].
    unfold IsolationTree.averagePathLength. cbn [Nat.leb INR].
    unfold Rdiv. nra. }
  rewrite Hvote, Hscore in Hts. rewrite Hvote in Han.
  assert (threatScore p = Fin 1%R) as Hone.
  { rewrite Hts. f_equal. simpl. lra. }
  exists p. split; [exact Hp|]. split; [exact Hone|].
  split; [apply (Hrisk 1%R Hone); lra|]. by rewrite Han.
Defined.

Lemma detectThreats_untrained_witness :
  modelTrained untrainedEngine = false
  /\ exists p,
       detectThreats untrainedEngine sampleRaw 0 = (untrainedEngine, Ok p)
       /\ riskLevel p = low.
Proof.
  split; [reflexivity|].
  destruct (detectThreats_untrained untrainedEngine sampleRaw 0 eq_refl)
    as (p & Hp & _ & _ & _ & Hlow & _).
  exists p. split; [exact Hp|exact Hlow].
Defined.

End DetectThreats.

(** ** The engine: feedback, retraining and the statistics readout *)

Section Feedback.

Import MLThreatDetection.

Variable shuffle : list (list Q) -> rng -> list (list Q) * rng.

(** C7. After every [retrainWithFeedback] call the training set holds at most
    1000 samples.  The call appends one sample; when that makes more than
    1000, the set becomes its most recent 800 entries (the oldest are the
    ones dropped); otherwise the earlier entries stay as they were, in
    order, followed by the new one.  No other method of the engine changes
    the set. *)
Theorem trainingData_capped s f (isThreat : bool) g :
  let pushed :=
    trainingData s ++ [mkTrainingData (featureVector f) (if isThreat then 1 else 0)] in
  let after := trainingData (retrainWithFeedback shuffle s f isThreat g).1.1 in
  length after <= 1000
  /\ after = (if 1000 <? length pushed then skipn (length pushed - 800) pushed else pushed)
  /\ (if 1000 <? length pushed
      then length after = 800
      else length after = S (length (trainingData s)))
  /\ (forall networkData now,
        trainingData (detectThreats s networkData now).1 = trainingData s)
  /\ (forall now, trainingData (getModelStats s now).1 = trainingData s)
  /\ trainingData (trainModels shuffle s g).1.1 = trainingData s.
Proof.
  intros pushed after. subst after.
  assert ((forall networkData now,
             trainingData (detectThreats s networkData now).1 = trainingData s)
          /\ (forall now, trainingData (getModelStats s now).1 = trainingData s)
          /\ trainingData (trainModels shuffle s g).1.1 = trainingData s) as Hother.
  { split; [|split; [done|apply trainModels_trainingData]].
    intros networkData now. unfold detectThreats.
    destruct (negb (modelTrained s)); [done|]. by destruct (RandomForest.predict _ _). }
  rewrite (retrain_trainingData shuffle s f isThreat g). cbv zeta. fold pushed.
  assert (length pushed = S (length (trainingData s))) as Hp.
  { subst pushed. rewrite length_app. simpl. lia. }
  destruct (1000 <? length pushed) eqn:E.
  - apply Nat.ltb_lt in E.
    pose proof (lastEntries_length 800 pushed ltac:(lia)) as Hl.
    split; [lia|]. split; [reflexivity|]. split; [exact Hl|exact Hother].
  - apply Nat.ltb_ge in E. split; [lia|]. split; [reflexivity|].
    split; [exact Hp|exact Hother].
Qed.

Lemma retrain_step s f (isThreat : bool) g :
  isTraining s = false ->
  let r := retrainWithFeedback shuffle s f isThreat g in
  let data := trainingData r.1.1 in
  if length data mod 50 =? 0
  then r.1.2 = [ModelsTrained]
       /\ randomForest r.1.1 = (RandomForest.train (randomForest s) data g).1.1
       /\ isolationForest r.1.1
          = (IsolationForest.train shuffle (isolationForest s) (map features data)
               (RandomForest.train (randomForest s) data g).2).1
       /\ modelTrained r.1.1 = true
  else r.1.2 = []
       /\ randomForest r.1.1 = randomForest s
       /\ isolationForest r.1.1 = isolationForest s.
Proof.
  intros Hidle r data. subst data r.
  rewrite (retrain_trainingData shuffle s f isThreat g). cbv zeta.
  unfold retrainWithFeedback. cbv zeta.
  set (pushed := trainingData s ++ _).
  set (kept := if 1000 <? length pushed then _ else _).
  assert (kept <> []) as Hkept by apply kept_nonempty.
  destruct (length kept mod 50 =? 0); [|done].
  set (s' := mkEngine _ _ kept _ _ _).
  destruct (trainModels_ok shuffle s' g Hidle Hkept) as [-> ->]. done.
Qed.

Lemma trainModels_idle s g :
  isTraining s = false -> isTraining (trainModels shuffle s g).1.1 = false.
Proof.
  intros Hidle. unfold trainModels. rewrite Hidle.
  destruct (RandomForest.train _ _ g) as [[rf r] g1]. destruct r; [|done].
  by destruct (IsolationForest.train shuffle _ _ g1).
Qed.

Lemma retrain_idle s f (isThreat : bool) g :
  isTraining s = false ->
  isTraining (retrainWithFeedback shuffle s f isThreat g).1.1 = false.
Proof.
  intros Hidle. unfold retrainWithFeedback. cbv zeta.
  destruct (_ mod 50 =? 0); [|done]. by apply trainModels_idle.
Qed.

Lemma div_step L : S L / 50 = L / 50 + (if S L mod 50 =? 0 then 1 else 0).
Proof.
  pose proof (Nat.div_mod_eq (S L) 50). pose proof (Nat.div_mod_eq L 50).
  pose proof (Nat.mod_upper_bound L 50 ltac:(lia)).
  pose proof (Nat.mod_upper_bound (S L) 50 ltac:(lia)).
  destruct (S L mod 50 =? 0) eqn:E.
  - apply Nat.eqb_eq in E. lia.
  - apply Nat.eqb_neq in E. lia.
Qed.

(** Below the cap, a run of feedback calls retrains once for each multiple of
    50 that the size of the training set passes. *)
Lemma feedbackRun_count calls :
  forall s g,
    isTraining s = false ->
    length (trainingData s) + length calls <= 1000 ->
    let r := feedbackRun shuffle s calls g in
    r.1.2 = repeat ModelsTrained
              ((length (trainingData s) + length calls) / 50
               - length (trainingData s) / 50)
    /\ length (trainingData r.1.1) = length (trainingData s) + length calls
    /\ isTraining r.1.1 = false.
Proof.
  induction calls as [|[f isThreat] calls IH]; intros s g Hidle Hcap; cbn [feedbackRun].
  - cbn [fst snd length]. rewrite Nat.add_0_r, Nat.sub_diag. done.
  - pose proof (retrain_step s f isThreat g Hidle) as Hstep. cbv zeta in Hstep.
    pose proof (retrain_trainingData shuffle s f isThreat g) as Hdata.
    cbv zeta in Hdata.
    assert (length (trainingData s ++
                    [mkTrainingData (featureVector f) (if isThreat then 1 else 0)])
            = S (length (trainingData s))) as Hp.
    { rewrite length_app. simpl. lia. }
    simpl in Hcap.
    rewrite Hp in Hdata.
    destruct (1000 <? S (length (trainingData s))) eqn:E;
      [apply Nat.ltb_lt in E; lia|].
    pose proof (retrain_idle s f isThreat g Hidle) as Hidle'.
    destruct (retrainWithFeedback shuffle s f isThreat g) as [[s1 msgs1] g1].
    cbn [fst snd] in *.
    specialize (IH s1 g1 Hidle').
    assert (length (trainingData s1) = S (length (trainingData s))) as Hlen1.
    { rewrite Hdata. exact Hp. }
    rewrite Hlen1 in IH, Hstep. specialize (IH ltac:(lia)). cbv zeta in IH.
    destruct (feedbackRun shuffle s1 calls g1) as [[s2 msgs2] g2].
    cbn [fst snd length] in *. destruct IH as (Hm2 & Hl2 & Hi2).
    split; [|split; [lia|done]].
    rewrite Hm2.
    replace (length (trainingData s) + S (length calls))
      with (S (length (trainingData s)) + length calls) by lia.
    set (L := length (trainingData s)) in *. set (n := length calls) in *.
    pose proof (div_step L) as Hdiv.
    assert (S L / 50 <= (S L + n) / 50) by (apply Nat.Div0.div_le_mono; lia).
    destruct (S L mod 50 =? 0) eqn:Em.
    + destruct Hstep as (-> & _).
      replace ((S L + n) / 50 - L / 50) with (S ((S L + n) / 50 - S L / 50)) by lia.
      done.
    + destruct Hstep as (-> & _).
      replace (S L / 50) with (L / 50) by lia. done.
Qed.

(** C8. With no training already under way, [retrainWithFeedback] retrains
    both forests exactly when the size of the training set, after the append
    and any trim, is a multiple of 50; and fifty feedback calls on a freshly
    constructed engine, which holds the 250 synthetic samples, retrain
    exactly once. *)
Theorem retrain_on_multiples_of_fifty :
  (forall s f isThreat g,
     isTraining s = false ->
     let r := retrainWithFeedback shuffle s f isThreat g in
     let data := trainingData r.1.1 in
     if length data mod 50 =? 0
     then r.1.2 = [ModelsTrained]
          /\ randomForest r.1.1 = (RandomForest.train (randomForest s) data g).1.1
          /\ isolationForest r.1.1
             = (IsolationForest.train shuffle (isolationForest s) (map features data)
                  (RandomForest.train (randomForest s) data g).2).1
          /\ modelTrained r.1.1 = true
     else r.1.2 = []
          /\ randomForest r.1.1 = randomForest s
          /\ isolationForest r.1.1 = isolationForest s)
  /\ (forall g calls,
        length calls = 50 ->
        let built := new shuffle g in
        length (trainingData built.1.1) = 250
        /\ (feedbackRun shuffle built.1.1 calls built.2).1.2 = [ModelsTrained]).
Proof.
  split; [exact retrain_step|].
  intros g calls Hcalls built.
  destruct (new_consistent shuffle g) as (Hcons & Hlen & _). fold built in Hcons, Hlen.
  split; [exact Hlen|].
  pose proof (feedbackRun_count calls built.1.1 built.2 (cons_idle _ Hcons)) as H.
  rewrite Hlen, Hcalls in H. destruct (H ltac:(lia)) as (-> & _). reflexivity.
Qed.

(** C9. [getModelStats] leaves the engine as it was and reads out the number
    of training samples, the trained flag and the length of the feature
    history.  Its lastTrainingTime is null when the models are not trained;
    when they are, it is the time of the call itself, whatever the time of
    the last training was: two readouts at different times differ although
    nothing was trained in between. *)
Theorem getModelStats_readout s now later :
  (getModelStats s now).1 = s
  /\ trainingDataSize (getModelStats s now).2 = length (trainingData s)
  /\ stats_modelTrained (getModelStats s now).2 = modelTrained s
  /\ featureHistorySize (getModelStats s now).2 = length (featureHistory s)
  /\ lastTrainingTime (getModelStats s now).2
     = (if modelTrained s then Some now else None)
  /\ (if modelTrained s
      then now <> later ->
           lastTrainingTime (getModelStats s now).2
           <> lastTrainingTime (getModelStats (getModelStats s now).1 later).2
      else True).
Proof.
  unfold getModelStats. simpl. repeat split.
  destruct (modelTrained s); [|done]. congruence.
Qed.

End Feedback.

Lemma retrain_on_multiples_of_fifty_witness :
  MLThreatDetection.isTraining untrainedEngine = false
  /\ length (repeat (sampleFeature, true) 50) = 50
  /\ (MLThreatDetection.retrainWithFeedback noShuffle untrainedEngine sampleFeature true zeroDraws).1.2 = []
  /\ (feedbackRun noShuffle (MLThreatDetection.new noShuffle zeroDraws).1.1 (repeat (sampleFeature, true) 50)
        (MLThreatDetection.new noShuffle zeroDraws).2).1.2
     = [ModelsTrained].
Proof.
  split; [reflexivity|]. split; [reflexivity|]. split.
  - exact (proj1 (proj1 (retrain_on_multiples_of_fifty noShuffle)
                    untrainedEngine sampleFeature true zeroDraws eq_refl)).
  - exact (proj2 (proj2 (retrain_on_multiples_of_fifty noShuffle)
                    zeroDraws (repeat (sampleFeature, true) 50) eq_refl)).
Defined.


(** ** Decision tree and random forest: what a trained model returns *)

Section TrainedModels.

(** C10. On a non-empty sample list, whatever [maxDepth] and [minSamples],
    [train] returns a tree in which every internal node has both children,
    each grown from a non-empty side of the node's split (a split with an
    empty side costs infinity and is not chosen), and [predict] on that tree
    returns a value for every input, meeting no [null] child.  On the empty
    list, [train] throws, from the [reduce] of [majorityClass] over an empty
    array. *)
Theorem train_grows_full_tree maxDepth minSamples :
  DecisionTree.train DecisionTree.new [] maxDepth minSamples = Throw ReduceOfEmptyArray
  /\ DecisionTree.majorityClass [] = Throw ReduceOfEmptyArray
  /\ (forall s rest,
        exists t,
          DecisionTree.train DecisionTree.new (s :: rest) maxDepth minSamples = Ok t
          /\ grown t (s :: rest)
          /\ forall fs, exists v, DecisionTree.predict t fs = Ok v)
  /\ (forall data fi th,
        DecisionTree.calculateGini data fi th = PosInf
        \/ ((DecisionTree.splitData data fi th).1 <> []
            /\ (DecisionTree.splitData data fi th).2 <> []))
  /\ (forall data,
        match DecisionTree.findBestSplit data with
        | Some bestSplit =>
            let sides :=
              DecisionTree.splitData data (DecisionTree.s_featureIndex bestSplit)
                (DecisionTree.s_threshold bestSplit) in
            sides.1 <> [] /\ sides.2 <> []
            /\ length sides.1 < length data /\ length sides.2 < length data
        | None => True
        end).
Proof.
  split; [apply train_empty|]. split; [apply majorityClass_empty|]. split; [|split].
  - intros s rest.
    destruct (train_grown DecisionTree.new (s :: rest) maxDepth minSamples)
      as (t & Ht & Hg); [done|done|].
    exists t. split; [done|]. split; [done|]. by apply (grown_predict t (s :: rest)).
  - intros data fi th.
    destruct (DecisionTree.calculateGini data fi th) as [q| |] eqn:E.
    + right. by apply (calculateGini_finite data fi th q).
    + by left.
    + unfold DecisionTree.calculateGini in E.
      destruct (DecisionTree.splitData data fi th). by destruct (_ || _).
  - intros data. destruct (DecisionTree.findBestSplit data) as [bestSplit|] eqn:E; [|done].
    destruct (findBestSplit_sides data bestSplit E) as [Hl Hr].
    pose proof (splitData_length data (DecisionTree.s_featureIndex bestSplit)
                  (DecisionTree.s_threshold bestSplit)) as Hsum.
    cbv zeta. destruct (DecisionTree.splitData _ _ _) as [l r]. simpl in *.
    destruct l; [done|]. destruct r; [done|]. simpl in *.
    repeat split; try done; lia.
Qed.

(** C3, as the code has it.  Trained on a non-empty sample list whose samples
    all carry the label L, the tree is a leaf, and [predict] returns, for
    every input, the value [majorityClass] stored: the first entry of
    [Object.entries(counts)], that is the pair made of the key of L and the
    number of samples.  It is not the number L. *)
Theorem pure_training_set_prediction L s rest maxDepth minSamples fs :
  Forall (fun x => label x = L) (s :: rest) ->
  exists t,
    DecisionTree.train DecisionTree.new (s :: rest) maxDepth minSamples = Ok t
    /\ DecisionTree.isLeaf t = true
    /\ DecisionTree.predict t fs = Ok (VEntry L (length (s :: rest)))
    /\ DecisionTree.predict t fs <> Ok (VNum L).
Proof.
  intros Hall. unfold DecisionTree.train. rewrite train_fuel_eq.
  rewrite (isPure_single_label L _ Hall), orb_true_r.
  unfold DecisionTree.makeLeaf. rewrite (majorityClass_pure L s rest Hall).
  eexists. split; [reflexivity|]. simpl. repeat split. discriminate.
Qed.

Lemma pure_training_set_prediction_witness :
  Forall (fun x => label x = 1)
    [mkTrainingData [1%Q] 1; mkTrainingData [2%Q] 1; mkTrainingData [3%Q] 1]
  /\ exists t,
       DecisionTree.train DecisionTree.new
         [mkTrainingData [1%Q] 1; mkTrainingData [2%Q] 1; mkTrainingData [3%Q] 1] 10 2
       = Ok t
       /\ DecisionTree.predict t [5%Q] = Ok (VEntry 1 3).
Proof.
  assert (Forall (fun x => label x = 1)
            [mkTrainingData [1%Q] 1; mkTrainingData [2%Q] 1; mkTrainingData [3%Q] 1])
    as Hall by (repeat constructor).
  split; [exact Hall|].
  destruct (pure_training_set_prediction 1 (mkTrainingData [1%Q] 1)
              [mkTrainingData [2%Q] 1; mkTrainingData [3%Q] 1] 10 2 [5%Q] Hall)
    as (t & Ht & _ & Hp & _).
  exists t. split; [exact Ht|exact Hp].
Defined.

(** C4, as the code has it.  A forest of [numTrees] trees, at least one,
    trained on a non-empty sample list counts no threat vote, whatever its
    trees return: a tree returns what [majorityClass] stored, never a number,
    so no vote passes [p === 1].  [predict] then returns prediction 0 with
    confidence 1 for every input.  On samples that all carry the label 1,
    each of three trees returns the entry of label 1, and the forest still
    answers 0; and where one tree of two returns the entry of label 0 and
    the other that of label 1, the confidence is 1 all the same. *)
Theorem trained_forest_counts_no_threat :
  (forall n s rest g fs,
     let f := (RandomForest.train (RandomForest.new (S n)) (s :: rest) g).1.1 in
     exists predictions c,
       mapResult (fun t => DecisionTree.predict t fs) (RandomForest.trees f) = Ok predictions
       /\ length predictions = S n
       /\ RandomForest.threatCount predictions = 0
       /\ RandomForest.predict f fs = Ok (RandomForest.mkPrediction 0 (Fin c))
       /\ (c == 1)%Q)
  /\ (let f := (RandomForest.train (RandomForest.new 3)
                  [mkTrainingData [1%Q] 1; mkTrainingData [2%Q] 1] zeroDraws).1.1 in
      mapResult (fun t => DecisionTree.predict t [5%Q]) (RandomForest.trees f)
      = Ok [VEntry 1 2; VEntry 1 2; VEntry 1 2]
      /\ exists c,
           RandomForest.predict f [5%Q] = Ok (RandomForest.mkPrediction 0 (Fin c))
           /\ (c == 1)%Q)
  /\ (let f := (RandomForest.train (RandomForest.new 2)
                  [mkTrainingData [1%Q] 0; mkTrainingData [2%Q] 1] halfDraws).1.1 in
      mapResult (fun t => DecisionTree.predict t [5%Q]) (RandomForest.trees f)
      = Ok [VEntry 0 2; VEntry 1 2]
      /\ exists c,
           RandomForest.predict f [5%Q] = Ok (RandomForest.mkPrediction 0 (Fin c))
           /\ (c == 1)%Q).
Proof.
  split; [|split].
  - intros n s rest g fs f.
    destruct (forest_train_ok (RandomForest.new (S n)) (s :: rest) g)
      as (_ & Hn & Hlen & Hall); [done|].
    fold f in Hn, Hlen, Hall. simpl in Hn, Hlen.
    destruct (predictions_trained fs _ Hall) as (ps & Hps & Hnum).
    destruct (confidenceOf_unit 0 (S n)) as (c & Hc & _ & Hone); [lia|lia|].
    exists ps, c. split; [done|].
    split; [by rewrite (mapResult_length _ _ _ Hps)|].
    split; [by apply threatCount_no_number|].
    split; [|apply Hone; by left].
    rewrite (forest_predict_trained f fs Hall), Hn, voteOf_zero, Hc. done.
  - split; [by vm_compute|]. exists (6 # 6)%Q. split; [by vm_compute|done].
  - split; [by vm_compute|]. exists (4 # 4)%Q. split; [by vm_compute|done].
Qed.

End TrainedModels.

(** ** Isolation forest: the range of the score *)

Section IsolationScore.

Open Scope R_scope.

(** C5, amended.  For an isolation forest with at least one tree and a sample
    size above one, and every point, [predict] returns anomalyScore =
    2^(- meanPathLength / c(sampleSize)), where meanPathLength is the mean of
    [pathLength] over the trees and c(n) = 2 (ln (n - 1) + 0.5772156649) -
    2 (n - 1) / n for n > 1 and 0 otherwise; the score is a number of (0, 1],
    and isAnomaly holds exactly when it exceeds 0.6. *)
Theorem isolation_score_range (f : IsolationForest.forest) point :
  (0 < length (IsolationForest.trees f))%nat ->
  (1 < IsolationForest.sampleSize f)%nat ->
  let c (n : nat) :=
    if (n <=? 1)%nat then 0
    else 2 * (ln (INR n - 1) + 0.5772156649) - (2 * (INR n - 1) / INR n) in
  let pathLengths :=
    map (fun t => IsolationTree.pathLength t point 0) (IsolationForest.trees f) in
  let meanPathLength :=
    fold_left Rplus pathLengths 0 / INR (length (IsolationForest.trees f)) in
  let score := Rpower 2 (- meanPathLength / c (IsolationForest.sampleSize f)) in
  IsolationForest.averagePathLength = c
  /\ IsolationForest.anomalyScore (IsolationForest.predict f point) = Fin score
  /\ inHalfOpenUnit (IsolationForest.anomalyScore (IsolationForest.predict f point))
  /\ (IsolationForest.isAnomaly (IsolationForest.predict f point) = true
      <-> 0.6 < score).
Proof.
  intros Hts Hss c pathLengths meanPathLength' score.
  assert (IsolationForest.trees f <> []) as Hne.
  { destruct (IsolationForest.trees f); [simpl in Hts; lia|done]. }
  destruct (isolation_predict_ready f point Hne Hss) as (Hs & Hb & Hflag).
  split; [reflexivity|]. split; [exact Hs|]. split; [|exact Hflag].
  rewrite Hs. exact Hb.
Qed.

Lemma isolation_score_range_witness :
  inHalfOpenUnit
    (IsolationForest.anomalyScore
       (IsolationForest.predict
          (IsolationForest.mkForest
             [IsolationTree.External 1; IsolationTree.External 2] 2 2)
          [1%Q])).
Proof.
  destruct (isolation_score_range
              (IsolationForest.mkForest
                 [IsolationTree.External 1; IsolationTree.External 2] 2 2)
              [1%Q]) as (_ & _ & H & _).
  - simpl. lia.
  - simpl. lia.
  - exact H.
Defined.

(** C5 as stated fails: an isolation forest built for a sample size of one
    and trained on two points has a single external tree of size one; the
    mean path length and c(1) are both 0, the quotient [-0 / 0] is NaN and so
    is the score, which is not a number of (0, 1]. *)
Lemma isolation_score_sample_of_one :
  let f :=
    (IsolationForest.train noShuffle (IsolationForest.new 1 1)
       [[1%Q]; [2%Q]] zeroDraws).1 in
  IsolationForest.trees f = [IsolationTree.External 1]
  /\ IsolationForest.anomalyScore (IsolationForest.predict f [1%Q]) = NaN
  /\ ~ inHalfOpenUnit (IsolationForest.anomalyScore (IsolationForest.predict f [1%Q])).
Proof.
  assert ((IsolationForest.train noShuffle (IsolationForest.new 1 1)
             [[1%Q]; [2%Q]] zeroDraws).1
          = IsolationForest.mkForest [IsolationTree.External 1] 1 1) as ->
    by (by vm_compute).
  cbv zeta. split; [reflexivity|].
  assert (IsolationForest.anomalyScore
            (IsolationForest.predict
               (IsolationForest.mkForest [IsolationTree.External 1] 1 1) [1%Q])
          = NaN) as ->.
  { unfold IsolationForest.predict, IsolationForest.scoreOf, IsolationForest.mean,
      IsolationForest.averagePathLength, IsolationTree.averagePathLength.
    simpl.
    destruct (Req_dec_T 0 0) as [_|H]; [|lra].
    destruct (Req_dec_T _ 0) as [_|H]; [done|]. exfalso. apply H.
    change (IsolationTree.averagePathLength 1) with 0. lra. }
  split; [reflexivity|]. simpl. tauto.
Qed.

Close Scope R_scope.

End IsolationScore.

(** ** Security monitor: the request-volume rule *)

Section RequestVolume.

Import SecurityMonitor.

Variable hostname : string -> string.

Lemma analyzeRequest_benign (this : monitor) url :
  let currentCount := default 0 (requestCounts this !! hostname url) in
  (analyzeRequest hostname this url 200 0).2
  = (if 100 <? currentCount then [volumeEvent hostname url currentCount] else [])
  /\ requestCounts (analyzeRequest hostname this url 200 0).1 !! hostname url
     = Some (currentCount + 1).
Proof.
  intros currentCount. unfold analyzeRequest. fold currentCount.
  change (400 <=? 200)%Z with false. cbn [andb].
  change (Qle_bool 0 10000) with true. cbv iota.
  destruct (100 <? currentCount); cbn [fst snd createSecurityEvent requestCounts app];
    by rewrite lookup_insert_eq.
Qed.

Lemma analyzeRequests_benign url n :
  forall this : monitor,
    (analyzeRequests hostname this (repeat (url, 200%Z, 0%Q) n)).2
    = map (volumeEvent hostname url)
        (List.filter (fun c => 100 <? c)
           (seq (default 0 (requestCounts this !! hostname url)) n)).
Proof.
  induction n as [|n IH]; intros this; [done|].
  cbn [repeat analyzeRequests seq].
  destruct (analyzeRequest_benign this url) as [Hout Hcount]. cbv zeta in Hout, Hcount.
  destruct (analyzeRequest hostname this url 200 0) as [s1 out1]. cbn [fst snd] in *.
  specialize (IH s1). rewrite Hcount in IH. cbn [default] in IH.
  destruct (analyzeRequests hostname s1 (repeat (url, 200%Z, 0%Q) n)) as [s2 out2].
  cbn [fst snd] in *. subst out1 out2.
  cbn [List.filter]. rewrite Nat.add_1_r.
  by destruct (100 <? default 0 (requestCounts this !! hostname url)).
Qed.

Lemma filter_above_small a n :
  a + n <= 101 -> List.filter (fun c => 100 <? c) (seq a n) = [].
Proof.
  revert a. induction n as [|n IH]; intros a H; [done|].
  cbn [seq List.filter].
  destruct (100 <? a) eqn:E; [apply Nat.ltb_lt in E; lia|].
  apply IH. lia.
Qed.

Lemma filter_above_large a n :
  101 <= a -> List.filter (fun c => 100 <? c) (seq a n) = seq a n.
Proof.
  revert a. induction n as [|n IH]; intros a H; [done|].
  cbn [seq List.filter].
  destruct (100 <? a) eqn:E; [|apply Nat.ltb_ge in E; lia].
  f_equal. apply IH. lia.
Qed.

Lemma filter_above_from_zero n :
  List.filter (fun c => 100 <? c) (seq 0 n) = seq 101 (n - 101).
Proof.
  destruct (Nat.le_gt_cases n 101) as [Hle|Hgt].
  - replace (n - 101) with 0 by lia. by apply filter_above_small.
  - replace n with (101 + (n - 101)) at 1 by lia.
    rewrite seq_app, List.filter_app.
    rewrite filter_above_small by lia. rewrite filter_above_large by lia. done.
Qed.

(** C2, as the code has it.  The rule compares the count read before the
    request is added, so of the requests to one domain the 101st creates no
    event: 101 requests publish none.  The first [resource_abuse] event of
    severity medium comes with the 102nd request, and one more with each
    request after it. *)
Theorem request_volume_rule_fires_late url :
  (analyzeRequests hostname new (repeat (url, 200%Z, 0%Q) 101)).2 = []
  /\ (analyzeRequests hostname new (repeat (url, 200%Z, 0%Q) 102)).2
     = [mkSecurityEvent resource_abuse medium (hostname url) url (RequestVolume 101)]
  /\ forall n,
       (analyzeRequests hostname new (repeat (url, 200%Z, 0%Q) n)).2
       = map (volumeEvent hostname url) (seq 101 (n - 101)).
Proof.
  assert (forall n,
            (analyzeRequests hostname new (repeat (url, 200%Z, 0%Q) n)).2
            = map (volumeEvent hostname url) (seq 101 (n - 101))) as Hall.
  { intros n. rewrite analyzeRequests_benign.
    change (requestCounts new !! hostname url) with ((∅ : gmap string nat) !! hostname url).
    rewrite lookup_empty. cbn [default]. by rewrite filter_above_from_zero. }
  split; [apply (Hall 101)|]. split; [apply (Hall 102)|exact Hall].
Qed.

End RequestVolume.

(** * Further properties of the code *)

(** ** Decision tree: the label counts and the majority value *)

Section MajorityValue.

Import DecisionTree.

Lemma bump_lower_bound k counts m :
  m < k -> Forall (lt m) (map fst counts) -> Forall (lt m) (map fst (bump k counts)).
Proof.
  intros Hk. induction counts as [|[k' c] rest IH]; intros Hall; simpl.
  - by repeat constructor.
  - inversion Hall as [|? ? Hk' Hrest]; subst.
    destruct (k =? k'); [by constructor|].
    destruct (k <? k'); [constructor; [done|by constructor]|].
    constructor; [done|by apply IH].
Qed.

Lemma bump_ascending k counts : ascending counts -> ascending (bump k counts).
Proof.
  unfold ascending. induction counts as [|[k' c] rest IH]; intros Hs; simpl.
  - repeat constructor.
  - inversion Hs as [|? ? Hrest Hall]; subst.
    destruct (k =? k') eqn:E; [by constructor|]. apply Nat.eqb_neq in E.
    destruct (k <? k') eqn:E'.
    + apply Nat.ltb_lt in E'. constructor; [done|]. constructor; [done|].
      eapply Forall_impl; [exact Hall|]. simpl. intros; lia.
    + apply Nat.ltb_ge in E'. simpl. constructor; [by apply IH|].
      apply bump_lower_bound; [lia|done].
Qed.

Lemma getCount_below k counts :
  Forall (lt k) (map fst counts) -> getCount counts k = None.
Proof.
  induction counts as [|[k' c] rest IH]; intros Hall; simpl; [done|].
  inversion Hall; subst. simpl in *.
  destruct (k =? k') eqn:E; [apply Nat.eqb_eq in E; lia|]. by apply IH.
Qed.

Lemma getCount_bump k counts l :
  ascending counts ->
  getCount (bump k counts) l
  = if k =? l then Some (S (default 0 (getCount counts k))) else getCount counts l.
Proof.
  unfold ascending. induction counts as [|[k' c] rest IH]; intros Hs; simpl.
  - rewrite (Nat.eqb_sym l k). by destruct (k =? l).
  - inversion Hs as [|? ? Hrest Hall]; subst.
    destruct (k =? k') eqn:E.
    + apply Nat.eqb_eq in E. subst k'. simpl.
      destruct (l =? k) eqn:E2.
      * apply Nat.eqb_eq in E2. subst. by rewrite Nat.eqb_refl.
      * rewrite (Nat.eqb_sym k l), E2. done.
    + apply Nat.eqb_neq in E. destruct (k <? k') eqn:E'.
      * apply Nat.ltb_lt in E'. simpl.
        rewrite (getCount_below k rest)
          by (eapply Forall_impl; [exact Hall|]; simpl; intros; lia).
        rewrite (Nat.eqb_sym l k). destruct (k =? l); [done|].
        done.
      * apply Nat.ltb_ge in E'. simpl. rewrite IH by done.
        destruct (l =? k') eqn:E2.
        -- apply Nat.eqb_eq in E2. subst.
           destruct (k =? k') eqn:E3; [apply Nat.eqb_eq in E3; lia|done].
        -- done.
Qed.

Lemma countLabels_fold_ascending data acc :
  ascending acc -> ascending (fold_left (fun a s => bump (label s) a) data acc).
Proof.
  revert acc. induction data as [|s rest IH]; intros acc Hacc; simpl; [done|].
  apply IH. by apply bump_ascending.
Qed.

Lemma countLabels_ascending data : ascending (countLabels data).
Proof. apply countLabels_fold_ascending. constructor. Qed.

Lemma countLabels_fold_count data acc l :
  ascending acc ->
  default 0 (getCount (fold_left (fun a s => bump (label s) a) data acc) l)
  = default 0 (getCount acc l) + occurrences l data.
Proof.
  revert acc. induction data as [|s rest IH]; intros acc Hacc; simpl.
  - unfold occurrences. simpl. lia.
  - rewrite IH by (by apply bump_ascending). rewrite getCount_bump by done.
    unfold occurrences. simpl.
    destruct (label s =? l) eqn:E; simpl; [|lia].
    apply Nat.eqb_eq in E. subst. lia.
Qed.

(** [counts[l]] is the number of samples labelled [l]. *)
Lemma countLabels_count data l :
  default 0 (getCount (countLabels data) l) = occurrences l data.
Proof.
  unfold countLabels. rewrite countLabels_fold_count by constructor. done.
Qed.

Lemma bump_positive k counts :
  Forall (fun kc => 0 < kc.2) counts -> Forall (fun kc => 0 < kc.2) (bump k counts).
Proof.
  induction counts as [|[k' c] rest IH]; intros Hall; simpl.
  - repeat constructor.
  - inversion Hall; subst.
    destruct (k =? k'); [constructor; [simpl; lia|done]|].
    destruct (k <? k'); [constructor; [simpl; lia|by constructor]|].
    constructor; [done|by apply IH].
Qed.

Lemma countLabels_positive data : Forall (fun kc => 0 < kc.2) (countLabels data).
Proof.
  unfold countLabels.
  assert (forall acc, Forall (fun kc : nat * nat => 0 < kc.2) acc ->
            Forall (fun kc : nat * nat => 0 < kc.2)
              (fold_left (fun a s => bump (label s) a) data acc)) as H.
  { induction data as [|s rest IH]; intros acc Hacc; simpl; [done|].
    apply IH. by apply bump_positive. }
  apply H. constructor.
Qed.

Lemma getCount_entry counts k c :
  ascending counts -> In (k, c) counts -> getCount counts k = Some c.
Proof.
  unfold ascending. induction counts as [|[k' c'] rest IH]; intros Hs Hin; [done|].
  inversion Hs as [|? ? Hrest Hall]; subst. simpl.
  destruct Hin as [[= -> ->]|Hin]; [by rewrite Nat.eqb_refl|].
  destruct (k =? k') eqn:E; [|by apply IH].
  apply Nat.eqb_eq in E. subst. exfalso.
  rewrite List.Forall_forall in Hall.
  assert (k' < k') as Habs; [|lia].
  apply Hall. apply in_map_iff. by exists (k', c).
Qed.

(** The [reduce] of [majorityClass], entry by entry: the value kept has the
    largest count met so far, and of the keys with that count the last. *)
Lemma majority_fold (count : nat -> option nat) (entries : list (nat * nat)) :
  forall (a : jsval) ca,
    count (parseInt a) = Some ca ->
    Forall (fun kc => count kc.1 = Some kc.2) entries ->
    StronglySorted lt (parseInt a :: map fst entries) ->
    let r :=
      fold_left
        (fun a b => if gt_count (count (parseInt a)) (count (fst b)) then a else VKey (fst b))
        entries a in
    exists cr,
      count (parseInt r) = Some cr
      /\ (r = a \/ In (parseInt r, cr) entries)
      /\ Forall (fun kc => kc.2 <= cr /\ (kc.2 = cr -> kc.1 <= parseInt r))
           ((parseInt a, ca) :: entries).
Proof.
  induction entries as [|[k c] rest IH]; intros a ca Ha Hall Hs; cbn [fold_left].
  - exists ca. split; [done|]. split; [by left|]. repeat constructor; simpl; lia.
  - inversion Hall as [|? ? Hk Hrest]; subst. simpl in Hk.
    inversion Hs as [|? ? Hs' Hlt]; subst.
    inversion Hlt as [|? ? Hak Hlt']; subst. simpl in Hak.
    inversion Hs' as [|? ? Hs'' Hlt'']; subst.
    cbn [fst]. rewrite Ha, Hk. cbn [gt_count].
    destruct (c <? ca) eqn:E.
    + apply Nat.ltb_lt in E.
      destruct (IH a ca Ha Hrest) as (cr & Hcr & Hor & Hbest).
      { constructor; [done|done]. }
      exists cr. split; [done|]. split; [destruct Hor; [by left|right; by right]|].
      inversion Hbest as [|? ? [Hle Htie] Hbest']; subst. simpl in *.
      constructor; [done|]. constructor; [simpl; split; lia|done].
    + apply Nat.ltb_ge in E.
      destruct (IH (VKey k) c Hk Hrest) as (cr & Hcr & Hor & Hbest).
      { constructor; [done|done]. }
      exists cr. split; [done|].
      inversion Hbest as [|? ? [Hle Htie] Hbest']; subst. simpl in *.
      assert (k <= parseInt
                     (fold_left
                        (fun a b =>
                           if gt_count (count (parseInt a)) (count b.1) then a else VKey b.1)
                        rest (VKey k))) as Hkr.
      { destruct Hor as [->|Hin]; [simpl; lia|].
        rewrite List.Forall_forall in Hlt''.
        assert (k < parseInt
                      (fold_left
                         (fun a b =>
                            if gt_count (count (parseInt a)) (count b.1) then a else VKey b.1)
                         rest (VKey k))); [|lia].
        apply Hlt''. apply in_map_iff. eexists. split; [|exact Hin]. done. }
      split.
      { right. destruct Hor as [Heq|Hin]; [|by right].
        left. rewrite Heq in Hcr |- *. simpl in *. congruence. }
      constructor; [simpl; split; lia|]. constructor; [simpl; split; lia|done].
Qed.

Lemma getCount_In counts k c : getCount counts k = Some c -> In (k, c) counts.
Proof.
  induction counts as [|[k' c'] rest IH]; simpl; [done|].
  destruct (k =? k') eqn:E.
  - apply Nat.eqb_eq in E. subst. intros [= ->]. by left.
  - intros H. right. by apply IH.
Qed.

Lemma majorityClass_facts s rest :
  exists v,
    majorityClass (s :: rest) = Ok v
    /\ 0 < occurrences (parseInt v) (s :: rest)
    /\ (forall l, occurrences l (s :: rest) <= occurrences (parseInt v) (s :: rest))
    /\ (forall l,
          occurrences l (s :: rest) = occurrences (parseInt v) (s :: rest) ->
          l <= parseInt v).
Proof.
  set (data := s :: rest).
  pose proof (countLabels_ascending data) as Hasc.
  pose proof (countLabels_positive data) as Hpos.
  pose proof (countLabels_count data) as Hcount.
  unfold majorityClass.
  destruct (countLabels data) as [|[k0 c0] entries] eqn:E.
  { exfalso. by apply (countLabels_nonempty data). }
  set (counts := (k0, c0) :: entries) in *.
  destruct (majority_fold (getCount counts) entries (VEntry k0 c0) c0)
    as (cr & Hcr & Hor & Hbest).
  { apply (getCount_entry counts k0 c0); [done|by left]. }
  { apply List.Forall_forall. intros [k c] Hin.
    apply (getCount_entry counts k c); [done|by right]. }
  { exact Hasc. }
  cbv zeta in Hcr, Hor, Hbest.
  eexists. split; [reflexivity|].
  set (r := fold_left _ entries (VEntry k0 c0)) in *.
  assert (In (parseInt r, cr) counts) as Hin.
  { destruct Hor as [->|Hin]; [|by right]. left. simpl in *.
    rewrite Nat.eqb_refl in Hcr. congruence. }
  assert (occurrences (parseInt r) data = cr) as Hr.
  { rewrite <- Hcount, Hcr. done. }
  rewrite Hr. rewrite List.Forall_forall in Hpos, Hbest.
  split; [apply (Hpos _ Hin)|].
  assert (forall l, occurrences l data <= cr
                    /\ (occurrences l data = cr -> l <= parseInt r)) as Hall.
  { intros l. rewrite <- (Hcount l).
    destruct (getCount counts l) as [c|] eqn:El; simpl.
    - apply getCount_In in El. apply (Hbest (l, c)). exact El.
    - pose proof (Hpos _ Hin). simpl in *. split; lia. }
  split; intros l; apply Hall.
Qed.

(** X1. On a non-empty sample list whose labels are array indices (below
    2^32 - 1, as the engine's 0 and 1 are) [majorityClass] returns a value
    whose key is a most frequent label; when several labels are most
    frequent it is the largest of them (with labels 0 and 1, a tie goes to
    1). *)
Theorem majorityClass_most_frequent s rest :
  Forall arrayIndexLabel (s :: rest) ->
  exists v,
    majorityClass (s :: rest) = Ok v
    /\ 0 < occurrences (parseInt v) (s :: rest)
    /\ (forall l, occurrences l (s :: rest) <= occurrences (parseInt v) (s :: rest))
    /\ (forall l,
          occurrences l (s :: rest) = occurrences (parseInt v) (s :: rest) ->
          l <= parseInt v).
Proof. intros _. apply majorityClass_facts. Qed.

Lemma majorityClass_most_frequent_witness :
  exists v,
    majorityClass
      [mkTrainingData [1%Q] 1; mkTrainingData [2%Q] 0;
       mkTrainingData [3%Q] 1; mkTrainingData [4%Q] 0] = Ok v
    /\ forall l,
         occurrences l
           [mkTrainingData [1%Q] 1; mkTrainingData [2%Q] 0;
            mkTrainingData [3%Q] 1; mkTrainingData [4%Q] 0]
         = occurrences (parseInt v)
             [mkTrainingData [1%Q] 1; mkTrainingData [2%Q] 0;
              mkTrainingData [3%Q] 1; mkTrainingData [4%Q] 0] ->
         l <= parseInt v.
Proof.
  destruct (majorityClass_most_frequent (mkTrainingData [1%Q] 1)
              [mkTrainingData [2%Q] 0; mkTrainingData [3%Q] 1; mkTrainingData [4%Q] 0])
    as (v & Hv & _ & _ & Htie).
  - repeat constructor; unfold arrayIndexLabel; simpl; lia.
  - exists v. split; [exact Hv|exact Htie].
Defined.

End MajorityValue.

(** ** Decision tree: the Gini impurity *)

Section GiniFacts.

Import DecisionTree.

Open Scope Q_scope.

Lemma gini_fold (f : nat * nat -> Q) (counts : list (nat * nat)) (a : Q) :
  fold_left (fun g kc => g - f kc) counts a == a - sumQ (map f counts).
Proof.
  revert a. induction counts as [|kc rest IH]; intros a; simpl; [lra|].
  rewrite IH. lra.
Qed.

Lemma sumQ_le (f g : nat * nat -> Q) (counts : list (nat * nat)) :
  Forall (fun kc => f kc <= g kc) counts ->
  sumQ (map f counts) <= sumQ (map g counts).
Proof.
  induction 1 as [|kc rest Hkc Hrest IH]; simpl; lra.
Qed.

Lemma sumQ_lt (f g : nat * nat -> Q) (counts : list (nat * nat)) :
  Forall (fun kc => f kc <= g kc) counts ->
  Exists (fun kc => f kc < g kc) counts ->
  sumQ (map f counts) < sumQ (map g counts).
Proof.
  intros Hall Hex. induction Hex as [kc rest Hkc|kc rest Hex IH]; simpl.
  - inversion Hall; subst. pose proof (sumQ_le f g rest H2). lra.
  - inversion Hall; subst. specialize (IH H2). lra.
Qed.

Lemma ratio_add (a b n : nat) :
  (0 < n)%nat -> ratio (a + b) n == ratio a n + ratio b n.
Proof.
  intros Hn. unfold ratio. rewrite Nat2Z.inj_add, inject_Z_plus.
  assert (~ inject_Z (Z.of_nat n) == 0).
  { change 0 with (inject_Z 0). rewrite inject_Z_injective. lia. }
  field. done.
Qed.

Lemma ratio_range (c n : nat) :
  (0 < c)%nat -> (c <= n)%nat -> 0 < ratio c n /\ ratio c n <= 1.
Proof.
  intros Hc Hn. unfold ratio.
  assert (0 < inject_Z (Z.of_nat n)) as HN.
  { change (inject_Z 0 < inject_Z (Z.of_nat n)). rewrite <- Zlt_Qlt. lia. }
  assert (0 < inject_Z (Z.of_nat c)) as HC.
  { change (inject_Z 0 < inject_Z (Z.of_nat c)). rewrite <- Zlt_Qlt. lia. }
  assert (inject_Z (Z.of_nat c) <= inject_Z (Z.of_nat n)) as HCN.
  { rewrite <- Zle_Qle. lia. }
  split.
  - apply Qlt_shift_div_l; [done|]. lra.
  - apply Qle_shift_div_r; [done|]. lra.
Qed.

Lemma ratio_below_one (c n : nat) : (0 < c)%nat -> (c < n)%nat -> ratio c n < 1.
Proof.
  intros Hc Hn. unfold ratio.
  assert (0 < inject_Z (Z.of_nat n)) as HN.
  { change (inject_Z 0 < inject_Z (Z.of_nat n)). rewrite <- Zlt_Qlt. lia. }
  assert (inject_Z (Z.of_nat c) < inject_Z (Z.of_nat n)) as HCN.
  { rewrite <- Zlt_Qlt. lia. }
  apply Qlt_shift_div_r; [done|]. lra.
Qed.

Lemma bump_sum (k : nat) (counts : list (nat * nat)) :
  list_sum (map snd (bump k counts)) = S (list_sum (map snd counts)).
Proof.
  induction counts as [|[k' c] rest IH]; simpl; [done|].
  destruct (k =? k'); [simpl; lia|]. destruct (k <? k'); simpl; [done|].
  rewrite IH. lia.
Qed.

Lemma countLabels_sum data : list_sum (map snd (countLabels data)) = length data.
Proof.
  unfold countLabels.
  assert (forall acc,
            list_sum (map snd (fold_left (fun a s => bump (label s) a) data acc))
            = (list_sum (map snd acc) + length data)%nat) as H.
  { induction data as [|s rest IH]; intros acc; simpl; [lia|].
    rewrite IH, bump_sum. lia. }
  rewrite H. done.
Qed.

Lemma sum_of_ratios (counts : list (nat * nat)) (n : nat) :
  (0 < n)%nat ->
  sumQ (map (fun kc => ratio kc.2 n) counts) == ratio (list_sum (map snd counts)) n.
Proof.
  intros Hn. induction counts as [|[k c] rest IH]; simpl.
  - unfold ratio. simpl. field.
    change 0 with (inject_Z 0). rewrite inject_Z_injective. lia.
  - rewrite IH, ratio_add by done. lra.
Qed.

Lemma entry_at_most_sum (counts : list (nat * nat)) kc :
  In kc counts -> (kc.2 <= list_sum (map snd counts))%nat.
Proof.
  induction counts as [|kc' rest IH]; intros Hin; [done|].
  simpl. destruct Hin as [->|Hin]; [lia|]. specialize (IH Hin). lia.
Qed.

Lemma two_entries_below_sum (counts : list (nat * nat)) kc kc' :
  In kc counts -> In kc' counts -> kc <> kc' ->
  (kc.2 + kc'.2 <= list_sum (map snd counts))%nat.
Proof.
  induction counts as [|x rest IH]; intros Hin Hin' Hne; [done|]. simpl.
  destruct Hin as [->|Hin], Hin' as [->|Hin'].
  - done.
  - pose proof (entry_at_most_sum rest kc' Hin'). lia.
  - pose proof (entry_at_most_sum rest kc Hin). lia.
  - specialize (IH Hin Hin' Hne). lia.
Qed.

(** The impurity, as one minus a sum of squares. *)
Lemma giniImpurity_sum s rest :
  giniImpurity (s :: rest)
  == 1 - sumQ (map (fun kc => ratio kc.2 (length (s :: rest))
                              * ratio kc.2 (length (s :: rest)))
                 (countLabels (s :: rest))).
Proof.
  unfold giniImpurity. cbn [length Nat.eqb].
  apply (gini_fold (fun kc => ratio kc.2 (S (length rest)) * ratio kc.2 (S (length rest)))).
Qed.

Lemma giniImpurity_facts data :
  0 <= giniImpurity data
  /\ giniImpurity data < 1
  /\ (isPure data = true -> giniImpurity data == 0)
  /\ (isPure data = false -> 0 < giniImpurity data).
Proof.
  destruct data as [|s rest].
  { unfold giniImpurity. simpl. repeat split; try lra; done. }
  set (data := s :: rest). set (n := length data).
  assert (0 < n)%nat as Hn by (subst n data; simpl; lia).
  pose proof (giniImpurity_sum s rest) as Hg. fold data in Hg. fold n in Hg.
  pose proof (countLabels_sum data) as Hsum. fold n in Hsum.
  pose proof (countLabels_positive data) as Hpos.
  pose proof (sum_of_ratios (countLabels data) n Hn) as Hone.
  rewrite Hsum in Hone.
  assert (ratio n n == 1) as Hnn.
  { unfold ratio. field. change 0 with (inject_Z 0). rewrite inject_Z_injective. lia. }
  rewrite Hnn in Hone.
  assert (Forall (fun kc : nat * nat => 0 < ratio kc.2 n /\ ratio kc.2 n <= 1)
            (countLabels data)) as Hrange.
  { apply List.Forall_forall. intros kc Hin. apply ratio_range.
    - rewrite List.Forall_forall in Hpos. by apply Hpos.
    - rewrite <- Hsum. by apply entry_at_most_sum. }
  assert (sumQ (map (fun kc => ratio kc.2 n * ratio kc.2 n) (countLabels data))
          <= sumQ (map (fun kc => ratio kc.2 n) (countLabels data))) as Hle.
  { apply sumQ_le. eapply Forall_impl; [exact Hrange|]. simpl. intros kc [H0 H1]. nra. }
  assert (0 < sumQ (map (fun kc => ratio kc.2 n * ratio kc.2 n) (countLabels data)))
    as Hpositive.
  { pose proof (countLabels_nonempty data ltac:(done)) as Hne.
    destruct (countLabels data) as [|kc rest']; [done|]. simpl.
    inversion Hrange as [|? ? [H0 H1] Hrest]; subst.
    assert (0 <= sumQ (map (fun kc => ratio kc.2 n * ratio kc.2 n) rest')).
    { clear -Hrest. induction Hrest as [|x l [Hx0 Hx1] Hl IH]; simpl; [lra|nra]. }
    nra. }
  split; [lra|]. split; [lra|]. split.
  - intros Hpure.
    assert (Forall (fun x => label x = label s) data) as Hall.
    { apply List.Forall_forall. intros x Hx. simpl in Hpure.
      rewrite Nat.eqb_refl in Hpure. simpl in Hpure.
      destruct Hx as [<-|Hx]; [done|].
      rewrite forallb_forall in Hpure. apply Nat.eqb_eq. by apply Hpure. }
    rewrite Hg.
    replace (countLabels data) with [(label s, n)]
      by (symmetry; exact (countLabels_pure (label s) s rest Hall)).
    cbn [map sumQ snd]. rewrite Hnn. lra.
  - intros Himpure.
    assert (exists x, In x rest /\ label x <> label s) as (x & Hx & Hlx).
    { simpl in Himpure. rewrite Nat.eqb_refl in Himpure. simpl in Himpure.
      apply not_true_iff_false in Himpure.
      destruct (existsb (fun d0 => negb (label d0 =? label s)) rest) eqn:E.
      - apply existsb_exists in E as (x & Hx & Hlx). exists x. split; [done|].
        apply negb_true_iff, Nat.eqb_neq in Hlx. done.
      - exfalso. apply Himpure. apply forallb_forall. intros y Hy.
        destruct (label y =? label s) eqn:Ey; [done|]. exfalso.
        assert (existsb (fun d0 => negb (label d0 =? label s)) rest = true); [|congruence].
        apply existsb_exists. exists y. by rewrite Ey. }
    pose proof (countLabels_count data (label s)) as Hcs.
    pose proof (countLabels_count data (label x)) as Hcx.
    assert (0 < occurrences (label s) data)%nat as Hos.
    { unfold occurrences, data. simpl. rewrite Nat.eqb_refl. simpl. lia. }
    assert (0 < occurrences (label x) data)%nat as Hox.
    { unfold occurrences, data. simpl.
      assert (0 < length (List.filter (fun s0 => label s0 =? label x) rest))%nat.
      { apply in_split in Hx as (l1 & l2 & ->). rewrite List.filter_app. simpl.
        rewrite Nat.eqb_refl, length_app. simpl. lia. }
      destruct (label s =? label x); simpl; lia. }
    destruct (getCount (countLabels data) (label s)) as [cs|] eqn:Es; [|simpl in Hcs; lia].
    destruct (getCount (countLabels data) (label x)) as [cx|] eqn:Ex; [|simpl in Hcx; lia].
    simpl in Hcs, Hcx.
    apply getCount_In in Es, Ex.
    pose proof (two_entries_below_sum _ _ _ Es Ex ltac:(congruence)) as Htwo.
    rewrite Hsum in Htwo. simpl in Htwo.
    assert (sumQ (map (fun kc => ratio kc.2 n * ratio kc.2 n) (countLabels data))
            < sumQ (map (fun kc => ratio kc.2 n) (countLabels data))) as Hlt.
    { apply sumQ_lt.
      - eapply Forall_impl; [exact Hrange|]. simpl. intros kc [H0 H1]. nra.
      - apply List.Exists_exists. exists (label s, cs). split; [done|]. simpl.
        pose proof (ratio_range cs n ltac:(lia) ltac:(lia)) as [H0 _].
        pose proof (ratio_below_one cs n ltac:(lia) ltac:(lia)). nra. }
    lra.
Qed.

(** X2. The Gini impurity of a sample list is a number of [0, 1); it is 0
    when the list is empty or all its samples share one label, and positive
    as soon as two labels occur. *)
Theorem giniImpurity_range data :
  0 <= giniImpurity data
  /\ giniImpurity data < 1
  /\ (isPure data = true -> giniImpurity data == 0)
  /\ (isPure data = false -> 0 < giniImpurity data).
Proof. apply giniImpurity_facts. Qed.

Lemma splitData_nan_left data fi : (splitData data fi None).1 = [].
Proof.
  unfold splitData. cbn [fst].
  induction data as [|x l IH]; simpl; [done|].
  unfold le_num at 1. by destruct (features x !! fi).
Qed.

Lemma splitData_permutation data fi th :
  Permutation ((splitData data fi th).1 ++ (splitData data fi th).2) data.
Proof.
  unfold splitData. cbn [fst snd].
  induction data as [|s rest IH]; simpl; [done|].
  destruct (le_num (features s !! fi) th); simpl.
  - by constructor.
  - rewrite <- Permutation_middle. by constructor.
Qed.

(** X3. [splitData] deals every sample to exactly one side, and
    [calculateGini] costs a split at infinity exactly when a side is empty
    (always so for a NaN threshold); otherwise the cost is a number of
    [0, 1).  It is never NaN. *)
Theorem calculateGini_cost data fi th :
  let sides := splitData data fi th in
  Permutation (sides.1 ++ sides.2) data
  /\ (th = None -> sides.1 = [])
  /\ match calculateGini data fi th with
     | PosInf => sides.1 = [] \/ sides.2 = []
     | Fin q => sides.1 <> [] /\ sides.2 <> [] /\ 0 <= q /\ q < 1
     | NaN => False
     end.
Proof.
  intros sides. split; [apply splitData_permutation|]. split.
  { intros ->. apply splitData_nan_left. }
  pose proof (splitData_length data fi th) as Hsum. fold sides in Hsum.
  unfold calculateGini. fold sides. destruct sides as [l r]. cbn [fst snd] in *.
  destruct (length l =? 0)%nat eqn:El.
  { apply Nat.eqb_eq in El. left. by destruct l. }
  destruct (length r =? 0)%nat eqn:Er.
  { apply Nat.eqb_eq in Er. right. by destruct r. }
  cbn [orb]. apply Nat.eqb_neq in El, Er.
  split; [by destruct l|]. split; [by destruct r|].
  destruct (giniImpurity_facts l) as (Hl0 & Hl1 & _).
  destruct (giniImpurity_facts r) as (Hr0 & Hr1 & _).
  pose proof (ratio_range (length l) (length data) ltac:(lia) ltac:(lia)) as [Hwl _].
  pose proof (ratio_range (length r) (length data) ltac:(lia) ltac:(lia)) as [Hwr _].
  pose proof (ratio_add (length l) (length r) (length data) ltac:(lia)) as Hw.
  rewrite Hsum in Hw.
  assert (ratio (length data) (length data) == 1) as Hone.
  { unfold ratio. field. change 0 with (inject_Z 0). rewrite inject_Z_injective. lia. }
  rewrite Hone in Hw.
  split; nra.
Qed.

Close Scope Q_scope.

(** ** Decision tree: samples that no threshold separates *)

Lemma insertSorted_In x l y : In y (insertSorted x l) -> y = x \/ In y l.
Proof.
  induction l as [|z rest IH]; simpl; [intros [<-|[]]; by left|].
  destruct (Qle_bool z x); simpl.
  - intros [<-|H]; [right; by left|]. destruct (IH H); [by left|right; by right].
  - intros [<-|H]; [by left|by right].
Qed.

Lemma sortNumbers_In l y : In y (sortNumbers l) -> In y l.
Proof.
  unfold sortNumbers.
  assert (forall acc, In y (fold_left (fun a x => insertSorted x a) l acc) ->
                      In y acc \/ In y l) as H.
  { induction l as [|x rest IH]; intros acc Hin; simpl in *; [by left|].
    destruct (IH _ Hin) as [H|H]; [|right; by right].
    destruct (insertSorted_In _ _ _ H) as [->|H']; [right; by left|by left]. }
  intros Hin. by destruct (H [] Hin).
Qed.

Lemma sortValues_In values v : In v (sortValues values) -> In v values.
Proof.
  unfold sortValues. rewrite in_app_iff. intros [H|H].
  - apply in_map_iff in H as (q & <- & Hq). apply sortNumbers_In in Hq.
    apply list_elem_of_In, list_elem_of_omap in Hq as (o & Ho & Hoq).
    subst o. by apply list_elem_of_In.
  - by apply filter_In in H as [H _].
Qed.

Lemma midpoints_In values th :
  In th (midpoints values) ->
  exists a b,
    In a values /\ In b values
    /\ th = match a, b with
            | Some x, Some y => Some ((x + y) / 2)%Q
            | _, _ => None
            end.
Proof.
  induction values as [|a rest IH]; [done|].
  destruct rest as [|b rest']; [done|].
  cbn [midpoints]. intros [<-|H].
  - exists a, b. split; [by left|]. split; [right; by left|done].
  - destruct (IH H) as (a' & b' & Ha & Hb & ->).
    exists a', b'. split; [by right|]. split; [by right|done].
Qed.

Lemma loops_all_infinite data (ths : nat -> list (option Q)) fis :
  (forall fi th, In th (ths fi) -> calculateGini data fi th = PosInf) ->
  fold_left (fun b fi => fold_left (consider data fi) (ths fi) b) fis (PosInf, None)
  = (PosInf, None).
Proof.
  intros Hinf. induction fis as [|fi fis IH]; simpl; [done|].
  assert (fold_left (consider data fi) (ths fi) (PosInf, None) = (PosInf, None)) as ->;
    [|exact IH].
  specialize (Hinf fi). induction (ths fi) as [|th rest IHt]; simpl; [done|].
  unfold consider at 2. rewrite (Hinf th) by (by left). simpl.
  apply IHt. intros th' Hin. apply Hinf. by right.
Qed.

Lemma splitData_identical data row fi q :
  Forall (fun x => features x = row) data ->
  row !! fi = Some q ->
  (splitData data fi (Some ((q + q) / 2)%Q)).2 = [].
Proof.
  intros Hrows Eq. unfold splitData. cbn [snd].
  induction Hrows as [|x l Hx Hl IH]; simpl; [done|].
  rewrite Hx, Eq. simpl.
  assert (Qle_bool q ((q + q) / 2) = true) as ->; [|done].
  apply Qle_bool_iff. unfold Qdiv. change (/ 2)%Q with (1 # 2)%Q. lra.
Qed.

Lemma findBestSplit_identical data row :
  Forall (fun x => features x = row) data -> findBestSplit data = None.
Proof.
  intros Hrows. unfold findBestSplit.
  rewrite (loops_all_infinite data
             (fun fi => midpoints (sortValues (map (fun x => features x !! fi) data))));
    [done|].
  intros fi th Hth.
  apply midpoints_In in Hth as (a & b & Ha & Hb & ->).
  apply sortValues_In, in_map_iff in Ha as (xa & <- & Hxa).
  apply sortValues_In, in_map_iff in Hb as (xb & <- & Hxb).
  pose proof Hrows as Hall. rewrite List.Forall_forall in Hall.
  rewrite (Hall xa Hxa), (Hall xb Hxb).
  unfold calculateGini.
  destruct (row !! fi) as [q|] eqn:Eq.
  - pose proof (splitData_identical data row fi q Hrows Eq) as Hright.
    destruct (splitData data fi (Some ((q + q) / 2)%Q)) as [l r]. simpl in Hright.
    subst r. simpl. by rewrite orb_true_r.
  - pose proof (splitData_nan_left data fi) as Hleft.
    destruct (splitData data fi None) as [l r]. simpl in Hleft. by subst l.
Qed.

(** X4. When all samples have the same feature vector, no threshold separates
    them: every candidate split has an empty side, [findBestSplit] returns
    null, and [train] makes the tree a single leaf whatever the labels. *)
Theorem identical_rows_make_a_leaf row s rest maxDepth minSamples :
  Forall (fun x => features x = row) (s :: rest) ->
  findBestSplit (s :: rest) = None
  /\ exists t,
       train new (s :: rest) maxDepth minSamples = Ok t
       /\ isLeaf t = true
       /\ majorityClass (s :: rest) = Ok (prediction t).
Proof.
  intros Hrows.
  pose proof (findBestSplit_identical _ _ Hrows) as Hnone.
  split; [done|].
  unfold train. rewrite train_fuel_eq, Hnone.
  destruct (majorityClass_nonempty (s :: rest) ltac:(done)) as [v Hv].
  unfold makeLeaf. rewrite Hv.
  destruct (_ || _); eexists; (split; [reflexivity|]); by simpl.
Qed.

Lemma identical_rows_make_a_leaf_witness :
  Forall (fun x => features x = [1%Q; 2%Q])
    [mkTrainingData [1%Q; 2%Q] 0; mkTrainingData [1%Q; 2%Q] 1;
     mkTrainingData [1%Q; 2%Q] 1; mkTrainingData [1%Q; 2%Q] 0]
  /\ findBestSplit
       [mkTrainingData [1%Q; 2%Q] 0; mkTrainingData [1%Q; 2%Q] 1;
        mkTrainingData [1%Q; 2%Q] 1; mkTrainingData [1%Q; 2%Q] 0]
     = None.
Proof.
  assert (Forall (fun x => features x = [1%Q; 2%Q])
            [mkTrainingData [1%Q; 2%Q] 0; mkTrainingData [1%Q; 2%Q] 1;
             mkTrainingData [1%Q; 2%Q] 1; mkTrainingData [1%Q; 2%Q] 0]) as Hrows
    by (repeat constructor).
  split; [exact Hrows|].
  exact (proj1 (identical_rows_make_a_leaf [1%Q; 2%Q] _ _ 10 2 Hrows)).
Defined.

End GiniFacts.

(** ** Decision tree: the shape of a trained tree and the labels it predicts *)

Section TreeShape.

Import DecisionTree.

Lemma train_fuel_shape fuel :
  forall this data maxDepth minSamples t,
    isLeaf this = false ->
    data <> [] ->
    train_fuel fuel this data maxDepth minSamples = Some (Ok t) ->
    1 <= leafCount t <= length data
    /\ treeDepth t < length data
    /\ ((0 <= maxDepth)%Z -> treeDepth t <= Z.to_nat maxDepth)
    /\ ((Z.of_nat (length data) < minSamples)%Z -> isLeaf t = true).
Proof.
  induction fuel as [|fuel IH]; intros this data maxDepth minSamples t Hthis Hne;
    rewrite train_fuel_eq.
  all: assert (0 < length data) as Hpos by (destruct data; [done|simpl; lia]).
  all: assert (forall t,
         Some (makeLeaf this data) = Some (Ok t) ->
         1 <= leafCount t <= length data
         /\ treeDepth t < length data
         /\ ((0 <= maxDepth)%Z -> treeDepth t <= Z.to_nat maxDepth)
         /\ ((Z.of_nat (length data) < minSamples)%Z -> isLeaf t = true)) as Hleaf
    by (intros t'; unfold makeLeaf; destruct (majorityClass data); [|done];
        intros [= <-]; simpl; repeat split; (lia || done)).
  all: destruct (maxDepth =? 0)%Z eqn:Ed; [apply Hleaf|].
  all: destruct (Z.of_nat (length data) <? minSamples)%Z eqn:Em; [apply Hleaf|].
  all: destruct (isPure data); [apply Hleaf|]; cbn [orb].
  all: destruct (findBestSplit data) as [bestSplit|] eqn:Hsplit; [|apply Hleaf].
  - done.
  - destruct (findBestSplit_sides data bestSplit Hsplit) as [Hl Hr].
    pose proof (splitData_length data (s_featureIndex bestSplit) (s_threshold bestSplit))
      as Hsum.
    destruct (splitData data (s_featureIndex bestSplit) (s_threshold bestSplit))
      as [left_ right_]. cbn [fst snd] in *.
    destruct (train_fuel fuel new left_ (maxDepth - 1) minSamples) as [[l|]|] eqn:El;
      [|done|done].
    destruct (train_fuel fuel new right_ (maxDepth - 1) minSamples) as [[r|]|] eqn:Er;
      [|done|done].
    intros [= <-].
    destruct (IH new _ _ _ _ eq_refl Hl El) as (Hl1 & Hl2 & Hl3 & _).
    destruct (IH new _ _ _ _ eq_refl Hr Er) as (Hr1 & Hr2 & Hr3 & _).
    apply Z.eqb_neq in Ed. apply Z.ltb_ge in Em.
    cbn [leafCount treeDepth isLeaf leftChild rightChild]. rewrite Hthis.
    repeat split; lia.
Qed.

(** X5. The tree that [train] makes of a non-empty sample list has at least
    one and at most as many leaves as there are samples, is less deep than
    the number of samples, is at most [maxDepth] deep when [maxDepth] is not
    negative, and is a single leaf when there are fewer samples than
    [minSamples]; [train] fails only on the empty list. *)
Theorem trained_tree_size data maxDepth minSamples :
  match train new data maxDepth minSamples with
  | Ok t =>
      1 <= leafCount t <= length data
      /\ treeDepth t < length data
      /\ ((0 <= maxDepth)%Z -> treeDepth t <= Z.to_nat maxDepth)
      /\ ((Z.of_nat (length data) < minSamples)%Z -> isLeaf t = true)
  | Throw _ => data = []
  end.
Proof.
  destruct data as [|s rest]; [by rewrite train_empty|].
  destruct (train_grown new (s :: rest) maxDepth minSamples eq_refl ltac:(done))
    as (t & Ht & _).
  rewrite Ht.
  apply (train_fuel_shape (length (s :: rest)) new (s :: rest) maxDepth minSamples t);
    [done|done|].
  rewrite train_fuel_enough by done. by rewrite Ht.
Qed.

Lemma occurrences_filter l (f : TrainingData -> bool) data :
  occurrences l (List.filter f data) <= occurrences l data.
Proof.
  unfold occurrences. induction data as [|s rest IH]; simpl; [done|].
  destruct (f s); simpl; destruct (label s =? l); simpl; lia.
Qed.

Lemma grown_predict_label t data :
  grown t data ->
  forall fs v, predict t fs = Ok v -> 0 < occurrences (parseInt v) data.
Proof.
  induction 1 as [t data Hne Hleaf Hmaj|t data l r Hleaf Hl Hr Hnl Hnr Hgl IHl Hgr IHr];
    intros fs v.
  - destruct t; simpl in *. rewrite Hleaf. intros [= <-].
    destruct data as [|s rest]; [done|].
    destruct (majorityClass_facts s rest) as (v & Hv & Hpos & _).
    rewrite Hv in Hmaj. injection Hmaj as <-. exact Hpos.
  - destruct t; simpl in *. rewrite Hleaf, Hl, Hr.
    destruct (le_num _ _); intros Hp.
    + eapply Nat.lt_le_trans; [exact (IHl fs v Hp)|]. apply occurrences_filter.
    + eapply Nat.lt_le_trans; [exact (IHr fs v Hp)|]. apply occurrences_filter.
Qed.

(** X6. A tree trained on a non-empty sample list answers every input, and
    the key of the value it answers with is a label that occurs in the
    training samples. *)
Theorem trained_tree_predicts_seen_label data maxDepth minSamples fs :
  match train new data maxDepth minSamples with
  | Ok t => exists v, predict t fs = Ok v /\ 0 < occurrences (parseInt v) data
  | Throw _ => data = []
  end.
Proof.
  destruct data as [|s rest]; [by rewrite train_empty|].
  destruct (train_grown new (s :: rest) maxDepth minSamples eq_refl ltac:(done))
    as (t & -> & Hg).
  destruct (grown_predict t _ Hg fs) as [v Hv].
  exists v. split; [done|]. by apply (grown_predict_label t _ Hg fs).
Qed.

End TreeShape.

(** ** Random forest: bootstrap samples and training *)

Section ForestTraining.

Import RandomForest.

Lemma bootstrapLoop_draws data n :
  n = 0 \/ data <> [] ->
  forall acc g,
    exists l,
      (bootstrapLoop n data (map Some acc) g).1 = map Some (acc ++ l)
      /\ length l = n
      /\ Forall (fun s => In s data) l
      /\ forall k, (bootstrapLoop n data (map Some acc) g).2 k = g (n + k).
Proof.
  induction n as [|n IH]; intros Hn acc g; cbn [bootstrapLoop].
  - exists []. by rewrite app_nil_r.
  - destruct Hn as [|Hne]; [done|].
    destruct (randomIndex (length data) g) as [i g'] eqn:Hi.
    assert (i < length data) as Hlt.
    { change i with (i, g').1. rewrite <- Hi. apply randomIndex_lt.
      destruct data; [done|simpl; lia]. }
    assert (forall k, g' k = g (S k)) as Hg.
    { intros k. unfold randomIndex, random in Hi. by injection Hi as _ <-. }
    destruct (lookup_lt_is_Some_2 data i Hlt) as [x Hx]. rewrite Hx.
    replace (map Some acc ++ [Some x]) with (map Some (acc ++ [x]))
      by (by rewrite map_app).
    destruct (IH (or_intror Hne) (acc ++ [x]) g') as (l & Hl & Hlen & Hin & Hrng).
    exists (x :: l). rewrite Hl, <- app_assoc. split; [done|].
    split; [simpl; lia|]. split.
    + constructor; [|done]. apply list_elem_of_In. by eapply list_elem_of_lookup_2.
    + intros k. by rewrite Hrng, Hg.
Qed.

Lemma bootstrap_sample data g :
  exists l,
    (bootstrap data g).1 = map Some l
    /\ length l = length data
    /\ Forall (fun s => In s data) l
    /\ forall k, (bootstrap data g).2 k = g (length data + k).
Proof.
  unfold bootstrap.
  destruct (bootstrapLoop_draws data (length data)
              ltac:(destruct data; [by left|by right]) [] g) as (l & Hl & H).
  exists l. by split.
Qed.

(** X7. [bootstrap] returns as many samples as it is given, each of them one
    of the given samples (never [undefined]), and uses one random number per
    sample. *)
Theorem bootstrap_resamples data g :
  exists l,
    (bootstrap data g).1 = map Some l
    /\ length l = length data
    /\ (forall s, In s l -> In s data)
    /\ (forall k, (bootstrap data g).2 k = g (length data + k)).
Proof.
  destruct (bootstrap_sample data g) as (l & Hl & Hlen & Hin & Hrng).
  exists l. repeat split; try done. by apply List.Forall_forall.
Qed.

Lemma occurrences_positive l data :
  0 < occurrences l data <-> exists s, In s data /\ label s = l.
Proof.
  unfold occurrences. induction data as [|s rest IH]; simpl.
  - split; [lia|]. by intros (s & [] & _).
  - destruct (label s =? l) eqn:E.
    + apply Nat.eqb_eq in E. simpl. split; [|lia]. intros _. exists s. split; [by left|done].
    + apply Nat.eqb_neq in E. rewrite IH. split.
      * intros (x & Hx & Hl). exists x. split; [by right|done].
      * intros (x & [->|Hx] & Hl); [done|]. by exists x.
Qed.

(** A tree grown from samples drawn from [data]. *)
Lemma trainLoop_resampled data :
  data <> [] ->
  forall n acc g,
    Forall (fun t => exists l, grown t l /\ Forall (fun s => In s data) l) acc ->
    (trainLoop n data acc g).1.2 = Ok tt
    /\ length (trainLoop n data acc g).1.1 = length acc + n
    /\ Forall (fun t => exists l, grown t l /\ Forall (fun s => In s data) l)
         (trainLoop n data acc g).1.1.
Proof.
  intros Hne. induction n as [|n IH]; intros acc g Hacc; simpl.
  - repeat split; [lia|done].
  - destruct (bootstrap_sample data g) as (l & Hl & Hlen & Hin & _).
    destruct (bootstrap data g) as [bootstrapData g'] eqn:Hb. simpl in Hl. subst.
    assert (l <> []) as Hlne.
    { destruct data; [done|]. by destruct l. }
    destruct (trainTree_grown l Hlne) as (t & -> & Ht).
    destruct (IH (acc ++ [t]) g') as (Hr & Hlen' & Hall).
    { apply Forall_app. split; [done|]. constructor; [by exists l|done]. }
    rewrite length_app in Hlen'. simpl in Hlen'.
    repeat split; [done|lia|done].
Qed.

(** X8. [train] discards the forest's trees and then, on a non-empty sample
    list, builds exactly [numTrees] trees, each of which answers every input
    with a value whose key is a label of the given samples; on the empty list
    the first tree's training throws and the forest is left without trees
    (with [numTrees = 0] nothing is trained and nothing thrown). *)
Theorem forest_train_outcome this data g :
  let out := train this data g in
  numTrees out.1.1 = numTrees this
  /\ match data with
     | [] =>
         trees out.1.1 = []
         /\ out.1.2 = (if numTrees this =? 0 then Ok tt else Throw ReduceOfEmptyArray)
     | _ :: _ =>
         out.1.2 = Ok tt
         /\ length (trees out.1.1) = numTrees this
         /\ Forall
              (fun t => forall fs,
                 exists v, DecisionTree.predict t fs = Ok v
                           /\ 0 < occurrences (parseInt v) data)
              (trees out.1.1)
     end.
Proof.
  cbv zeta. unfold train. destruct data as [|s rest].
  - destruct (numTrees this) as [|n] eqn:En; [done|].
    cbn [trainLoop]. unfold bootstrap. cbn [length bootstrapLoop].
    by replace (trainTree []) with (@Throw DecisionTree.tree ReduceOfEmptyArray)
      by reflexivity.
  - destruct (trainLoop_resampled (s :: rest) ltac:(done) (numTrees this) [] g)
      as (Hr & Hlen & Hall); [done|].
    destruct (trainLoop (numTrees this) (s :: rest) [] g) as [[ts r] g'].
    cbn [fst snd trees numTrees] in *. repeat split; try done.
    eapply List.Forall_impl; [|exact Hall]. cbv beta.
    intros t (l & Hg & Hin) fs.
    destruct (grown_predict t l Hg fs) as [v Hv]. exists v. split; [done|].
    pose proof (grown_predict_label t l Hg fs v Hv) as Hpos.
    apply occurrences_positive in Hpos as (x & Hx & Hlab).
    apply occurrences_positive. exists x. split; [|done].
    rewrite List.Forall_forall in Hin. by apply Hin.
Qed.

End ForestTraining.

(** ** Isolation tree: the shape of a constructed tree *)

Section IsolationTreeShape.

Import IsolationTree.

Lemma filter_negb_length {A : Type} (f : A -> bool) (l : list A) :
  length (List.filter f l) + length (List.filter (fun x => negb (f x)) l) = length l.
Proof.
  induction l as [|x l IH]; simpl; [done|]. destruct (f x); simpl; lia.
Qed.

Lemma build_shape remaining :
  forall data g,
    sizeOf (build remaining data g).1 = length data
    /\ heightOf (build remaining data g).1 <= remaining
    /\ heightOf (build remaining data g).1 <= length data - 1
    /\ wellSplit (build remaining data g).1.
Proof.
  induction remaining as [|remaining IH]; intros data g; cbn [build].
  { simpl. repeat split; lia. }
  destruct (length data <=? 1) eqn:E1; [simpl; repeat split; lia|].
  destruct (randomIndex _ g) as [splitFeature g1].
  destruct (eq_num _ _); [simpl; repeat split; lia|].
  destruct (random g1) as [r g2].
  set (splitValue := match mathMin _, mathMax _ with
                     | Some lo, Some hi => Some (r * (hi - lo) + lo)%Q
                     | _, _ => None
                     end).
  pose proof (filter_negb_length
                (fun row : list Q => lt_num (row !! splitFeature) splitValue) data) as Hsum.
  cbv beta in Hsum.
  set (leftData :=
         List.filter (fun row : list Q => lt_num (row !! splitFeature) splitValue) data)
    in *.
  set (rightData :=
         List.filter (fun row : list Q => negb (lt_num (row !! splitFeature) splitValue))
           data) in *.
  destruct (length leftData =? 0) eqn:El; [simpl; repeat split; lia|].
  destruct (length rightData =? 0) eqn:Er; [simpl; repeat split; lia|].
  cbn [orb]. apply Nat.eqb_neq in El, Er.
  destruct (IH leftData g2) as (Hl1 & Hl2 & Hl3 & Hl4).
  destruct (build remaining leftData g2) as [l g3].
  destruct (IH rightData g3) as (Hr1 & Hr2 & Hr3 & Hr4).
  destruct (build remaining rightData g3) as [r' g4].
  cbn [fst sizeOf heightOf wellSplit] in *.
  repeat split; try done; lia.
Qed.

(** X9. The isolation tree constructed from [data] records [data.length] at
    its root, is at most [maxDepth - currentDepth] and at most
    [data.length - 1] levels high, and every internal node hands each of its
    rows to exactly one child, at least one row to each. *)
Theorem isolation_tree_shape data maxDepth currentDepth g :
  sizeOf (new data maxDepth currentDepth g).1 = length data
  /\ heightOf (new data maxDepth currentDepth g).1 <= maxDepth - currentDepth
  /\ heightOf (new data maxDepth currentDepth g).1 <= length data - 1
  /\ wellSplit (new data maxDepth currentDepth g).1.
Proof. apply build_shape. Qed.

Lemma minOf_constant q n : minOf (repeat (Some q) n) q = Some q.
Proof.
  induction n as [|n IH]; simpl; [done|].
  assert (Qle_bool q q = true) as -> by (apply Qle_bool_iff; lra). done.
Qed.

Lemma maxOf_constant q n : maxOf (repeat (Some q) n) q = Some q.
Proof.
  induction n as [|n IH]; simpl; [done|].
  assert (Qle_bool q q = true) as -> by (apply Qle_bool_iff; lra). done.
Qed.

Lemma map_constant {A B : Type} (f : A -> B) (l : list A) (a : A) :
  Forall (fun x => x = a) l -> map f l = repeat (f a) (length l).
Proof. induction 1 as [|x l -> Hl IH]; simpl; [done|]. by rewrite IH. Qed.

Lemma filter_none {A : Type} (f : A -> bool) (l : list A) :
  Forall (fun x => f x = false) l -> List.filter f l = [].
Proof. induction 1 as [|x l Hx Hl IH]; simpl; [done|]. by rewrite Hx. Qed.

(** X10. Rows that are all equal are never split: whatever the depth bound
    and the random numbers drawn, the tree constructed from them is a single
    external node holding all of them. *)
Theorem equal_rows_stay_external row data maxDepth currentDepth g :
  Forall (fun r => r = row) data ->
  (new data maxDepth currentDepth g).1 = External (length data).
Proof.
  intros Hrows. unfold new.
  destruct (maxDepth - currentDepth) as [|remaining]; [done|]. cbn [build].
  destruct (length data <=? 1) eqn:E1; [done|].
  destruct (randomIndex _ g) as [splitFeature g1].
  rewrite (map_constant (fun r : list Q => r !! splitFeature) data row Hrows).
  destruct data as [|row0 rest]; [done|].
  cbn [length repeat mathMin mathMax].
  destruct (row !! splitFeature) as [q|] eqn:Eq.
  - rewrite minOf_constant, maxOf_constant. cbn [eq_num].
    assert (Qeq_bool q q = true) as -> by (apply Qeq_bool_iff; lra). done.
  - cbn [eq_num]. destruct (random g1) as [r g2].
    rewrite (filter_none (fun r0 : list Q => lt_num (r0 !! splitFeature) None));
      [done|].
    eapply List.Forall_impl; [|exact Hrows]. cbv beta. intros r0 ->. by rewrite Eq.
Qed.

Lemma equal_rows_stay_external_witness :
  Forall (fun r => r = [3%Q; 4%Q]) [[3%Q; 4%Q]; [3%Q; 4%Q]; [3%Q; 4%Q]]
  /\ (new [[3%Q; 4%Q]; [3%Q; 4%Q]; [3%Q; 4%Q]] 7 0 halfDraws).1 = External 3.
Proof.
  assert (Forall (fun r => r = [3%Q; 4%Q]) [[3%Q; 4%Q]; [3%Q; 4%Q]; [3%Q; 4%Q]])
    as Hrows by (repeat constructor).
  split; [exact Hrows|].
  exact (equal_rows_stay_external [3%Q; 4%Q] _ 7 0 halfDraws Hrows).
Defined.

End IsolationTreeShape.

(** ** Isolation forest: which points are flagged *)

Section AnomalyFlag.

Open Scope R_scope.

Lemma above_threshold x : 0.6 < exp x <-> - ln (5 / 3) < x.
Proof.
  assert (- ln (5 / 3) = ln 0.6) as ->.
  { rewrite <- ln_Rinv by lra. f_equal. lra. }
  rewrite <- (exp_ln 0.6) at 1 by lra. split.
  - apply exp_lt_inv.
  - apply exp_increasing.
Qed.

Lemma scaled_threshold m c l2 l :
  0 < c -> (- l < - m / c * l2 <-> m * l2 < c * l).
Proof.
  intros Hc.
  assert (- m / c * l2 = - (m * l2) / c) as -> by (field; lra).
  assert (- l = - (c * l) / c) as -> by (field; lra).
  pose proof (Rinv_0_lt_compat c Hc) as Hk.
  unfold Rdiv. split; intros H.
  - apply (Rmult_lt_reg_r (/ c)) in H; [lra|done].
  - apply Rmult_lt_compat_r; [done|lra].
Qed.

(** X11. For an isolation forest with a tree and a sample size above one,
    a point is flagged as an anomaly exactly when its mean path length m
    satisfies m ln 2 < c(sampleSize) ln (5/3), and a point with a mean path
    length no longer than another's has a score no smaller. *)
Theorem anomaly_flag_by_path_length (f : IsolationForest.forest) point other :
  (0 < length (IsolationForest.trees f))%nat ->
  (1 < IsolationForest.sampleSize f)%nat ->
  (IsolationForest.isAnomaly (IsolationForest.predict f point) = true
   <-> meanPathLength (IsolationForest.trees f) point * ln 2
       < IsolationForest.averagePathLength (IsolationForest.sampleSize f) * ln (5 / 3))
  /\ exists sp so,
       IsolationForest.anomalyScore (IsolationForest.predict f point) = Fin sp
       /\ IsolationForest.anomalyScore (IsolationForest.predict f other) = Fin so
       /\ (meanPathLength (IsolationForest.trees f) point
           <= meanPathLength (IsolationForest.trees f) other -> so <= sp).
Proof.
  intros Hts Hss.
  assert (IsolationForest.trees f <> []) as Hne.
  { destruct (IsolationForest.trees f); [simpl in Hts; lia|done]. }
  pose proof (averagePathLength_positive _ Hss) as Hc.
  destruct (isolation_predict_ready f point Hne Hss) as (Hs & _ & Hflag).
  destruct (isolation_predict_ready f other Hne Hss) as (Hs' & _ & _).
  split.
  - rewrite Hflag. unfold Rpower. rewrite above_threshold.
    by apply scaled_threshold.
  - eexists _, _. split; [exact Hs|]. split; [exact Hs'|].
    intros Hle. apply Rle_Rpower; [lra|].
    pose proof (Rinv_0_lt_compat _ Hc) as Hk. unfold Rdiv.
    apply Rmult_le_compat_r; [lra|lra].
Qed.

Lemma anomaly_flag_by_path_length_witness :
  exists sp so,
    IsolationForest.anomalyScore
      (IsolationForest.predict
         (IsolationForest.mkForest
            [IsolationTree.External 1; IsolationTree.External 2] 2 2) [1%Q]) = Fin sp
    /\ IsolationForest.anomalyScore
         (IsolationForest.predict
            (IsolationForest.mkForest
               [IsolationTree.External 1; IsolationTree.External 2] 2 2) [2%Q]) = Fin so
    /\ (meanPathLength [IsolationTree.External 1; IsolationTree.External 2] [1%Q]
        <= meanPathLength [IsolationTree.External 1; IsolationTree.External 2] [2%Q]
        -> so <= sp).
Proof.
  destruct (anomaly_flag_by_path_length
              (IsolationForest.mkForest
                 [IsolationTree.External 1; IsolationTree.External 2] 2 2)
              [1%Q] [2%Q]) as (_ & H).
  - simpl. lia.
  - simpl. lia.
  - exact H.
Defined.

Close Scope R_scope.

End AnomalyFlag.

(** ** Isolation forest: training *)

Section IsolationTraining.

Import IsolationForest.

Variable shuffle : list (list Q) -> rng -> list (list Q) * rng.

(** The reordering keeps the number of rows. *)
Hypothesis shuffle_length : forall data g, length (shuffle data g).1 = length data.

Lemma sample_length data size g :
  length (sample shuffle data size g).1 = Nat.min size (length data).
Proof.
  unfold sample. pose proof (shuffle_length data g) as H.
  destruct (shuffle data g) as [shuffled g']. simpl in *.
  rewrite length_firstn. lia.
Qed.

Lemma trainLoop_trees (P : IsolationTree.tree -> Prop) this data maxDepth :
  (forall sampleData g,
     length sampleData = Nat.min (sampleSize this) (length data) ->
     P (IsolationTree.new sampleData maxDepth 0 g).1) ->
  forall n acc g,
    Forall P acc -> Forall P (trainLoop shuffle n this data maxDepth acc g).1.
Proof.
  intros HP. induction n as [|n IH]; intros acc g Hacc; cbn [trainLoop]; [done|].
  pose proof (sample_length data (sampleSize this) g) as Hlen.
  destruct (sample shuffle data (sampleSize this) g) as [sampleData g1].
  pose proof (HP sampleData g1 Hlen) as Ht.
  destruct (IsolationTree.new sampleData maxDepth 0 g1) as [t g2].
  apply IH. apply Forall_app. split; [done|]. by constructor.
Qed.

Lemma train_trees (P : IsolationTree.tree -> Prop) this data g :
  (forall sampleData g,
     length sampleData = Nat.min (sampleSize this) (length data) ->
     P (IsolationTree.new sampleData (Nat.log2_up (sampleSize this)) 0 g).1) ->
  Forall P (trees (train shuffle this data g).1).
Proof.
  intros HP. unfold train.
  pose proof (trainLoop_trees P this data (Nat.log2_up (sampleSize this)) HP
                (numTrees this) [] g ltac:(constructor)) as H.
  by destruct (trainLoop shuffle _ _ _ _ _ _) as [ts g'].
Qed.

(** X12. [train] replaces the forest's trees by [numTrees] new ones, each
    built from min(sampleSize, data.length) rows, at most
    ceil(log2(sampleSize)) levels high, and splitting its rows between the
    children of every internal node. *)
Theorem isolation_forest_train_shape this data g :
  numTrees (train shuffle this data g).1 = numTrees this
  /\ sampleSize (train shuffle this data g).1 = sampleSize this
  /\ length (trees (train shuffle this data g).1) = numTrees this
  /\ Forall
       (fun t =>
          sizeOf t = Nat.min (sampleSize this) (length data)
          /\ heightOf t <= Nat.log2_up (sampleSize this)
          /\ wellSplit t)
       (trees (train shuffle this data g).1).
Proof.
  destruct (if_train_shape shuffle this data g) as (Hn & Hs & Hlen).
  repeat split; try done.
  apply train_trees. intros sampleData g' Hsample.
  destruct (build_shape (Nat.log2_up (sampleSize this) - 0) sampleData g')
    as (H1 & H2 & _ & H4).
  unfold IsolationTree.new. rewrite H1, Hsample. repeat split; [lia|done].
Qed.

Open Scope R_scope.

Lemma sum_zero (l : list R) : Forall (fun x => x = 0) l -> fold_left Rplus l 0 = 0.
Proof.
  induction 1 as [|x l -> Hl IH]; simpl; [done|]. by rewrite Rplus_0_l.
Qed.

(** X13. A forest with at least one tree and a sample size above one that is
    trained on a single point, or on none, gives every point the anomaly
    score 1 and flags it. *)
Theorem single_point_training_flags_everything this data g point :
  (0 < numTrees this)%nat ->
  (1 < sampleSize this)%nat ->
  (length data <= 1)%nat ->
  anomalyScore (predict (train shuffle this data g).1 point) = Fin 1
  /\ isAnomaly (predict (train shuffle this data g).1 point) = true.
Proof.
  intros Hn Hss Hdata.
  destruct (if_train_shape shuffle this data g) as (_ & Hs & Hlen).
  pose proof (train_trees
                (fun t => exists k, t = IsolationTree.External k /\ (k <= 1)%nat)
                this data g) as Hts.
  set (f := (train shuffle this data g).1) in *.
  assert (trees f <> []) as Hne.
  { destruct (trees f); [simpl in Hlen; lia|done]. }
  assert (meanPathLength (trees f) point = 0) as Hmean.
  { unfold meanPathLength. rewrite sum_zero; [unfold Rdiv; apply Rmult_0_l|].
    apply List.Forall_forall. intros x Hx. apply in_map_iff in Hx as (t & <- & Ht).
    assert (Forall (fun t => exists k, t = IsolationTree.External k /\ (k <= 1)%nat)
              (trees f)) as Hall.
    { apply Hts. intros sampleData g' Hsample. unfold IsolationTree.new.
      destruct (Nat.log2_up (sampleSize this) - 0)%nat; simpl.
      - eexists. split; [done|lia].
      - assert ((length sampleData <=? 1)%nat = true) as ->
          by (apply Nat.leb_le; lia).
        eexists. split; [done|lia]. }
    rewrite List.Forall_forall in Hall. destruct (Hall t Ht) as (k & -> & Hk).
    simpl. unfold IsolationTree.averagePathLength.
    apply Nat.leb_le in Hk. rewrite Hk. lra. }
  destruct (isolation_predict_ready f point Hne ltac:(by rewrite Hs))
    as (Hscore & _ & Hflag).
  rewrite Hmean in Hscore, Hflag.
  assert (Rpower 2 (- 0 / averagePathLength (sampleSize f)) = 1) as H1.
  { replace (- 0 / averagePathLength (sampleSize f)) with 0
      by (unfold Rdiv; lra).
    apply Rpower_O. lra. }
  rewrite H1 in Hscore, Hflag. split; [done|]. apply Hflag. lra.
Qed.

Close Scope R_scope.

End IsolationTraining.

Lemma isolation_forest_train_shape_witness :
  length
    (IsolationForest.trees
       (IsolationForest.train noShuffle (IsolationForest.new 3 2)
          [[1%Q]; [2%Q]; [3%Q]] zeroDraws).1) = 3.
Proof.
  destruct (isolation_forest_train_shape noShuffle ltac:(reflexivity)
              (IsolationForest.new 3 2) [[1%Q]; [2%Q]; [3%Q]] zeroDraws)
    as (_ & _ & H & _).
  exact H.
Defined.

Lemma single_point_training_flags_everything_witness :
  IsolationForest.isAnomaly
    (IsolationForest.predict
       (IsolationForest.train noShuffle (IsolationForest.new 50 128)
          [[1%Q; 2%Q]] zeroDraws).1 [7%Q; 8%Q]) = true.
Proof.
  destruct (single_point_training_flags_everything noShuffle ltac:(reflexivity)
              (IsolationForest.new 50 128) [[1%Q; 2%Q]] zeroDraws [7%Q; 8%Q])
    as (_ & H).
  - simpl. lia.
  - simpl. lia.
  - simpl. lia.
  - exact H.
Defined.

(** ** The engine: synthetic data, invariants and the error path *)

Section EngineData.

Import MLThreatDetection.

Variable shuffle : list (list Q) -> rng -> list (list Q) * rng.

Lemma draw_between scale offset g :
  (0 < scale)%Q -> between offset (offset + scale) (draw scale offset g).1.
Proof.
  intros Hs. unfold draw, random, between. cbn [fst].
  pose proof (frac_bounds (g 0)) as [H0 H1]. split; nra.
Qed.

Lemma normalPattern_row g : normalRow (normalPattern g).1.
Proof.
  unfold normalPattern, draw, random, normalRow, between. cbn [fst snd].
  repeat split;
    match goal with
    | |- context [frac ?x] => pose proof (frac_bounds x) as [? ?]; lra
    end.
Qed.

Lemma threatPattern_row g : threatRow (threatPattern g).1.
Proof.
  unfold threatPattern, draw, random, threatRow, between. cbn [fst snd].
  repeat split;
    match goal with
    | |- context [frac ?x] => pose proof (frac_bounds x) as [? ?]; lra
    end.
Qed.

Lemma generate_Forall (P : list Q -> Prop) pattern :
  (forall g, P (pattern g).1) ->
  forall count patterns g,
    Forall P patterns -> Forall P (generate pattern count patterns g).1.
Proof.
  intros HP. induction count as [|count IH]; intros patterns g Hacc; simpl; [done|].
  pose proof (HP g) as Hp. destruct (pattern g) as [p g'].
  apply IH. apply Forall_app. split; [done|]. by constructor.
Qed.

(** X14. Every pattern that [generateNormalTrafficPatterns] and
    [generateThreatPatterns] make has eleven features in the ranges the code
    notes beside them (both bounds included, a normal pattern's
    suspiciousPatterns being 0), and they make [count] of them. *)
Theorem generated_patterns_in_range count g :
  length (generateNormalTrafficPatterns count g).1 = count
  /\ Forall normalRow (generateNormalTrafficPatterns count g).1
  /\ length (generateThreatPatterns count g).1 = count
  /\ Forall threatRow (generateThreatPatterns count g).1.
Proof.
  unfold generateNormalTrafficPatterns, generateThreatPatterns.
  rewrite !generate_length.
  repeat split; try done.
  - apply generate_Forall; [apply normalPattern_row|constructor].
  - apply generate_Forall; [apply threatPattern_row|constructor].
Qed.

Lemma normalRow_length p : normalRow p -> length p = 11.
Proof. do 12 (destruct p as [|? p]; try done). Qed.

Lemma threatRow_length p : threatRow p -> length p = 11.
Proof. do 12 (destruct p as [|? p]; try done). Qed.

Lemma new_trainingData g :
  exists normalPatterns threatPatterns,
    trainingData (new shuffle g).1.1
    = map (fun fs => mkTrainingData fs 0) normalPatterns
      ++ map (fun fs => mkTrainingData fs 1) threatPatterns
    /\ length normalPatterns = 200
    /\ length threatPatterns = 50
    /\ Forall normalRow normalPatterns
    /\ Forall threatRow threatPatterns.
Proof.
  unfold new.
  pose proof (generate_length normalPattern 200 [] g) as Hn1.
  pose proof (generate_Forall normalRow normalPattern normalPattern_row 200 [] g
                ltac:(constructor)) as Hn2.
  unfold generateNormalTrafficPatterns, generateThreatPatterns in *.
  destruct (generate normalPattern 200 [] g) as [normalPatterns g1].
  pose proof (generate_length threatPattern 50 [] g1) as Ht1.
  pose proof (generate_Forall threatRow threatPattern threatPattern_row 50 [] g1
                ltac:(constructor)) as Ht2.
  destruct (generate threatPattern 50 [] g1) as [threatPatterns g2].
  exists normalPatterns, threatPatterns.
  rewrite (proj1 (trainModels_trainingData shuffle _ g2)). by cbn [fst] in *.
Qed.

(** X15. The constructor leaves a trained, idle engine with an empty feature
    history that holds 250 samples, first 200 normal patterns labelled 0 and
    then 50 threat patterns labelled 1, each within its ranges (both bounds
    included), and it logs a successful training. *)
Theorem constructor_training_set g :
  exists normalPatterns threatPatterns,
    trainingData (new shuffle g).1.1
    = map (fun fs => mkTrainingData fs 0) normalPatterns
      ++ map (fun fs => mkTrainingData fs 1) threatPatterns
    /\ length normalPatterns = 200
    /\ length threatPatterns = 50
    /\ Forall normalRow normalPatterns
    /\ Forall threatRow threatPatterns
    /\ modelTrained (new shuffle g).1.1 = true
    /\ isTraining (new shuffle g).1.1 = false
    /\ featureHistory (new shuffle g).1.1 = []
    /\ (new shuffle g).1.2 = [ModelsTrained].
Proof.
  destruct (new_trainingData g) as (np & tp & Hd & Hn & Ht & Hnr & Htr).
  destruct (new_consistent shuffle g) as ([Hidle Htrained _ _ _ _ _ _ _] & _ & Hmsg).
  exists np, tp.
  split; [exact Hd|]. split; [exact Hn|]. split; [exact Ht|].
  split; [exact Hnr|]. split; [exact Htr|].
  split; [exact Htrained|]. split; [exact Hidle|]. split; [|exact Hmsg].
  unfold new.
  destruct (generateNormalTrafficPatterns 200 g) as [normalPatterns g1].
  destruct (generateThreatPatterns 50 g1) as [threatPatterns g2].
  exact (proj2 (trainModels_trainingData shuffle _ g2)).
Qed.

Lemma engineSample_kept data x :
  Forall engineSample data -> engineSample x ->
  250 <= length data <= 1000 ->
  let pushed := data ++ [x] in
  let kept := if 1000 <? length pushed then lastEntries 800 pushed else pushed in
  Forall engineSample kept /\ 250 <= length kept <= 1000.
Proof.
  intros Hall Hx Hlen pushed kept.
  assert (Forall engineSample pushed) as Hp.
  { apply Forall_app. split; [done|by constructor]. }
  assert (length pushed = S (length data)) as Hl.
  { unfold pushed. rewrite length_app. simpl. lia. }
  unfold kept. destruct (1000 <? length pushed) eqn:E.
  - apply Nat.ltb_lt in E. split.
    + unfold lastEntries. by apply Forall_drop.
    + rewrite lastEntries_length by lia. lia.
  - apply Nat.ltb_ge in E. split; [done|lia].
Qed.

Lemma reachable_samples s :
  reachable shuffle s ->
  Forall engineSample (trainingData s) /\ 250 <= length (trainingData s) <= 1000.
Proof.
  induction 1 as [g|s networkData now _ IH|s f isThreat g _ IH|s now _ IH].
  - destruct (new_trainingData g) as (np & tp & -> & Hn & Ht & Hnr & Htr).
    rewrite length_app, !length_map. split; [|lia].
    apply Forall_app. split; apply List.Forall_forall; intros d Hd;
      apply in_map_iff in Hd as (fs & <- & Hfs); split; cbn [features label];
      try (by left); try (by right).
    + apply normalRow_length. rewrite List.Forall_forall in Hnr. by apply Hnr.
    + apply threatRow_length. rewrite List.Forall_forall in Htr. by apply Htr.
  - unfold detectThreats. destruct (negb (modelTrained s)); [done|].
    by destruct (RandomForest.predict _ _).
  - rewrite retrain_trainingData. destruct IH as [Hall Hlen].
    apply engineSample_kept; [done| |done].
    split; [done|]. destruct isThreat; [by right|by left].
  - done.
Qed.

(** X16. In every state the engine passes through, from its construction on
    and under any calls of its public methods, it is trained and idle, holds
    between 250 and 1000 samples of eleven features and label 0 or 1, and
    both forests have their 50 trees, the isolation forest with sample size
    128. *)
Theorem engine_invariant s :
  reachable shuffle s ->
  isTraining s = false
  /\ modelTrained s = true
  /\ 250 <= length (trainingData s) <= 1000
  /\ Forall engineSample (trainingData s)
  /\ RandomForest.numTrees (randomForest s) = 50
  /\ length (RandomForest.trees (randomForest s)) = 50
  /\ IsolationForest.numTrees (isolationForest s) = 50
  /\ IsolationForest.sampleSize (isolationForest s) = 128
  /\ length (IsolationForest.trees (isolationForest s)) = 50.
Proof.
  intros H. destruct (reachable_samples s H) as [Hall Hlen].
  apply reachable_consistent in H. destruct H as [? ? ? ? ? ? ? ? ?].
  repeat split; try done; lia.
Qed.

Open Scope R_scope.

(** X17. In every such state [detectThreats] answers with risk level low: the
    random forest never votes for a threat, so the threat score is 0.4 times
    the isolation forest's anomaly score, a number of (0, 0.4]; the anomaly
    flag is the isolation forest's alone, and the confidence is 1 when the
    point is flagged and 0.5 otherwise. *)
Theorem detectThreats_never_above_low s networkData now :
  reachable shuffle s ->
  let vector := featureVector (extractFeatures s networkData now) in
  let ifResult := IsolationForest.predict (isolationForest s) vector in
  exists p score,
    (detectThreats s networkData now).2 = Ok p
    /\ IsolationForest.anomalyScore ifResult = Fin score
    /\ threatScore p = Fin (score * 0.4)
    /\ 0 < score * 0.4 <= 0.4
    /\ riskLevel p = low
    /\ isAnomaly p = IsolationForest.isAnomaly ifResult
    /\ confidence p = Fin (if isAnomaly p then 1 else / 2)
    /\ algorithm p = ensemble.
Proof.
  intros H vector ifResult. apply reachable_consistent in H.
  pose proof (consistent_ready s H) as Hready.
  destruct H as [_ Htrained _ Hn _ Hall _ _ _].
  destruct (forestsReady_parts s Hready) as (_ & _ & _ & Hne & Hss).
  destruct (isolation_predict_ready (isolationForest s) vector Hne Hss)
    as (Hs & [Hs0 Hs1] & _).
  set (score := Rpower 2 _) in *. fold ifResult in Hs.
  destruct (confidenceOf_unit 0 50 ltac:(lia) ltac:(lia)) as (q & Hq & _ & Hone).
  assert (Q2R q = 1) as Hq1.
  { rewrite (Qreals.Qeq_eqR q 1 (proj2 Hone (or_introl eq_refl))).
    apply RMicromega.Q2R_1. }
  unfold detectThreats. rewrite Htrained. cbn [negb]. fold vector.
  rewrite (forest_predict_trained (randomForest s) vector Hall), voteOf_zero, Hn, Hq.
  cbn [snd RandomForest.prediction RandomForest.confidence]. fold ifResult.
  exists (mkThreatPrediction
            ((0 =? 1)%nat || IsolationForest.isAnomaly ifResult)
            (fuseScore 0 (IsolationForest.anomalyScore ifResult))
            (fuseConfidence (Fin q) (IsolationForest.anomalyScore ifResult))
            (riskOf (fuseScore 0 (IsolationForest.anomalyScore ifResult)))
            (contributing (extractFeatures s networkData now)) ensemble), score.
  split; [reflexivity|]. split; [exact Hs|].
  cbn [threatScore riskLevel isAnomaly confidence algorithm].
  rewrite Hs. cbn [fuseScore fuseConfidence mapExt INR Nat.eqb orb].
  split; [f_equal; lra|]. split; [lra|].
  split; [apply riskOf_low; lra|]. split; [reflexivity|].
  split; [|reflexivity].
  change (IsolationForest.isAnomaly ifResult)
    with (IsolationForest.gt_ext (IsolationForest.anomalyScore ifResult) 0.6).
  rewrite Hs, Hq1. destruct (IsolationForest.gt_ext (Fin score) 0.6); f_equal; lra.
Qed.

Close Scope R_scope.

Lemma forest_train_empty this g :
  0 < RandomForest.numTrees this ->
  RandomForest.train this [] g
  = (RandomForest.mkForest [] (RandomForest.numTrees this), Throw ReduceOfEmptyArray, g).
Proof.
  intros Hn. unfold RandomForest.train.
  destruct (RandomForest.numTrees this) as [|n]; [lia|].
  cbn [RandomForest.trainLoop]. unfold RandomForest.bootstrap.
  cbn [length RandomForest.bootstrapLoop].
  by replace (RandomForest.trainTree [])
    with (@Throw DecisionTree.tree ReduceOfEmptyArray) by reflexivity.
Qed.

(** X18. Without training samples [trainModels] fails in the random forest:
    the error is caught and logged, the random forest is left without trees,
    the isolation forest is not touched, [modelTrained] keeps its value and
    the engine is idle again. *)
Theorem trainModels_without_samples s g :
  isTraining s = false ->
  trainingData s = [] ->
  0 < RandomForest.numTrees (randomForest s) ->
  trainModels shuffle s g
  = (mkEngine (RandomForest.mkForest [] (RandomForest.numTrees (randomForest s)))
       (isolationForest s) [] (featureHistory s) false (modelTrained s),
     [TrainingError ReduceOfEmptyArray], g).
Proof.
  intros Hidle Hdata Hn. unfold trainModels.
  by rewrite Hidle, Hdata, (forest_train_empty _ g Hn).
Qed.

End EngineData.

Lemma engine_invariant_witness :
  length (MLThreatDetection.trainingData
            (MLThreatDetection.new noShuffle zeroDraws).1.1) <= 1000.
Proof.
  destruct (engine_invariant noShuffle (MLThreatDetection.new noShuffle zeroDraws).1.1
              (reach_new noShuffle zeroDraws)) as (_ & _ & H & _).
  apply H.
Defined.

Lemma detectThreats_never_above_low_witness :
  exists p,
    (MLThreatDetection.detectThreats
       (MLThreatDetection.new noShuffle zeroDraws).1.1 sampleRaw 1000).2 = Ok p
    /\ MLThreatDetection.riskLevel p = low.
Proof.
  destruct (detectThreats_never_above_low noShuffle
              (MLThreatDetection.new noShuffle zeroDraws).1.1 sampleRaw 1000
              (reach_new noShuffle zeroDraws))
    as (p & score & Hp & _ & _ & _ & Hlow & _).
  exists p. by split.
Defined.

Lemma trainModels_without_samples_witness :
  (MLThreatDetection.trainModels noShuffle
     (MLThreatDetection.mkEngine (RandomForest.new 50) (IsolationForest.new 50 128)
        [] [] false false) zeroDraws).1.2
  = [TrainingError ReduceOfEmptyArray].
Proof.
  rewrite (trainModels_without_samples noShuffle
             (MLThreatDetection.mkEngine (RandomForest.new 50)
                (IsolationForest.new 50 128) [] [] false false) zeroDraws);
    [reflexivity|reflexivity|reflexivity|simpl; lia].
Defined.

(** ** Security monitor: the bookkeeping of a run of requests *)

Section RequestRules.

Import SecurityMonitor.

Variable hostname : string -> string.

Lemma lastN_all {A : Type} n (l : list A) : length l <= n -> lastN n l = l.
Proof. intros H. unfold lastN. by replace (length l - n) with 0 by lia. Qed.

Lemma lastN_length {A : Type} n (l : list A) : length (lastN n l) = Nat.min n (length l).
Proof. unfold lastN. rewrite length_skipn. lia. Qed.

Lemma lastN_app_lastN {A : Type} n (a b : list A) :
  lastN n (lastN n a ++ b) = lastN n (a ++ b).
Proof.
  destruct (Nat.le_gt_cases (length a) n) as [Hle|Hgt].
  - by rewrite (lastN_all n a).
  - unfold lastN. rewrite !length_app, length_skipn.
    replace (length a - (length a - n) + length b - n) with (length b) by lia.
    replace (length a + length b - n) with ((length a - n) + length b) by lia.
    rewrite <- (drop_drop (a ++ b)), (drop_app_le a b) by lia. done.
Qed.

Lemma pushCapped_lastN l e :
  length l <= 100 -> pushCapped l e = lastN 100 (l ++ [e]).
Proof.
  intros Hl. unfold pushCapped, lastN. rewrite length_app. simpl.
  destruct (100 <? length l + 1) eqn:E.
  - apply Nat.ltb_lt in E. replace (length l + 1 - 100) with 1 by lia.
    by destruct l.
  - apply Nat.ltb_ge in E. by replace (length l + 1 - 100) with 0 by lia.
Qed.

Lemma pushes_lastN (out : list SecurityEvent) :
  forall l, length l <= 100 -> fold_left pushCapped out l = lastN 100 (l ++ out).
Proof.
  induction out as [|e out IH]; intros l Hl; simpl.
  - by rewrite app_nil_r, lastN_all.
  - rewrite IH.
    + rewrite pushCapped_lastN by done. rewrite lastN_app_lastN.
      by rewrite <- app_assoc.
    + rewrite pushCapped_lastN by done. rewrite lastN_length. lia.
Qed.

(** One call, rule by rule. *)
Lemma analyzeRequest_step (this : monitor) url status responseTime :
  let domain := hostname url in
  let currentCount := default 0 (requestCounts this !! domain) in
  let failedCount := default 0 (failedAttempts this !! domain) in
  let failed := (400 <=? status)%Z in
  let r := analyzeRequest hostname this url status responseTime in
  r.2 = ruleEvents hostname url status responseTime currentCount failedCount
  /\ events r.1 = fold_left pushCapped r.2 (events this)
  /\ requestCounts r.1 = <[domain := currentCount + 1]> (requestCounts this)
  /\ failedAttempts r.1
     = (if (400 <=? status)%Z && (status <? 500)%Z
        then <[domain := failedCount + 1]> (failedAttempts this)
        else failedAttempts this)
  /\ networkMetrics r.1
     = mkMetrics (S (requestCount (networkMetrics this)))
         (if failed then S (failedRequests (networkMetrics this))
          else failedRequests (networkMetrics this))
         (totalResponseTime (networkMetrics this) + responseTime)%Q
         ({[domain]} ∪ uniqueDomains (networkMetrics this))
         (if failed then S (httpErrors (networkMetrics this))
          else httpErrors (networkMetrics this))
         (suspiciousPatterns (networkMetrics this) + length r.2).
Proof.
  intros domain currentCount failedCount failed r. subst r failed.
  unfold analyzeRequest, ruleEvents, volumeEvent, failedEvent, slowEvent, pushCapped.
  fold domain. fold currentCount.
  destruct (400 <=? status)%Z, (status <? 500)%Z; cbn [andb];
    destruct (100 <? currentCount);
    cbn [createSecurityEvent fst snd events failedAttempts requestCounts networkMetrics];
    fold failedCount;
    try destruct (5 <? failedCount);
    cbn [createSecurityEvent fst snd events failedAttempts requestCounts networkMetrics];
    destruct (Qle_bool responseTime 10000);
    cbn [createSecurityEvent fst snd events failedAttempts requestCounts networkMetrics
         bumpSuspicious requestCount failedRequests totalResponseTime uniqueDomains
         httpErrors suspiciousPatterns app length fold_left];
    repeat split; try reflexivity;
    unfold bumpSuspicious;
    cbn [requestCount failedRequests totalResponseTime uniqueDomains httpErrors
         suspiciousPatterns];
    f_equal; lia.
Qed.

Lemma ruleEvents_length url status responseTime a b :
  length (ruleEvents hostname url status responseTime a b) <= 3.
Proof.
  unfold ruleEvents. rewrite !length_app.
  destruct (100 <? a), (_ && _ && _), (Qle_bool _ _); simpl; lia.
Qed.

Lemma fold_pushCapped_app out2 :
  forall l out1,
    fold_left pushCapped out2 (fold_left pushCapped out1 l)
    = fold_left pushCapped (out1 ++ out2) l.
Proof. intros l out1. by rewrite fold_left_app. Qed.

Lemma analyzeRequests_run requests :
  forall this : monitor,
    let r := analyzeRequests hostname this requests in
    events r.1 = fold_left pushCapped r.2 (events this)
    /\ length r.2 <= 3 * length requests
    /\ suspiciousPatterns (networkMetrics r.1)
       = suspiciousPatterns (networkMetrics this) + length r.2
    /\ requestCount (networkMetrics r.1)
       = requestCount (networkMetrics this) + length requests
    /\ failedRequests (networkMetrics r.1)
       = failedRequests (networkMetrics this) + length (failing requests)
    /\ httpErrors (networkMetrics r.1)
       = httpErrors (networkMetrics this) + length (failing requests)
    /\ (uniqueDomains (networkMetrics this) = dom (requestCounts this) ->
        uniqueDomains (networkMetrics r.1) = dom (requestCounts r.1)).
Proof.
  induction requests as [|[[url status] responseTime] rest IH]; intros this r; subst r.
  { cbn [analyzeRequests fst snd fold_left length failing List.filter].
    repeat split; try lia. done. }
  cbn [analyzeRequests].
  destruct (analyzeRequest_step this url status responseTime)
    as (Hout & Hev & Hrc & _ & Hm).
  cbv zeta in Hout, Hev, Hrc, Hm.
  pose proof (ruleEvents_length url status responseTime
                (default 0 (requestCounts this !! hostname url))
                (default 0 (failedAttempts this !! hostname url))) as Hlen.
  rewrite <- Hout in Hlen.
  destruct (analyzeRequest hostname this url status responseTime) as [s1 out1].
  cbn [fst snd] in *.
  destruct (IH s1) as (Hev' & Hlen' & Hs' & Hr' & Hf' & Hh' & Hd').
  destruct (analyzeRequests hostname s1 rest) as [s2 out2]. cbn [fst snd] in *.
  rewrite Hev', Hs', Hr', Hf', Hh', Hev, Hm, fold_pushCapped_app.
  cbn [requestCount failedRequests httpErrors suspiciousPatterns uniqueDomains
       failing List.filter fst snd length].
  rewrite length_app.
  split; [done|]. split; [lia|]. split; [lia|]. split; [lia|].
  fold (failing rest).
  split; [destruct (400 <=? status)%Z; simpl; lia|].
  split; [destruct (400 <=? status)%Z; simpl; lia|].
  intros Hdom. apply Hd'. rewrite Hm, Hrc. cbn [uniqueDomains].
  rewrite dom_insert_L, Hdom. done.
Qed.

(** X19. After any run of requests on a new monitor the metrics count the
    requests, the failing ones (twice: as failedRequests and as httpErrors)
    and the published events; the domains counted are exactly those with a
    request count; a request publishes at most three events; and the buffer
    holds the last 100 published events, which [getSecurityEvents] returns
    most recent first. *)
Theorem request_run_bookkeeping requests :
  let s := (analyzeRequests hostname new requests).1 in
  let out := (analyzeRequests hostname new requests).2 in
  requestCount (networkMetrics s) = length requests
  /\ failedRequests (networkMetrics s) = length (failing requests)
  /\ httpErrors (networkMetrics s) = length (failing requests)
  /\ suspiciousPatterns (networkMetrics s) = length out
  /\ length out <= 3 * length requests
  /\ uniqueDomains (networkMetrics s) = dom (requestCounts s)
  /\ events s = lastN 100 out
  /\ length (events s) <= 100
  /\ getSecurityEvents s = firstn 100 (rev out).
Proof.
  intros s out. subst s out.
  destruct (analyzeRequests_run requests new) as (Hev & Hlen & Hs & Hr & Hf & Hh & Hd).
  cbv zeta in *.
  destruct (analyzeRequests hostname new requests) as [s out]. cbn [fst snd] in *.
  change (events new) with (@nil SecurityEvent) in Hev.
  rewrite (pushes_lastN out []) in Hev by (simpl; lia). rewrite app_nil_l in Hev.
  repeat split; try done.
  - apply Hd. cbn [new networkMetrics uniqueDomains requestCounts].
    by rewrite dom_empty_L.
  - rewrite Hev, lastN_length. lia.
  - unfold getSecurityEvents. rewrite Hev. unfold lastN.
    by rewrite firstn_rev.
Qed.

Lemma flat_map_map {A B C : Type} (f : B -> list C) (g : A -> B) (l : list A) :
  flat_map f (map g l) = flat_map (fun x => f (g x)) l.
Proof. induction l as [|x l IH]; simpl; [done|]. by rewrite IH. Qed.

Lemma identical_requests url status responseTime n :
  forall this : monitor,
    let a := default 0 (requestCounts this !! hostname url) in
    let b := default 0 (failedAttempts this !! hostname url) in
    (analyzeRequests hostname this (repeat (url, status, responseTime) n)).2
    = flat_map (fun k => ruleEvents hostname url status responseTime (a + k) (b + k))
        (seq 0 n).
Proof.
  induction n as [|n IH]; intros this a b; [done|].
  cbn [repeat analyzeRequests seq flat_map]. rewrite <- seq_shift, flat_map_map.
  destruct (analyzeRequest_step this url status responseTime)
    as (Hout & _ & Hrc & Hfa & _).
  cbv zeta in Hout, Hrc, Hfa. fold a in Hout, Hrc. fold b in Hout, Hfa.
  destruct (analyzeRequest hostname this url status responseTime) as [s1 out1].
  cbn [fst snd] in *.
  specialize (IH s1). cbv zeta in IH. rewrite Hrc, Hfa in IH.
  rewrite lookup_insert_eq in IH. cbn [default] in IH.
  destruct (analyzeRequests hostname s1 (repeat (url, status, responseTime) n))
    as [s2 out2].
  cbn [fst snd] in *. subst out1 out2. rewrite !Nat.add_0_r. f_equal.
  apply flat_map_ext. intros k.
  replace (a + S k) with (a + 1 + k) by lia.
  destruct ((400 <=? status)%Z && (status <? 500)%Z) eqn:E.
  - rewrite lookup_insert_eq. cbn [default]. by replace (b + S k) with (b + 1 + k) by lia.
  - unfold ruleEvents. by rewrite E.
Qed.

Lemma flat_map_agree {A B : Type} (f g : A -> list B) (l : list A) :
  (forall x, In x l -> f x = g x) -> flat_map f l = flat_map g l.
Proof.
  induction l as [|x l IH]; intros H; simpl; [done|].
  rewrite (H x) by (by left). rewrite IH; [done|]. intros y Hy. apply H. by right.
Qed.

Lemma flat_map_singletons {A B : Type} (f : A -> B) (p : A -> bool) (l : list A) :
  flat_map (fun k => if p k then [f k] else []) l = map f (List.filter p l).
Proof.
  induction l as [|x l IH]; simpl; [done|]. rewrite IH. by destruct (p x).
Qed.

Lemma filter_above_five n :
  n <= 101 -> List.filter (fun k => 5 <? k) (seq 0 n) = seq 6 (n - 6).
Proof.
  intros _. destruct (Nat.le_gt_cases n 6) as [Hle|Hgt].
  - replace (n - 6) with 0 by lia. simpl.
    assert (forall a m, a + m <= 6 -> List.filter (fun k => 5 <? k) (seq a m) = []) as H.
    { intros a m. revert a. induction m as [|m IH]; intros a Ha; [done|].
      cbn [seq List.filter]. destruct (5 <? a) eqn:E; [apply Nat.ltb_lt in E; lia|].
      apply IH. lia. }
    apply H. lia.
  - replace n with (6 + (n - 6)) at 1 by lia.
    rewrite seq_app, List.filter_app. cbn [Nat.add].
    replace (List.filter (fun k => 5 <? k) (seq 0 6)) with (@nil nat) by reflexivity.
    cbn [app].
    assert (forall a m, 6 <= a -> List.filter (fun k => 5 <? k) (seq a m) = seq a m) as H.
    { intros a m. revert a. induction m as [|m IH]; intros a Ha; [done|].
      cbn [seq List.filter]. destruct (5 <? a) eqn:E; [|apply Nat.ltb_ge in E; lia].
      f_equal. apply IH. lia. }
    apply H. lia.
Qed.

(** X20. Of a run of identical requests on a new monitor that are answered
    quickly with a 4xx status, the first six publish nothing; from the
    seventh on each publishes one [failed_auth] event of severity high that
    carries the number of failures before it (up to the 101st request, after
    which the volume rule joins in).  Requests answered with any other
    status never publish a [failed_auth] event. *)
Theorem failed_request_rule_fires_from_the_seventh url status responseTime n :
  ((400 <= status < 500)%Z ->
   Qle_bool responseTime 10000 = true ->
   n <= 101 ->
   (analyzeRequests hostname new (repeat (url, status, responseTime) n)).2
   = map (failedEvent hostname url status) (seq 6 (n - 6)))
  /\ ((status < 400 \/ 500 <= status)%Z ->
      Forall (fun e => type e <> failed_auth)
        (analyzeRequests hostname new (repeat (url, status, responseTime) n)).2).
Proof.
  pose proof (identical_requests url status responseTime n new) as Hrun.
  cbv zeta in Hrun.
  change (requestCounts new !! hostname url)
    with ((∅ : gmap string nat) !! hostname url) in Hrun.
  change (failedAttempts new !! hostname url)
    with ((∅ : gmap string nat) !! hostname url) in Hrun.
  rewrite lookup_empty in Hrun. cbn [default Nat.add] in Hrun.
  rewrite Hrun. split.
  - intros [H4 H5] Hfast Hn.
    rewrite <- (filter_above_five n Hn), <- flat_map_singletons.
    apply flat_map_agree. intros k Hk. apply in_seq in Hk.
    unfold ruleEvents. rewrite Hfast.
    assert ((100 <? k) = false) as -> by (apply Nat.ltb_ge; lia).
    assert ((400 <=? status)%Z = true) as -> by (apply Z.leb_le; lia).
    assert ((status <? 500)%Z = true) as -> by (apply Z.ltb_lt; lia).
    cbn [andb app]. by rewrite app_nil_r.
  - intros Hs.
    assert ((400 <=? status)%Z && (status <? 500)%Z = false) as E.
    { apply andb_false_iff. destruct Hs as [Hs|Hs].
      - left. apply Z.leb_gt. lia.
      - right. apply Z.ltb_ge. lia. }
    apply List.Forall_forall. intros e He.
    apply in_flat_map in He as (k & _ & He). unfold ruleEvents in He. rewrite E in He.
    cbn [andb app] in He.
    destruct (100 <? k), (Qle_bool responseTime 10000); simpl in He;
      repeat match goal with
             | H : _ \/ _ |- _ => destruct H as [<-|H]
             | H : False |- _ => destruct H
             end; done.
Qed.

(** X21. [resetMetrics] does not touch the per-domain counters of the rules:
    the next request publishes the same events, and leaves the same buffer
    and the same counters, as it would without the reset; only the metrics
    start again, at one request and as many suspicious patterns as events
    published. *)
Theorem resetMetrics_keeps_rule_counters (this : monitor) url status responseTime :
  let r := analyzeRequest hostname this url status responseTime in
  let r' := analyzeRequest hostname (resetMetrics this) url status responseTime in
  r'.2 = r.2
  /\ events r'.1 = events r.1
  /\ requestCounts r'.1 = requestCounts r.1
  /\ failedAttempts r'.1 = failedAttempts r.1
  /\ requestCount (networkMetrics r'.1) = 1
  /\ suspiciousPatterns (networkMetrics r'.1) = length r.2.
Proof.
  intros r r'. subst r r'.
  destruct (analyzeRequest_step this url status responseTime)
    as (Hout & Hev & Hrc & Hfa & Hm).
  destruct (analyzeRequest_step (resetMetrics this) url status responseTime)
    as (Hout' & Hev' & Hrc' & Hfa' & Hm').
  cbv zeta in *.
  change (requestCounts (resetMetrics this)) with (requestCounts this) in *.
  change (failedAttempts (resetMetrics this)) with (failedAttempts this) in *.
  change (events (resetMetrics this)) with (events this) in *.
  rewrite Hout', Hev', Hrc', Hfa', Hm', Hev, Hrc, Hfa, Hout' , Hout.
  repeat split; reflexivity.
Qed.

Lemma ruleEvents_not_critical url status responseTime a b :
  Forall (fun e => RealTimeMonitor.isCritical (severity e) = false)
    (ruleEvents hostname url status responseTime a b).
Proof.
  unfold ruleEvents.
  destruct (100 <? a), (_ && _ && _), (Qle_bool _ _); simpl; repeat constructor.
Qed.

Lemma analyzeRequests_not_critical requests :
  forall this : monitor,
    Forall (fun e => RealTimeMonitor.isCritical (severity e) = false)
      (analyzeRequests hostname this requests).2.
Proof.
  induction requests as [|[[url status] responseTime] rest IH]; intros this;
    cbn [analyzeRequests]; [constructor|].
  destruct (analyzeRequest_step this url status responseTime) as (Hout & _).
  cbv zeta in Hout.
  destruct (analyzeRequest hostname this url status responseTime) as [s1 out1].
  specialize (IH s1).
  destruct (analyzeRequests hostname s1 rest) as [s2 out2]. cbn [fst snd] in *.
  apply Forall_app. split; [|done]. rewrite Hout. apply ruleEvents_not_critical.
Qed.

Lemma no_critical_among {A : Type} (f : A -> level) (p : A -> bool) (l : list A) :
  Forall (fun e => RealTimeMonitor.isCritical (f e) = false) l ->
  List.filter (fun e => RealTimeMonitor.isCritical (f e) && p e) l = [].
Proof.
  induction 1 as [|x l Hx Hl IH]; simpl; [done|]. by rewrite Hx.
Qed.

(** X22. Whatever requests a new monitor has analysed, none of its events is
    of severity critical: the real-time monitor's threat level, computed
    from these events with any timestamps, is never critical, and the system
    status reports no critical event, security status secure, and at most
    100 events in total. *)
Theorem request_rules_never_critical connection requests
    (stamped : list (SecurityEvent * Z)) now :
  map fst stamped = getSecurityEvents (analyzeRequests hostname new requests).1 ->
  RealTimeMonitor.threatLevel stamped now <> critical
  /\ RealTimeMonitor.security_criticalEvents
       (RealTimeMonitor.getSystemStatus connection stamped now) = 0
  /\ RealTimeMonitor.security_status
       (RealTimeMonitor.getSystemStatus connection stamped now)
     = RealTimeMonitor.secure
  /\ RealTimeMonitor.security_totalEvents
       (RealTimeMonitor.getSystemStatus connection stamped now) <= 100.
Proof.
  intros Hst.
  destruct (analyzeRequests_run requests new) as (Hev & _).
  pose proof (analyzeRequests_not_critical requests new) as Hout.
  cbv zeta in Hev.
  destruct (analyzeRequests hostname new requests) as [s out]. cbn [fst snd] in *.
  change (events new) with (@nil SecurityEvent) in Hev.
  rewrite (pushes_lastN out []) in Hev by (simpl; lia). rewrite app_nil_l in Hev.
  assert (length stamped <= 100) as Hlen.
  { rewrite <- (length_map fst), Hst. unfold getSecurityEvents.
    rewrite length_rev, Hev, lastN_length. lia. }
  assert (Forall (fun e => RealTimeMonitor.isCritical (severity (fst e)) = false)
            stamped) as Hall.
  { apply List.Forall_forall. intros e He.
    assert (In (fst e) (map fst stamped)) as Hin by (by apply in_map).
    rewrite Hst in Hin. unfold getSecurityEvents in Hin. apply in_rev in Hin.
    assert (Forall (fun e => RealTimeMonitor.isCritical (severity e) = false)
              (events s)) as Hevs.
    { rewrite Hev. unfold lastN. by apply Forall_drop. }
    rewrite List.Forall_forall in Hevs. by apply Hevs. }
  assert (List.filter
            (fun e => RealTimeMonitor.isCritical (severity (fst e))
                      && (now - snd e <? 3600000)%Z) stamped = []) as Hnone
    by (by apply (no_critical_among (fun e => severity (fst e)))).
  unfold RealTimeMonitor.getSystemStatus.
  cbn [RealTimeMonitor.security_criticalEvents RealTimeMonitor.security_status
       RealTimeMonitor.security_totalEvents].
  rewrite Hnone. cbn [length Nat.eqb].
  split; [|done].
  unfold RealTimeMonitor.threatLevel.
  assert (List.filter (fun e => RealTimeMonitor.isCritical (severity (fst e)))
            (List.filter (fun e => (now - snd e <? 300000)%Z) stamped) = []) as ->.
  { pose proof (no_critical_among (fun e : SecurityEvent * Z => severity (fst e))
                  (fun _ => true)
                  (List.filter (fun e => (now - snd e <? 300000)%Z) stamped)) as H.
    erewrite filter_ext; [apply H|].
    - apply List.Forall_forall. intros e He. apply filter_In in He as [He _].
      rewrite List.Forall_forall in Hall. by apply Hall.
    - intros e. cbv beta. by rewrite andb_true_r. }
  cbn [length]. change (0 <? 0) with false. cbv iota.
  destruct (2 <? _); [done|]. by destruct (5 <? _).
Qed.

End RequestRules.

Lemma request_rules_never_critical_witness :
  RealTimeMonitor.threatLevel
    [(failedEvent (fun u => u) "a" 404 6, 1000%Z)] 2000 <> critical.
Proof.
  destruct (request_rules_never_critical (fun u => u) None
              (repeat ("a"%string, 404%Z, 0%Q) 7)
              [(failedEvent (fun u => u) "a" 404 6, 1000%Z)] 2000) as (H & _).
  - vm_compute. reflexivity.
  - exact H.
Defined.

(** ** Connection quality and the system status *)

Section ConnectionQuality.

Import NetworkMonitor.

(** X23. The quality score is 100 less 20 for high latency, 30 for low
    bandwidth and 40 for a 2g connection, so it is never below 10 (the
    [Math.max(0, score)] changes nothing) and it is 100 exactly when no issue
    is listed.  The system status rates performance good exactly when
    neither bandwidth nor connection type is an issue, and poor exactly when
    the connection is 2g with one more issue; a disconnected network is
    never rated good; and without connection information the score is 70,
    the network disconnected and the performance fair. *)
Theorem system_status_by_connection connection securityEvents now :
  let stats := getConnectionInfo connection in
  let quality := getNetworkQuality connection in
  let status := RealTimeMonitor.getSystemStatus connection securityEvents now in
  let latency := gt_num (rtt stats) 100 in
  let bandwidth := lt_num (downlink stats) 5 in
  let twoG := isTwoG (effectiveType stats) in
  score quality
  = (100 - (if latency then 20 else 0) - (if bandwidth then 30 else 0)
     - (if twoG then 40 else 0))%Z
  /\ (10 <= score quality <= 100)%Z
  /\ (score quality = 100%Z <-> issues quality = [])
  /\ (RealTimeMonitor.performance_status status = RealTimeMonitor.good
      <-> bandwidth = false /\ twoG = false)
  /\ (RealTimeMonitor.performance_status status = RealTimeMonitor.poor
      <-> twoG = true /\ (latency = true \/ bandwidth = true))
  /\ (RealTimeMonitor.network_status status = RealTimeMonitor.disconnected ->
      RealTimeMonitor.performance_status status <> RealTimeMonitor.good)
  /\ (connection = None ->
      score quality = 70%Z
      /\ issues quality = ["Low bandwidth"%string]
      /\ RealTimeMonitor.network_status status = RealTimeMonitor.disconnected
      /\ RealTimeMonitor.performance_status status = RealTimeMonitor.fair).
Proof.
  intros stats quality status latency bandwidth twoG.
  assert (gt_num (downlink stats) 0 = false -> bandwidth = true) as Hdown.
  { unfold bandwidth, gt_num, lt_num. intros H. apply negb_false_iff in H.
    apply Qle_bool_iff in H. apply negb_true_iff.
    destruct (Qle_bool 5 (downlink stats)) eqn:E; [|done].
    apply Qle_bool_iff in E. lra. }
  subst quality status. unfold RealTimeMonitor.getSystemStatus, getNetworkQuality.
  fold stats. fold latency. fold bandwidth. fold twoG.
  cbn [RealTimeMonitor.performance_status RealTimeMonitor.network_status].
  split; [by destruct latency, bandwidth, twoG|].
  split; [by destruct latency, bandwidth, twoG|].
  split; [by destruct latency, bandwidth, twoG|].
  split; [destruct latency, bandwidth, twoG; cbn; split; (done || by intros [? ?])|].
  split.
  { destruct latency, bandwidth, twoG; cbn; split; try done;
      try (by intros [? [?|?]]); intros _; split; auto. }
  split.
  { destruct (gt_num (downlink stats) 0); [done|]. rewrite Hdown by done.
    intros _. by destruct latency, twoG. }
  intros ->. by vm_compute.
Qed.

(** X26. What [detectNetworkIssues] reports about latency, bandwidth and the
    connection type, [getNetworkQuality] lists as an issue too: for a
    connection of score 100 the only report left is the data saver mode;
    without connection information the one report is the slow connection. *)
Theorem detected_issues_lower_the_score connection :
  (score (getNetworkQuality connection) = 100%Z ->
   detectNetworkIssues connection
   = if saveData (getConnectionInfo connection)
     then ["Data saver mode is enabled"%string] else [])
  /\ (detectNetworkIssues connection = [] ->
      gt_num (rtt (getConnectionInfo connection)) 200 = false
      /\ lt_num (downlink (getConnectionInfo connection)) 1 = false
      /\ saveData (getConnectionInfo connection) = false)
  /\ detectNetworkIssues None = ["Slow connection detected (<1 Mbps)"%string].
Proof.
  unfold getNetworkQuality, detectNetworkIssues.
  set (stats := getConnectionInfo connection).
  assert (gt_num (rtt stats) 100 = false -> gt_num (rtt stats) 200 = false) as Hrtt.
  { unfold gt_num. intros H. apply negb_false_iff in H. apply Qle_bool_iff in H.
    apply negb_false_iff. apply Qle_bool_iff. lra. }
  assert (lt_num (downlink stats) 5 = false -> lt_num (downlink stats) 1 = false)
    as Hdown.
  { unfold lt_num. intros H. apply negb_false_iff in H. apply Qle_bool_iff in H.
    apply negb_false_iff. apply Qle_bool_iff. lra. }
  split; [|split; [|reflexivity]].
  - destruct (gt_num (rtt stats) 100) eqn:E1, (lt_num (downlink stats) 5) eqn:E2,
      (isTwoG (effectiveType stats)) eqn:E3; cbn; try done.
    intros _. by rewrite Hrtt, Hdown.
  - destruct (gt_num (rtt stats) 200), (lt_num (downlink stats) 1),
      (isTwoG (effectiveType stats)), (saveData stats); cbn; done.
Qed.

Lemma pingHost_history pingResults h outcome rt now :
  let before := getPingHistory pingResults h in
  let after := getPingHistory (pingHost pingResults h outcome rt now).1 h in
  length before <= length after <= S (length before)
  /\ (match outcome with
      | Resolved => length before < 50 -> length after = S (length before)
      | Rejected _ => length after = S (length before)
      end)
  /\ (length before <= 50 -> outcome = Resolved -> length after <= 50).
Proof.
  unfold getPingHistory, pingHost.
  destruct outcome as [|message]; cbn [fst]; rewrite lookup_insert_eq;
    change (default [] (Some ?x)) with x.
  - rewrite length_app. cbn [length].
    destruct (50 <? length (default [] (pingResults !! h)) + 1) eqn:E.
    + apply Nat.ltb_lt in E.
      assert (length (tail (default [] (pingResults !! h) ++
                [mkPingResult h true rt now None]))
              = length (default [] (pingResults !! h))) as ->.
      { destruct (default [] (pingResults !! h)); simpl; [done|].
        rewrite length_app. simpl. lia. }
      repeat split; lia.
    + apply Nat.ltb_ge in E. rewrite length_app. cbn [length]. repeat split; lia.
  - rewrite length_app. cbn [length]. repeat split; try lia. done.
Qed.

(** X27. The history [pingHost] keeps for a host never gets shorter.  Pings
    that all succeed keep a history of at most 50 results at 50 at most, but
    every failed ping adds a result without any cap: after a run of pings
    the history has grown by at least the number of pings that failed (and
    by at most the number of pings), so it can exceed 50 and is then never
    cut back. *)
Theorem ping_history_grows_with_failures pingResults h pings :
  let before := getPingHistory pingResults h in
  let after := getPingHistory (pingRun pingResults h pings) h in
  length before + length (List.filter (fun p => negb (resolved p)) pings)
  <= length after
  /\ length after <= length before + length pings
  /\ (length before <= 50 -> forallb resolved pings = true -> length after <= 50).
Proof.
  revert pingResults. induction pings as [|[[outcome rt] now] rest IH];
    intros pingResults; cbn [pingRun List.filter forallb length].
  { repeat split; intros; lia. }
  destruct (pingHost_history pingResults h outcome rt now) as (Hstep & Hout & Hcap).
  cbv zeta in Hstep, Hout, Hcap.
  destruct (IH (pingHost pingResults h outcome rt now).1) as (H1 & H2 & H3).
  cbv zeta in H1, H2, H3. cbv zeta.
  set (before := getPingHistory pingResults h) in *.
  set (mid := getPingHistory (pingHost pingResults h outcome rt now).1 h) in *.
  set (after := getPingHistory (pingRun _ h rest) h) in *.
  destruct outcome as [|message]; cbn [resolved fst negb andb length] in *.
  - split; [lia|]. split; [lia|].
    intros Hb Hall. apply H3; [|done]. by apply Hcap.
  - split; [lia|]. split; [lia|]. done.
Qed.

End ConnectionQuality.

(** ** The engine: its isolation trees and the factors it reports *)

Section EngineTrees.

Import MLThreatDetection.

Variable shuffle : list (list Q) -> rng -> list (list Q) * rng.

(** The reordering keeps the number of rows. *)
Hypothesis shuffle_length : forall data g, length (shuffle data g).1 = length data.

Lemma trainModels_isolation_trees s g :
  isTraining s = false ->
  128 <= length (trainingData s) ->
  IsolationForest.sampleSize (isolationForest s) = 128 ->
  Forall (fun t => sizeOf t = 128 /\ heightOf t <= 7 /\ wellSplit t)
    (IsolationForest.trees (isolationForest (trainModels shuffle s g).1.1)).
Proof.
  intros Hidle Hlen Hss.
  assert (trainingData s <> []) as Hne by (intros E; rewrite E in Hlen; simpl in Hlen; lia).
  destruct (trainModels_ok shuffle s g Hidle Hne) as [_ ->].
  cbn [isolationForest].
  apply (train_trees shuffle shuffle_length
           (fun t => sizeOf t = 128 /\ heightOf t <= 7 /\ wellSplit t)).
  intros sampleData g' Hsample. rewrite Hss, length_map in Hsample.
  destruct (build_shape (Nat.log2_up (IsolationForest.sampleSize (isolationForest s)) - 0)
              sampleData g') as (H1 & H2 & _ & H4).
  unfold IsolationTree.new. rewrite Hss in *.
  change (Nat.log2_up 128 - 0) with 7 in *.
  split; [lia|]. split; [lia|done].
Qed.

Lemma reachable_isolation_trees s :
  reachable shuffle s ->
  Forall (fun t => sizeOf t = 128 /\ heightOf t <= 7 /\ wellSplit t)
    (IsolationForest.trees (isolationForest s)).
Proof.
  induction 1 as [g|s networkData now Hs IH|s f isThreat g Hs IH|s now Hs IH].
  - unfold new.
    pose proof (generate_length normalPattern 200 [] g) as Hn.
    unfold generateNormalTrafficPatterns, generateThreatPatterns.
    destruct (generate normalPattern 200 [] g) as [normalPatterns g1].
    pose proof (generate_length threatPattern 50 [] g1) as Ht.
    destruct (generate threatPattern 50 [] g1) as [threatPatterns g2].
    cbn [fst length Nat.add] in Hn, Ht.
    apply trainModels_isolation_trees; [done| |done].
    cbn [trainingData]. rewrite length_app, !length_map. lia.
  - unfold detectThreats. destruct (negb (modelTrained s)); [done|].
    by destruct (RandomForest.predict _ _).
  - pose proof (reachable_samples shuffle _
                  (reach_retrainWithFeedback shuffle s f isThreat g Hs)) as [_ Hlen].
    rewrite retrain_trainingData in Hlen. cbv zeta in Hlen.
    destruct (reachable_consistent shuffle s Hs) as [Hidle _ _ _ _ _ _ Hss _].
    unfold retrainWithFeedback. cbv zeta.
    destruct (_ mod 50 =? 0); [|done].
    apply trainModels_isolation_trees; cbn [isTraining trainingData isolationForest];
      [done|lia|done].
  - done.
Qed.

(** X24. In every state the engine passes through, each of the 50 isolation
    trees was built from 128 rows, is at most 7 levels high, and splits its
    rows between the children of every internal node. *)
Theorem engine_isolation_trees s :
  reachable shuffle s ->
  length (IsolationForest.trees (isolationForest s)) = 50
  /\ Forall (fun t => sizeOf t = 128 /\ heightOf t <= 7 /\ wellSplit t)
       (IsolationForest.trees (isolationForest s)).
Proof.
  intros H. split; [|by apply reachable_isolation_trees].
  by destruct (reachable_consistent shuffle s H).
Qed.

(** X25. A feature record whose values lie in the ranges of the synthetic
    normal patterns is reported without any contributing factor. *)
Theorem normal_features_have_no_factor (f : NetworkFeature) :
  normalRow (featureVector f) -> contributing f = [].
Proof.
  unfold normalRow, featureVector, between, contributing, gtQ.
  intros (H1 & H2 & H3 & _ & _ & _ & H7 & H8 & _ & H10 & _).
  rewrite H7.
  assert (forall x c, (x <= c)%Q -> negb (Qle_bool x c) = false) as Hle.
  { intros x c Hx. apply negb_false_iff. by apply Qle_bool_iff. }
  rewrite !Hle by lra. done.
Qed.

End EngineTrees.

Lemma engine_isolation_trees_witness :
  length
    (IsolationForest.trees
       (MLThreatDetection.isolationForest
          (MLThreatDetection.new noShuffle zeroDraws).1.1)) = 50.
Proof.
  destruct (engine_isolation_trees noShuffle ltac:(reflexivity)
              (MLThreatDetection.new noShuffle zeroDraws).1.1
              (reach_new noShuffle zeroDraws)) as (H & _).
  exact H.
Defined.

Lemma normal_features_have_no_factor_witness :
  MLThreatDetection.contributing
    (MLThreatDetection.mkNetworkFeature 0 30 2 100 500 5 1 0 40 20 3 2) = [].
Proof.
  apply normal_features_have_no_factor.
  unfold normalRow, between. simpl. repeat split; lra.
Defined.
